(** * The spaced-repetition engine of smart-learning-cards

    A shallow embedding of [frontend/src/utils/superMemo.ts]
    (class [SpacedRepetitionEngine]) and of the card types of
    [types/flashcard.ts], followed by the properties of the engine.

    Every TypeScript [number] is an IEEE 754 binary64 value; it is modelled
    by [spec_float] with the operations of the Standard Library's
    [SpecFloat] at precision 53 and maximal exponent 1024.  The wall clock
    ([Date.now()], [new Date()]) is an explicit state that is threaded
    through the methods, and the host's local time zone is a parameter. *)

From Stdlib Require Import ZArith Bool List Lia Ascii String Permutation.
From Stdlib Require Import Floats.SpecFloat.
From stdpp Require Import gmap strings.

Local Open Scope Z_scope.

(** ** JavaScript numbers *)

Module Num.

Definition number : Type := spec_float.

Definition prec : Z := 53.
Definition emax : Z := 1024.

Definition NaN : number := S754_nan.
Definition Infinity : number := S754_infinity false.

(** A value of [spec_float] is a binary64 number when its mantissa is
    canonical and its exponent in range. *)
Definition wf (x : number) : bool := valid_binary prec emax x.

Definition isNaN (x : number) : bool :=
  match x with S754_nan => true | _ => false end.

(** The four arithmetic operators, round to nearest, ties to even. *)
Definition add : number -> number -> number := SFadd prec emax.
Definition sub : number -> number -> number := SFsub prec emax.
Definition mul : number -> number -> number := SFmul prec emax.
Definition div : number -> number -> number := SFdiv prec emax.

(** The Number value of a mathematical integer. *)
Definition ofZ (n : Z) : number := binary_normalize prec emax n 0 false.
Definition ofNat (n : nat) : number := ofZ (Z.of_nat n).

(** A decimal literal [n/d] denotes the binary64 value nearest to it,
    which is what the correctly rounded quotient of the two integers is. *)
Definition decimal (n d : Z) : number := div (ofZ n) (ofZ d).

(** Relational operators; every comparison with NaN is false, and the
    two zeros are equal. *)
Definition le (x y : number) : bool := SFleb x y.   (* x <= y *)
Definition lt (x y : number) : bool := SFltb x y.   (* x <  y *)
Definition ge (x y : number) : bool := SFleb y x.   (* x >= y *)
Definition gt (x y : number) : bool := SFltb y x.   (* x >  y *)
Definition strictEq (x y : number) : bool := SFeqb x y.  (* x === y *)

(** ToBoolean on a number: [0], [-0] and [NaN] are falsy. *)
Definition truthy (x : number) : bool :=
  match x with
  | S754_zero _ | S754_nan => false
  | _ => true
  end.

(** [Math.max(x, y)] and [Math.min(x, y)]: NaN if either argument is
    NaN; [+0] is larger than [-0]. *)
Definition Math_max (x y : number) : number :=
  match SFcompare x y with
  | None => NaN
  | Some Lt => y
  | Some Gt => x
  | Some Eq => match x with S754_zero true => y | _ => x end
  end.

Definition Math_min (x y : number) : number :=
  match SFcompare x y with
  | None => NaN
  | Some Lt => x
  | Some Gt => y
  | Some Eq => match x with S754_zero false => y | _ => x end
  end.

(** The mathematical integer [floor(v + 1/2)] for the finite value
    [v = (-1)^s * m * 2^e]. *)
Definition roundHalfUp (s : bool) (m : positive) (e : Z) : Z :=
  match e with
  | Zneg k => (2 * cond_Zopp s (Zpos m) + 2 ^ Zpos k) / 2 ^ (Zpos k + 1)
  | _ => cond_Zopp s (Zpos m) * 2 ^ e
  end.

(** [Math.round(x)]: the integral Number closest to [x], ties towards
    +Infinity.  NaN, the infinities, the zeros and values that are
    already integral are returned unchanged; a value in [-0.5, 0) gives
    [-0]. *)
Definition Math_round (x : number) : number :=
  match x with
  | S754_finite s m (Zneg k) =>
      match roundHalfUp s m (Zneg k) with
      | Z0 => S754_zero s
      | n => ofZ n
      end
  | _ => x
  end.

(** ToIntegerOrInfinity restricted to finite numbers: truncation towards
    zero; [None] for NaN and the infinities. *)
Definition truncate (x : number) : option Z :=
  match x with
  | S754_zero _ => Some 0
  | S754_finite s m e =>
      Some (cond_Zopp s (match e with
                         | Zneg k => Zpos m / 2 ^ Zpos k
                         | _ => Zpos m * 2 ^ e
                         end))
  | _ => None
  end.

(** The literals of the engine. *)
Definition n0 : number := Eval vm_compute in ofZ 0.
Definition n1 : number := Eval vm_compute in ofZ 1.
Definition n2 : number := Eval vm_compute in ofZ 2.
Definition n3 : number := Eval vm_compute in ofZ 3.
Definition n5 : number := Eval vm_compute in ofZ 5.
Definition n6 : number := Eval vm_compute in ofZ 6.
Definition n7 : number := Eval vm_compute in ofZ 7.
Definition n100 : number := Eval vm_compute in ofZ 100.
Definition n0_02 : number := Eval vm_compute in decimal 2 100.
Definition n0_08 : number := Eval vm_compute in decimal 8 100.
Definition n0_1 : number := Eval vm_compute in decimal 1 10.
Definition n0_2 : number := Eval vm_compute in decimal 2 10.
Definition n1_3 : number := Eval vm_compute in decimal 13 10.
Definition n2_5 : number := Eval vm_compute in decimal 25 10.

End Num.

Import Num.

(** ** Dates and the clock

    The abstract operations of the ECMAScript [Date] object that the engine
    uses, over time values in milliseconds since the epoch. *)

Module JSDate.

Definition msPerDay : Z := 86400000.
Definition maxTime : Z := 8640000000000000.

Definition Day (t : Z) : Z := t / msPerDay.
Definition TimeWithinDay (t : Z) : Z := t mod msPerDay.

Definition DaysInYear (y : Z) : Z :=
  if negb (y mod 4 =? 0) then 365
  else if negb (y mod 100 =? 0) then 366
  else if negb (y mod 400 =? 0) then 365
  else 366.

Definition DayFromYear (y : Z) : Z :=
  365 * (y - 1970) + (y - 1969) / 4 - (y - 1901) / 100 + (y - 1601) / 400.

(** The year containing day number [d]: the largest [y] with
    [DayFromYear y <= d], found by counting whole 400-, 100-, 4- and
    1-year periods from 1 January 1601. *)
Definition YearFromDay (d : Z) : Z :=
  let d0 := d - DayFromYear 1601 in
  let n400 := d0 / 146097 in
  let r400 := d0 mod 146097 in
  let n100 := Z.min (r400 / 36524) 3 in
  let r100 := r400 - 36524 * n100 in
  let n4 := r100 / 1461 in
  let r4 := r100 mod 1461 in
  let n1 := Z.min (r4 / 365) 3 in
  1601 + 400 * n400 + 100 * n100 + 4 * n4 + n1.

Definition YearFromTime (t : Z) : Z := YearFromDay (Day t).
Definition DayWithinYear (t : Z) : Z := Day t - DayFromYear (YearFromTime t).
Definition leapDays (y : Z) : Z := if DaysInYear y =? 366 then 1 else 0.
Definition InLeapYear (t : Z) : Z := leapDays (YearFromTime t).

(** Day within the year on which month [m] (0 = January) starts. *)
Definition monthStart (leap m : Z) : Z :=
  match m with
  | 0 => 0
  | 1 => 31
  | 2 => 59 + leap
  | 3 => 90 + leap
  | 4 => 120 + leap
  | 5 => 151 + leap
  | 6 => 181 + leap
  | 7 => 212 + leap
  | 8 => 243 + leap
  | 9 => 273 + leap
  | 10 => 304 + leap
  | _ => 334 + leap
  end.

Definition MonthFromTime (t : Z) : Z :=
  let d := DayWithinYear t in
  let leap := InLeapYear t in
  if d <? 31 then 0
  else if d <? 59 + leap then 1
  else if d <? 90 + leap then 2
  else if d <? 120 + leap then 3
  else if d <? 151 + leap then 4
  else if d <? 181 + leap then 5
  else if d <? 212 + leap then 6
  else if d <? 243 + leap then 7
  else if d <? 273 + leap then 8
  else if d <? 304 + leap then 9
  else if d <? 334 + leap then 10
  else 11.

Definition DateFromTime (t : Z) : Z :=
  DayWithinYear t - monthStart (InLeapYear t) (MonthFromTime t) + 1.

(** [MakeDay(year, month, date)] and [MakeDate(day, time)] on integers. *)
Definition MakeDay (year month date : Z) : Z :=
  let ym := year + month / 12 in
  let mn := month mod 12 in
  DayFromYear ym + monthStart (leapDays ym) mn + date - 1.

Definition MakeDate (day time : Z) : Z := day * msPerDay + time.

(** The host's local time zone: the offset to add to a UTC time value to
    get local time, and the offset to subtract from a local time value to
    get UTC. *)
Record TimeZone : Type := {
  offsetOfUTC : Z -> Z;
  offsetOfLocal : Z -> Z
}.

Definition LocalTime (tz : TimeZone) (t : Z) : Z := t + offsetOfUTC tz t.
Definition UTC (tz : TimeZone) (t : Z) : Z := t - offsetOfLocal tz t.

Definition fixedZone (minutes : Z) : TimeZone :=
  {| offsetOfUTC := fun _ => minutes * 60000;
     offsetOfLocal := fun _ => minutes * 60000 |}.

Definition utcZone : TimeZone := fixedZone 0.

(** A zone without daylight-saving transitions. *)
Definition fixedOffset (tz : TimeZone) : Prop :=
  exists c, forall t, offsetOfUTC tz t = c /\ offsetOfLocal tz t = c.

(** A [Date] object holds a time value, or is invalid (time value NaN). *)
Definition Date : Type := option Z.

Definition TimeClipZ (t : Z) : Date :=
  if Z.abs t <=? maxTime then Some t else None.

(** [TimeClip]: NaN for a non-finite number or one beyond the range of
    time values, its integral part otherwise. *)
Definition TimeClip (v : number) : Date :=
  match v with
  | S754_finite _ m (Zneg k) =>
      if Zpos m <=? maxTime * 2 ^ Zpos k
      then truncate v else None
  | _ => match truncate v with
         | Some t => TimeClipZ t
         | None => None
         end
  end.

(** [new Date(value)], [getTime()], [getDate()], [setDate(dt)]. *)
Definition ofNumber (v : number) : Date := TimeClip v.

Definition getTime (d : Date) : number :=
  match d with Some t => ofZ t | None => NaN end.

Definition getDate (tz : TimeZone) (d : Date) : number :=
  match d with
  | Some t => ofZ (DateFromTime (LocalTime tz t))
  | None => NaN
  end.

Definition setDate (tz : TimeZone) (d : Date) (dt : number) : Date :=
  match d with
  | None => None
  | Some t =>
      let lt := LocalTime tz t in
      match truncate dt with
      | None => None
      | Some n =>
          TimeClipZ (UTC tz (MakeDate
                               (MakeDay (YearFromTime lt) (MonthFromTime lt) n)
                               (TimeWithinDay lt)))
      end
  end.

(** Decimal digits: [digits w n rest] puts the [w] low-order decimal
    digits of [n] in front of [rest]. *)
Definition digitChar (n : Z) : ascii := ascii_of_nat (48 + Z.to_nat n).

Fixpoint digits (w : nat) (n : Z) (rest : string) : string :=
  match w with
  | O => rest
  | S w' => digits w' (n / 10) (String (digitChar (n mod 10)) rest)
  end.

(** The date part of the ISO 8601 rendering of UTC day number [d]
    ([YYYY-MM-DD], with a sign and six digits for years outside
    0..9999). *)
Definition isoDate (d : Z) : string :=
  let t := d * msPerDay in
  let y := YearFromTime t in
  let rest :=
    String "-" (digits 2 (MonthFromTime t + 1)
                  (String "-" (digits 2 (DateFromTime t) EmptyString))) in
  if ((0 <=? y) && (y <=? 9999))%Z then digits 4 y rest
  else String (if (y <? 0)%Z then "-" else "+")%char (digits 6 (Z.abs y) rest).

(** [toISOString().split('T')[0]]; an invalid date throws a RangeError,
    modelled by [None]. *)
Definition toISODate (d : Date) : option string :=
  match d with
  | Some t => Some (isoDate (Day t))
  | None => None
  end.

(** *** The clock

    The clock is the sequence of its future readings; reading it consumes
    the first one. *)
Definition Clock : Type := nat -> Z.
Definition Eff (A : Type) : Type := Clock -> A * Clock.

Definition ret {A} (a : A) : Eff A := fun c => (a, c).
Definition bind {A B} (m : Eff A) (k : A -> Eff B) : Eff B :=
  fun c => let (a, c') := m c in k a c'.

Definition advance (c : Clock) : Clock := fun n => c (S n).

(** [Date.now()] and [new Date()]. *)
Definition now : Eff number := fun c => (ofZ (c O), advance c).
Definition newDate : Eff Date := fun c => (TimeClipZ (c O), advance c).

(** A clock stopped at [t]. *)
Definition frozen (t : Z) : Clock := fun _ => t.

End JSDate.

Import JSDate.

Notation "'let*' x ':=' m 'in' k" := (bind m (fun x => k))
  (at level 10, x name, m at level 100, k at level 200).

(** ** The card types ([types/flashcard.ts]) *)

Inductive Response : Type := know | unknown | difficult.

Record ReviewHistory : Type := {
  timestamp : number;
  response : Response;
  quality : option number
}.

Record SM2Data : Type := {
  easeFactor : number;
  interval : number;
  repetitions : number;
  nextReview : number;
  lastReviewed : number
}.

Record FlashCard : Type := {
  id : string;
  studySetId : string;
  front : string;
  back : string;
  sourceFragment : string;
  confidence : number;
  cardOrder : number;
  createdAt : string;
  sm2Data : option SM2Data;
  reviewHistory : option (list ReviewHistory)
}.

(** [SuperMemoResult] has the fields of [SM2Data]; the two interfaces are
    the same structural type, and the study modes store a result as the
    card's [sm2Data]. *)
Definition SuperMemoResult : Type := SM2Data.

Record StudyStats : Type := {
  total : nat;
  reviewed : nat;
  due : nat;
  difficultCount : nat;
  mastered : nat;
  masteryPercentage : number;
  avgEaseFactor : number
}.

(** ** The engine ([utils/superMemo.ts]) *)

(** [Math.max(0, Math.min(5, Math.round(quality)))] *)
Definition clampQuality (quality : number) : number :=
  Math_max n0 (Math_min n5 (Math_round quality)).

(** [Math.round(x * 100) / 100] *)
Definition round2 (x : number) : number := div (Math_round (mul x n100)) n100.

(** [card.sm2Data || { easeFactor: 2.5, interval: 1, repetitions: 0,
    nextReview: Date.now(), lastReviewed: Date.now() }] *)
Definition currentDataOf (card : FlashCard) : Eff SM2Data :=
  match sm2Data card with
  | Some data => ret data
  | None =>
      let* t1 := now in
      let* t2 := now in
      ret {| easeFactor := n2_5; interval := n1; repetitions := n0;
             nextReview := t1; lastReviewed := t2 |}
  end.

(** The update of [(easeFactor, interval, repetitions)] for a clamped
    quality: the two branches of the [if (quality >= 3)]. *)
Definition sm2Step (currentData : SM2Data) (quality : number)
  : number * number * number :=
  let easeFactor0 := easeFactor currentData in
  let interval0 := interval currentData in
  let repetitions0 := repetitions currentData in
  if ge quality n3 then
    let repetitions1 := add repetitions0 n1 in
    let interval1 :=
      if strictEq repetitions1 n1 then n1
      else if strictEq repetitions1 n2 then n6
      else Math_round (mul interval0 easeFactor0) in
    let easeFactor1 :=
      Math_max n1_3
        (add easeFactor0
           (sub n0_1 (mul (sub n5 quality)
                          (add n0_08 (mul (sub n5 quality) n0_02))))) in
    (easeFactor1, interval1, repetitions1)
  else
    (Math_max n1_3 (sub easeFactor0 n0_2), n1, n0).

Definition calculateNextReview (tz : TimeZone) (card : FlashCard)
    (quality : number) : Eff SuperMemoResult :=
  let* currentData := currentDataOf card in
  let quality := clampQuality quality in
  let '(easeFactor1, interval1, repetitions1) := sm2Step currentData quality in
  let* nextReviewDate := newDate in
  let nextReviewDate :=
    setDate tz nextReviewDate (add (getDate tz nextReviewDate) interval1) in
  let* t := now in
  ret {| easeFactor := round2 easeFactor1;
         interval := interval1;
         repetitions := repetitions1;
         nextReview := getTime nextReviewDate;
         lastReviewed := t |}.

(** [!card.sm2Data?.nextReview]: no scheduling data, or a falsy
    [nextReview]. *)
Definition noNextReview (card : FlashCard) : bool :=
  match sm2Data card with
  | None => true
  | Some data => negb (truthy (nextReview data))
  end.

(** [card.sm2Data.nextReview <= now]; the access is only evaluated when
    the data is there. *)
Definition nextReviewLe (card : FlashCard) (t : number) : bool :=
  match sm2Data card with
  | None => false
  | Some data => le (nextReview data) t
  end.

Definition getDueCards (cards : list FlashCard) : Eff (list FlashCard) :=
  let* t := now in
  ret (List.filter
         (fun card => if noNextReview card then true else nextReviewLe card t)
         cards).

Definition isDifficultResponse (review : ReviewHistory) : bool :=
  match response review with
  | unknown | difficult => true
  | know => false
  end.

Definition getDifficultCards (cards : list FlashCard) : Eff (list FlashCard) :=
  let* t := now in
  ret (List.filter
         (fun card =>
            let hasDifficultHistory :=
              match reviewHistory card with
              | Some history => existsb isDifficultResponse history
              | None => false
              end in
            let hasLowEaseFactor :=
              match sm2Data card with
              | Some data =>
                  truthy (easeFactor data) && lt (easeFactor data) n2
              | None => false
              end in
            let isDue := noNextReview card || nextReviewLe card t in
            (hasDifficultHistory || hasLowEaseFactor) && isDue)
         cards).


(** [card.sm2Data?.f] used as a condition. *)
Definition hasTruthy (f : SM2Data -> number) (card : FlashCard) : bool :=
  match sm2Data card with
  | Some data => truthy (f data)
  | None => false
  end.

(** [card.sm2Data!.easeFactor]; only evaluated on cards that passed the
    [cardsWithEase] filter. *)
Definition easeOf (card : FlashCard) : number :=
  match sm2Data card with
  | Some data => easeFactor data
  | None => NaN
  end.

Definition isMastered (card : FlashCard) : bool :=
  match sm2Data card with
  | Some data =>
      truthy (easeFactor data) && gt (easeFactor data) n2_5 &&
      truthy (interval data) && gt (interval data) n7
  | None => false
  end.

Definition getStudyStats (cards : list FlashCard) : Eff StudyStats :=
  let total := length cards in
  let reviewed := length (List.filter (hasTruthy lastReviewed) cards) in
  let* dueCards := getDueCards cards in
  let* difficultCards := getDifficultCards cards in
  let cardsWithEase := List.filter (hasTruthy easeFactor) cards in
  let avgEaseFactor :=
    if (0 <? length cardsWithEase)%nat
    then div (fold_left (fun sum card => add sum (easeOf card)) cardsWithEase n0)
             (ofNat (length cardsWithEase))
    else n2_5 in
  let masteredCards := length (List.filter isMastered cards) in
  ret {| total := total;
         reviewed := reviewed;
         due := length dueCards;
         difficultCount := length difficultCards;
         mastered := masteredCards;
         masteryPercentage :=
           if (0 <? total)%nat
           then Math_round (mul (div (ofNat masteredCards) (ofNat total)) n100)
           else n0;
         avgEaseFactor := round2 avgEaseFactor |}.

(** The callback of the filter in [getUpcomingReviews]; [None] when
    [toISOString] throws a RangeError on an invalid date. *)
Definition reviewedOn (dateKey : string) (card : FlashCard) : option bool :=
  match sm2Data card with
  | None => Some false
  | Some data =>
      if negb (truthy (nextReview data)) then Some false
      else
        match toISODate (ofNumber (nextReview data)) with
        | Some key => Some (String.eqb key dateKey)
        | None => None
        end
  end.

(** [cards.filter(callback).length] for a callback that may throw. *)
Fixpoint countOn (dateKey : string) (cards : list FlashCard) : option nat :=
  match cards with
  | nil => Some O
  | card :: rest =>
      match reviewedOn dateKey card with
      | None => None
      | Some b =>
          match countOn dateKey rest with
          | None => None
          | Some k => Some (if b then S k else k)
          end
      end
  end.

(** The body of the [for] loop, run for [i], [i+1], ... ([n] iterations),
    on the schedule built so far. *)
Fixpoint forecast (tz : TimeZone) (cards : list FlashCard) (today : Date)
    (n : nat) (i : Z) (schedule : gmap string nat)
  : option (gmap string nat) :=
  match n with
  | O => Some schedule
  | S n' =>
      let date := setDate tz today (add (getDate tz today) (ofZ i)) in
      match toISODate date with
      | None => None
      | Some dateKey =>
          match countOn dateKey cards with
          | None => None
          | Some k =>
              forecast tz cards today n' (i + 1) (<[dateKey := k]> schedule)
          end
      end
  end.

(** [days] is the integer number of days to forecast; the loop runs while
    [i < days]. *)
Definition getUpcomingReviews (tz : TimeZone) (cards : list FlashCard)
    (days : Z) : Eff (option (gmap string nat)) :=
  let* today := newDate in
  ret (forecast tz cards today (Z.to_nat days) 0 ∅).

(** ** The caller's update of a card

    [App.handleUpdateCard] replaces the card's [sm2Data] by the result of
    [calculateNextReview] ([{ ...card, sm2Data }]); [reviewAll] is a
    sequence of reviews of one card, each stored before the next. *)

Definition updateCard (card : FlashCard) (data : SM2Data) : FlashCard :=
  {| id := id card;
     studySetId := studySetId card;
     front := front card;
     back := back card;
     sourceFragment := sourceFragment card;
     confidence := confidence card;
     cardOrder := cardOrder card;
     createdAt := createdAt card;
     sm2Data := Some data;
     reviewHistory := reviewHistory card |}.

Fixpoint reviewAll (tz : TimeZone) (card : FlashCard) (qualities : list number)
  : Eff FlashCard :=
  match qualities with
  | nil => ret card
  | q :: rest =>
      let* r := calculateNextReview tz card q in
      reviewAll tz (updateCard card r) rest
  end.

(** ** Vocabulary of the statements *)

Definition n4 : number := Eval vm_compute in ofZ 4.

Definition isFinite (x : number) : bool :=
  match x with S754_zero _ | S754_finite _ _ _ => true | _ => false end.

(** A binary64 number that is at least 1.3. *)
Definition atLeast1_3 (x : number) : Prop := wf x = true /\ le n1_3 x = true.

(** The prior ease factor, when there is one, is a number. *)
Definition validEase (card : FlashCard) : Prop :=
  forall data, sm2Data card = Some data ->
    wf (easeFactor data) = true /\ isNaN (easeFactor data) = false.

(** The integer that a quality is normalised to: the nearest integer
    (ties upwards), clamped to [0, 5]; none for NaN. *)
Definition clampedInteger (q : number) : option Z :=
  match q with
  | S754_nan => None
  | S754_infinity s => Some (if s then 0 else 5)
  | S754_zero _ => Some 0
  | S754_finite s m e => Some (Z.max 0 (Z.min 5 (roundHalfUp s m e)))
  end.

(** The outcome of rounding a mantissa to the format exponent [E] of its
    value, where [mf] is the mantissa truncated to that exponent: zero, or
    a canonical float whose mantissa is [mf] or [mf + 1] (renormalised
    when the round-up carries), or an overflow. *)
Definition rounded (s : bool) (mf E : Z) (r : number) : Prop :=
  (mf = 0 /\ r = S754_zero s) \/
  exists (M : positive) (E' : Z),
    canonical_mantissa prec emax M E' = true /\
    ((E' = E /\ mf <= Zpos M <= mf + 1) \/
     (E' = E + 1 /\ Zpos M = 2 ^ 52 /\ mf + 1 = 2 ^ 53)) /\
    r = (if E' <=? 971 then S754_finite s M E' else S754_infinity s).

Definition c130 : Z := 130 * 2 ^ 45.
Definition c131 : Z := 131 * 2 ^ 45.

(** The due predicate in the words of the specification: no scheduling
    state, or [nextReview <= now]. *)
Definition dueBySpec (t : number) (card : FlashCard) : bool :=
  match sm2Data card with
  | None => true
  | Some data => le (nextReview data) t
  end.

(** The two parts of the difficulty condition. *)
Definition hasDifficultHistory (card : FlashCard) : Prop :=
  exists history review,
    reviewHistory card = Some history /\ In review history /\
    (response review = unknown \/ response review = difficult).

(** An ease factor below 2.0, in the words of the specification, and as
    the code tests it ([easeFactor && easeFactor < 2.0]): the ease factor
    must also be truthy, that is, not zero. *)
Definition lowEaseBySpec (card : FlashCard) : Prop :=
  exists data, sm2Data card = Some data /\ lt (easeFactor data) n2 = true.

Definition hasLowEase (card : FlashCard) : Prop :=
  exists data, sm2Data card = Some data /\
    truthy (easeFactor data) = true /\ lt (easeFactor data) n2 = true.

(** The UTC day of a card's next review, when it has one. *)
Definition scheduledDay (card : FlashCard) : option Z :=
  match sm2Data card with
  | Some data =>
      if truthy (nextReview data)
      then option_map Day (ofNumber (nextReview data))
      else None
  | None => None
  end.

Definition isScheduledOn (d : Z) (card : FlashCard) : bool :=
  match scheduledDay card with
  | Some d' => d' =? d
  | None => false
  end.

(** The number of cards whose next review falls on UTC day [d]. *)
Definition reviewsOn (d : Z) (cards : list FlashCard) : nat :=
  length (List.filter (isScheduledOn d) cards).

(** A [nextReview] that is set is a valid time value. *)
Definition validNextReview (card : FlashCard) : Prop :=
  forall data, sm2Data card = Some data ->
    truthy (nextReview data) = true -> ofNumber (nextReview data) <> None.

Definition hasState (card : FlashCard) : bool :=
  match sm2Data card with Some _ => true | None => false end.

(** The sum of the counts of a schedule. *)
Definition totalReviews (schedule : gmap string nat) : nat :=
  map_fold (fun _ k acc => (k + acc)%nat) 0%nat schedule.

(** The schedule that the forecast loop builds from day number [d0]. *)
Fixpoint buildSchedule (d0 : Z) (cards : list FlashCard) (n : nat) (i : Z)
    (schedule : gmap string nat) : gmap string nat :=
  match n with
  | O => schedule
  | S n' =>
      buildSchedule d0 cards n' (i + 1)
        (<[isoDate (d0 + i) := reviewsOn (d0 + i) cards]> schedule)
  end.

Fixpoint sumReviews (d0 : Z) (cards : list FlashCard) (n : nat) (i : Z) : nat :=
  match n with
  | O => O
  | S n' => (reviewsOn (d0 + i) cards + sumReviews d0 cards n' (i + 1))%nat
  end.

(** The days [d0 + i], ..., [d0 + i + n - 1] are representable dates. *)
Definition inRange (d0 : Z) (n : nat) (i : Z) : Prop :=
  forall j, i <= j < i + Z.of_nat n -> -100000000 <= d0 + j <= 100000000.

(** None of these days has an entry yet. *)
Definition unscheduled (d0 : Z) (n : nat) (i : Z)
    (schedule : gmap string nat) : Prop :=
  forall j, i <= j < i + Z.of_nat n -> schedule !! isoDate (d0 + j) = None.

(** ** Sample data *)

Definition sampleCard (name : string) (data : option SM2Data)
    (history : option (list ReviewHistory)) : FlashCard :=
  {| id := name; studySetId := "set1"; front := "front"; back := "back";
     sourceFragment := ""; confidence := ofZ 9; cardOrder := n0;
     createdAt := "2024-03-10T00:30:00.000Z";
     sm2Data := data; reviewHistory := history |}.

(** 2024-03-10T00:30:00Z *)
Definition T0 : Z := 1710030600000.

Definition sampleData (ease next : number) : SM2Data :=
  {| easeFactor := ease; interval := n6; repetitions := n2;
     nextReview := next; lastReviewed := ofZ (T0 - msPerDay) |}.

Definition newCard : FlashCard := sampleCard "new" None None.
Definition otherNewCard : FlashCard :=
  sampleCard "other" None
    (Some ({| timestamp := ofZ T0; response := know; quality := None |} :: nil)).
Definition dueCard : FlashCard :=
  sampleCard "due" (Some (sampleData n2_5 (ofZ T0))) None.
Definition laterCard : FlashCard :=
  sampleCard "later" (Some (sampleData (decimal 18 10) (ofZ (T0 + msPerDay)))) None.
Definition hardCard : FlashCard :=
  sampleCard "hard" (Some (sampleData (decimal 18 10) (ofZ (T0 - msPerDay)))) None.
Definition invalidDateCard : FlashCard :=
  sampleCard "invalid" (Some (sampleData n2_5 NaN)) None.
Definition nanEaseCard : FlashCard :=
  sampleCard "nan" (Some (sampleData NaN (ofZ T0))) None.
Definition zeroEaseCard : FlashCard :=
  sampleCard "zero" (Some (sampleData n0 (ofZ T0))) None.
Definition infiniteDateCard : FlashCard :=
  sampleCard "inf" (Some (sampleData n2_5 Infinity)) None.

(** A clock that shows [T0] for four readings and then jumps a day. *)
Definition jumpingClock : Clock :=
  fun n => if (n <? 4)%nat then T0 else T0 + msPerDay.

(** New York around the start of daylight saving time on 10 March 2024
    (07:00 UTC, when local clocks go from 02:00 to 03:00).  A local time
    in the skipped hour is read with the offset before the transition. *)
Definition newYork2024 : TimeZone :=
  {| offsetOfUTC := fun t => if t <? 1710054000000 then -18000000 else -14400000;
     offsetOfLocal := fun t => if t <? 1710039600000 then -18000000 else -14400000 |}.

(** The number of clock readings that [calculateNextReview] makes before
    [new Date()]: the two [Date.now()] of the defaults, for a card
    without scheduling data. *)
Definition readsBefore (card : FlashCard) : nat :=
  match sm2Data card with Some _ => 0%nat | None => 2%nat end.

(** A binary64 number that is at least 1. *)
Definition atLeast1 (x : number) : Prop := wf x = true /\ le n1 x = true.

(** The scheduling data of the card, if any, has an ease factor of at
    least 1.3 and an interval of at least one day. *)
Definition engineState (card : FlashCard) : Prop :=
  forall data, sm2Data card = Some data ->
    atLeast1_3 (easeFactor data) /\ atLeast1 (interval data).

(** [App.handleUpdateCard]:
    [prev.map(card => card.id === cardId ? { ...card, sm2Data } : card)] *)
Definition handleUpdateCard (cardId : string) (data : SM2Data)
    (prev : list FlashCard) : list FlashCard :=
  List.map (fun card => if String.eqb (id card) cardId
                        then updateCard card data else card) prev.

(** The due test of the selectors:
    [!card.sm2Data?.nextReview || card.sm2Data.nextReview <= now] *)
Definition isDue (now : number) (card : FlashCard) : bool :=
  noNextReview card || nextReviewLe card now.

(** The difficulty test of [getDifficultCards]:
    [hasDifficultHistory || hasLowEaseFactor]. *)
Definition isDifficult (card : FlashCard) : bool :=
  match reviewHistory card with
  | Some history => existsb isDifficultResponse history
  | None => false
  end
  || match sm2Data card with
     | Some data => truthy (easeFactor data) && lt (easeFactor data) n2
     | None => false
     end.

(** ** The repeat mode ([components/StudyModes/RepeatMode.tsx]) *)

Definition number_eq_dec (x y : number) : {x = y} + {x <> y}.
Proof.
  decide equality; first [apply Bool.bool_dec | apply Z.eq_dec | apply Pos.eq_dec].
Defined.

Definition Response_eq_dec (x y : Response) : {x = y} + {x <> y}.
Proof. decide equality. Defined.

Definition ReviewHistory_eq_dec (x y : ReviewHistory) : {x = y} + {x <> y}.
Proof.
  decide equality;
    first [apply number_eq_dec | apply Response_eq_dec
          | decide equality; apply number_eq_dec].
Defined.

Definition SM2Data_eq_dec (x y : SM2Data) : {x = y} + {x <> y}.
Proof. decide equality; apply number_eq_dec. Defined.

Definition FlashCard_eq_dec (x y : FlashCard) : {x = y} + {x <> y}.
Proof.
  decide equality;
    first [apply String.string_dec | apply number_eq_dec
          | decide equality; apply SM2Data_eq_dec
          | decide equality; apply List.list_eq_dec, ReviewHistory_eq_dec].
Defined.

(** Membership in a [Set] of cards.  A [Set] compares objects by
    identity; the cards of a deck are told apart by their value here,
    which is the same thing when no two cards of the deck are equal in
    every field. *)
Definition has (set : list FlashCard) (card : FlashCard) : bool :=
  if in_dec FlashCard_eq_dec card set then true else false.

(** [[...new Set(xs)]]: the elements of [xs], each once, in the order in
    which they are first met. *)
Definition newSet (xs : list FlashCard) : list FlashCard :=
  fold_left (fun set x => if has set x then set else set ++ x :: nil) xs nil.

(** The cards of a session, computed when the mode is entered:
    [[...new Set([...difficult, ...due])]]. *)
Definition reviewCards (cards : list FlashCard) : Eff (list FlashCard) :=
  let* difficult := getDifficultCards cards in
  let* due := getDueCards cards in
  ret (newSet (difficult ++ due)).

(** ** The dashboard ([components/Dashboard/Dashboard.tsx]) *)

Module Dashboard.

(** The object [{ ...studyStats, dueToday, difficultCount,
    hasReviewedCards }]; the spread statistics are kept as one field. *)
Record Stats : Type := {
  studyStats : StudyStats;
  dueToday : nat;
  difficultCount : nat;
  hasReviewedCards : bool
}.

(** The body of the [useMemo] that computes [stats]. *)
Definition stats (cards : list FlashCard) : Eff Stats :=
  let* studyStats := getStudyStats cards in
  let* dueCards := getDueCards cards in
  let* difficultCards := getDifficultCards cards in
  ret {| studyStats := studyStats;
         dueToday := length dueCards;
         difficultCount := length difficultCards;
         hasReviewedCards := existsb (hasTruthy lastReviewed) cards |}.

Inductive Icon : Type := Eye | Target | RotateCcw.

Record StudyMode : Type := {
  id : string;
  title : string;
  description : string;
  icon : Icon;
  color : string;
  available : bool;
  count : nat;
  route : string
}.

Definition studyModes (cards : list FlashCard) (stats : Stats) : list StudyMode :=
  {| id := "review";
     title := "Просмотр";
     description := "Последовательное изучение карточек";
     icon := Eye;
     color := "bg-blue-500";
     available := (0 <? length cards)%nat;
     count := length cards;
     route := "/study/review" |}
  :: {| id := "exam";
        title := "Экзамен";
        description := "Проверка знаний в случайном порядке";
        icon := Target;
        color := "bg-purple-500";
        available := hasReviewedCards stats;
        count := length cards;
        route := "/study/exam" |}
  :: {| id := "repeat";
        title := "Повторение";
        description := "Умное повторение сложных карточек";
        icon := RotateCcw;
        color := "bg-green-500";
        available := (0 <? difficultCount stats)%nat || (0 <? dueToday stats)%nat;
        count := Nat.max (difficultCount stats) (dueToday stats);
        route := "/study/repeat" |}
  :: nil.

End Dashboard.

(** ** The validation of extracted cards ([backend/api/strict-extract.ts]) *)

Module StrictExtract.

(** A JavaScript string is the sequence of its UTF-16 code units; its
    [length] is the length of the sequence. *)
Definition JSString : Type := list N.

Definition lit (s : string) : JSString :=
  List.map N_of_ascii (list_ascii_of_string s).

Definition JSString_eqb (s1 s2 : JSString) : bool :=
  if List.list_eq_dec N.eq_dec s1 s2 then true else false.

(** The values that [JSON.parse] produces, and [undefined].  The
    properties of an object are listed in the order in which they were
    defined; a later definition of a name replaces an earlier one. *)
#[warnings="-register-all"]
Inductive JSValue : Type :=
| JUndefined
| JNull
| JBoolean (b : bool)
| JNumber (n : number)
| JString (s : JSString)
| JArray (items : list JSValue)
| JObject (props : list (JSString * JSValue)).

(** [object.name] on an object without accessors. *)
Definition getProp (name : JSString) (props : list (JSString * JSValue))
  : JSValue :=
  fold_left (fun found prop =>
               if JSString_eqb (fst prop) name then snd prop else found)
    props JUndefined.

(** [s.split(' ')]: the pieces of [s] between the occurrences of the
    separator. *)
Fixpoint split (sep : N) (s : JSString) : list JSString :=
  match s with
  | nil => nil :: nil
  | c :: rest =>
      if (c =? sep)%N then nil :: split sep rest
      else match split sep rest with
           | piece :: pieces => (c :: piece) :: pieces
           | nil => (c :: nil) :: nil
           end
  end.

Definition space : N := 32.

(** The test on the three text fields. *)
Definition frontOk (v : JSValue) : bool :=
  match v with
  | JString front =>
      (0 <? length front)%nat && (length (split space front) <=? 10)%nat
  | _ => false
  end.

Definition backOk (v : JSValue) : bool :=
  match v with
  | JString back => (0 <? length back)%nat && (length back <=? 200)%nat
  | _ => false
  end.

Definition fragmentOk (v : JSValue) : bool :=
  match v with
  | JString fragment => (0 <? length fragment)%nat
  | _ => false
  end.

Definition confidenceOk (v : JSValue) : bool :=
  match v with
  | JNumber confidence => ge confidence n1 && le confidence (ofZ 10)
  | _ => false
  end.

(** The callback of the filter.  [typeof card === 'object'] holds for
    objects, arrays and [null]; reading [card.front] of [null] throws a
    TypeError ([None]), and an array has none of the four properties. *)
Definition isValidCard (card : JSValue) : option bool :=
  match card with
  | JNull => None
  | JObject props =>
      Some (frontOk (getProp (lit "front") props)
            && backOk (getProp (lit "back") props)
            && fragmentOk (getProp (lit "source_fragment") props)
            && confidenceOk (getProp (lit "confidence") props))
  | _ => Some false
  end.

(** [cards.filter(callback)] for a callback that may throw. *)
Fixpoint filterCards (cards : list JSValue) : option (list JSValue) :=
  match cards with
  | nil => Some nil
  | card :: rest =>
      match isValidCard card with
      | None => None
      | Some keep =>
          match filterCards rest with
          | None => None
          | Some kept => Some (if keep then card :: kept else kept)
          end
      end
  end.

Definition validateCards (cards : JSValue) : option (list JSValue) :=
  match cards with
  | JArray items => option_map (firstn 100) (filterCards items)
  | _ => Some nil
  end.

(** The shape of an [ExtractedFlashCard] that passes the validation: a
    term of at most ten words, a definition of at most 200 code units, a
    source fragment, and a confidence between 1 and 10. *)
Definition ExtractedFlashCard (card : JSValue) : Prop :=
  exists props front back fragment confidence,
    card = JObject props /\
    getProp (lit "front") props = JString front /\
    (1 <= length front)%nat /\ (count_occ N.eq_dec front space <= 9)%nat /\
    getProp (lit "back") props = JString back /\
    (1 <= length back <= 200)%nat /\
    getProp (lit "source_fragment") props = JString fragment /\
    (1 <= length fragment)%nat /\
    getProp (lit "confidence") props = JNumber confidence /\
    le n1 confidence = true /\ le confidence (ofZ 10) = true.

(** The cards that the filter keeps. *)
Definition keeps (card : JSValue) : bool :=
  match isValidCard card with
  | Some keep => keep
  | None => false
  end.

End StrictExtract.

(** ** The review mode ([ReviewMode], in [StudyModes/RepeatMode.tsx]) *)

Module ReviewMode.

Record ProgressEntry : Type := {
  response : Response;
  timestamp : number
}.

(** [ProgressState]: an object used as a map from card ids to the last
    answer given for the card. *)
Definition ProgressState : Type := gmap string ProgressEntry.

(** The update of the progress in [handleCardResponse]:
    [prev => ({ ...prev, [cardId]: { response, timestamp: Date.now() } })] *)
Definition recordResponse (cardId : string) (answer : Response)
    (prev : ProgressState) : Eff ProgressState :=
  let* t := now in
  ret (<[cardId := {| response := answer; timestamp := t |}]> prev).

Definition Response_eqb (r1 r2 : Response) : bool :=
  match r1, r2 with
  | know, know | unknown, unknown | difficult, difficult => true
  | _, _ => false
  end.

(** [responses.filter(r => r.response === answer).length] *)
Definition countOf (answer : Response) (responses : list ProgressEntry) : nat :=
  length (List.filter (fun r => Response_eqb (response r) answer) responses).

Definition countKnow : list ProgressEntry -> nat := countOf know.
Definition countDifficult : list ProgressEntry -> nat := countOf difficult.
Definition countUnknown : list ProgressEntry -> nat := countOf unknown.

Record ProgressStats : Type := {
  total : nat;
  known : nat;
  difficult : nat;
  unknown : nat
}.

(** [Object.values(progress)] and the four counts. *)
Definition getProgressStats (progress : ProgressState) : ProgressStats :=
  let responses := List.map snd (map_to_list progress) in
  {| total := length responses;
     known := countKnow responses;
     difficult := countDifficult responses;
     unknown := countUnknown responses |}.

(** [stats.total > 0 ? Math.round((stats.known / stats.total) * 100) : 0] *)
Definition accuracy (stats : ProgressStats) : number :=
  if (0 <? total stats)%nat
  then Math_round (mul (div (ofNat (known stats)) (ofNat (total stats))) n100)
  else n0.

End ReviewMode.

(** The count that the statistics give for an answer. *)
Definition statOf (answer : Response) (stats : ReviewMode.ProgressStats) : nat :=
  match answer with
  | know => ReviewMode.known stats
  | difficult => ReviewMode.difficult stats
  | unknown => ReviewMode.unknown stats
  end.

Definition isAnswer (answer other : Response) : nat :=
  if ReviewMode.Response_eqb answer other then 1%nat else 0%nat.

(** ** The exam mode ([components/StudyModes/ExamMode.tsx]) *)

(** [Math.floor(x)]: the largest integral Number that is not above [x];
    NaN, the infinities, the zeros and integral values are returned
    unchanged. *)
Definition Math_floor (x : number) : number :=
  match x with
  | S754_finite s m (Zneg k) =>
      match cond_Zopp s (Zpos m) / 2 ^ Zpos k with
      | Z0 => S754_zero s
      | n => ofZ n
      end
  | _ => x
  end.

Module ExamMode.

Record ExamState : Type := {
  correct : number;
  incorrect : number;
  streak : number;
  maxStreak : number;
  score : number;
  startTime : number;
  cardStartTime : number
}.

(** The state of a new exam, at the clock reading [t] (the component
    reads the clock twice; both readings are given). *)
Definition initialState (startTime cardStartTime : number) : ExamState :=
  {| correct := n0; incorrect := n0; streak := n0; maxStreak := n0; score := n0;
     startTime := startTime; cardStartTime := cardStartTime |}.

(** The score of an answer, computed by [handleExamAnswer] from the state
    of the current rendering: 10 points, the current streak, and up to 5
    points for an answer within five seconds. *)
Definition cardScore (examState : ExamState) (isCorrect : bool) : Eff number :=
  let* t := now in
  let timeSpent := sub t (cardStartTime examState) in
  let baseScore := if isCorrect then ofZ 10 else n0 in
  let streakBonus := if isCorrect then streak examState else n0 in
  let timeBonus :=
    if isCorrect && lt timeSpent (ofZ 5000)
    then Math_max n0 (sub n5 (Math_floor (div timeSpent (ofZ 1000))))
    else n0 in
  ret (add (add baseScore streakBonus) timeBonus).

(** The state update of [handleExamAnswer]: the function passed to
    [setExamState]. *)
Definition updateState (isCorrect : bool) (cardScore : number) (prev : ExamState)
  : Eff ExamState :=
  let newStreak := if isCorrect then add (streak prev) n1 else n0 in
  let newMaxStreak := Math_max (maxStreak prev) newStreak in
  let* t := now in
  ret {| correct := add (correct prev) (if isCorrect then n1 else n0);
         incorrect := add (incorrect prev) (if isCorrect then n0 else n1);
         streak := newStreak;
         maxStreak := newMaxStreak;
         score := add (score prev) cardScore;
         startTime := startTime prev;
         cardStartTime := t |}.

(** One answer: the score is computed from the state of the current
    rendering, and the state is updated before the next answer is
    handled. *)
Definition handleExamAnswer (isCorrect : bool) (examState : ExamState)
  : Eff ExamState :=
  let* cardScore := cardScore examState isCorrect in
  updateState isCorrect cardScore examState.

Fixpoint answerAll (answers : list bool) (examState : ExamState) : Eff ExamState :=
  match answers with
  | nil => ret examState
  | isCorrect :: rest =>
      let* next := handleExamAnswer isCorrect examState in
      answerAll rest next
  end.

Module Results.

Record ExamResults : Type := {
  totalQuestions : number;
  correctAnswers : number;
  incorrectAnswers : number;
  score : number;
  accuracy : number;
  streak : number;
  maxStreak : number;
  timeSpent : number;
  timePerCard : number
}.

End Results.

(** [showExamResults(lastCorrect, lastScore)]: the results that are handed
    to [onComplete], computed from the state of the current rendering and
    the last answer; [cards] is [shuffledCards.length]. *)
Definition showExamResults (examState : ExamState) (cards : nat)
    (lastCorrect : bool) (lastScore : number) : Eff Results.ExamResults :=
  let* t := now in
  let totalTime := sub t (startTime examState) in
  let finalCorrect := add (correct examState) (if lastCorrect then n1 else n0) in
  let finalIncorrect := add (incorrect examState) (if lastCorrect then n0 else n1) in
  let finalScore := add (score examState) lastScore in
  ret {| Results.totalQuestions := ofNat cards;
         Results.correctAnswers := finalCorrect;
         Results.incorrectAnswers := finalIncorrect;
         Results.score := finalScore;
         Results.accuracy :=
           Math_round (mul (div finalCorrect (ofNat cards)) n100);
         Results.streak := streak examState;
         Results.maxStreak := maxStreak examState;
         Results.timeSpent := totalTime;
         Results.timePerCard :=
           Math_round (div (div totalTime (ofNat cards)) (ofZ 1000)) |}.

End ExamMode.

(** The length of the run of correct answers at the end of a list of
    answers (the last answer first), and of its longest run. *)
Fixpoint currentRun (answers : list bool) : Z :=
  match answers with
  | true :: rest => 1 + currentRun rest
  | _ => 0
  end.

Fixpoint longestRun (answers : list bool) : Z :=
  match answers with
  | nil => 0
  | _ :: rest => Z.max (longestRun rest) (currentRun answers)
  end.

Definition countTrue (answers : list bool) : Z :=
  Z.of_nat (length (List.filter (fun b => b) answers)).

Definition countFalse (answers : list bool) : Z :=
  Z.of_nat (length (List.filter negb answers)).

(** An exam after four answers, the last two of them correct; the current
    card was shown a minute after the start. *)
Definition sampleExamState : ExamMode.ExamState :=
  {| ExamMode.correct := n3; ExamMode.incorrect := n1; ExamMode.streak := n2;
     ExamMode.maxStreak := n2; ExamMode.score := ofZ 40;
     ExamMode.startTime := ofZ T0; ExamMode.cardStartTime := ofZ (T0 + 60000) |}.


(** * Properties *)

(** ** Binary64 arithmetic: digits, shifts and rounding *)

Lemma digits2_pos_bounds (p : positive) :
  2 ^ (Zpos (digits2_pos p) - 1) <= Zpos p < 2 ^ Zpos (digits2_pos p).
Proof.
  induction p as [p IH | p IH |]; simpl digits2_pos.
  - rewrite Pos2Z.inj_succ.
    replace (Z.succ (Zpos (digits2_pos p)) - 1) with (Zpos (digits2_pos p)) by lia.
    rewrite Z.pow_succ_r by lia.
    assert (2 ^ Zpos (digits2_pos p) = 2 * 2 ^ (Zpos (digits2_pos p) - 1)) as E.
    { rewrite <- Z.pow_succ_r by lia. f_equal. lia. }
    lia.
  - rewrite Pos2Z.inj_succ.
    replace (Z.succ (Zpos (digits2_pos p)) - 1) with (Zpos (digits2_pos p)) by lia.
    rewrite Z.pow_succ_r by lia.
    assert (2 ^ Zpos (digits2_pos p) = 2 * 2 ^ (Zpos (digits2_pos p) - 1)) as E.
    { rewrite <- Z.pow_succ_r by lia. f_equal. lia. }
    lia.
  - simpl. lia.
Qed.

Lemma digits2_pos_unique (p : positive) (k : Z) :
  2 ^ (k - 1) <= Zpos p < 2 ^ k -> Zpos (digits2_pos p) = k.
Proof.
  intros [Hlo Hhi].
  pose proof (digits2_pos_bounds p) as [Dlo Dhi].
  set (d := Zpos (digits2_pos p)) in *.
  assert (0 < k).
  { destruct (Z_lt_le_dec 0 k) as [|Hk]; [assumption|].
    destruct k; [simpl in Hhi; lia | lia |].
    rewrite Z.pow_neg_r in Hhi by lia. lia. }
  destruct (Z_lt_le_dec d k) as [Hlt|Hge].
  - assert (2 ^ d <= 2 ^ (k - 1)) by (apply Z.pow_le_mono_r; lia). lia.
  - destruct (Z_lt_le_dec k d) as [Hlt|Hle]; [|lia].
    assert (2 ^ k <= 2 ^ (d - 1)) by (apply Z.pow_le_mono_r; lia). lia.
Qed.

Lemma pos_iter_xO (m d : positive) :
  Zpos (Pos.iter xO m d) = Zpos m * 2 ^ Zpos d.
Proof.
  revert m. induction d using Pos.peano_ind; intros m.
  - simpl. lia.
  - rewrite Pos.iter_succ, Pos2Z.inj_xO, IHd, Pos2Z.inj_succ, Z.pow_succ_r by lia.
    lia.
Qed.

Lemma shr_1_m (mrs : shr_record) :
  0 <= shr_m mrs -> shr_m (shr_1 mrs) = shr_m mrs / 2.
Proof.
  destruct mrs as [m r s]. simpl. intros Hm.
  destruct m as [|p|p]; [reflexivity| |lia].
  destruct p as [p|p|]; simpl shr_m.
  - rewrite Pos2Z.inj_xI. apply Z.div_unique with 1; lia.
  - rewrite Pos2Z.inj_xO. apply Z.div_unique with 0; lia.
  - reflexivity.
Qed.

Lemma pow2_xI (p : positive) : 2 ^ Zpos p~1 = 2 * (2 ^ Zpos p * 2 ^ Zpos p).
Proof.
  replace (Zpos p~1) with (1 + (Zpos p + Zpos p)) by lia.
  rewrite !Z.pow_add_r by lia. reflexivity.
Qed.

Lemma pow2_xO (p : positive) : 2 ^ Zpos p~0 = 2 ^ Zpos p * 2 ^ Zpos p.
Proof.
  replace (Zpos p~0) with (Zpos p + Zpos p) by lia.
  rewrite Z.pow_add_r by lia. reflexivity.
Qed.

Lemma iter_shr_1_m (p : positive) (mrs : shr_record) :
  0 <= shr_m mrs ->
  shr_m (SpecFloat.iter_pos shr_1 p mrs) = shr_m mrs / 2 ^ Zpos p.
Proof.
  revert mrs. induction p as [p IH | p IH |]; intros mrs Hm; cbn [SpecFloat.iter_pos].
  - assert (0 <= shr_m (shr_1 mrs)) as H1.
    { rewrite shr_1_m by assumption. apply Z.div_pos; lia. }
    assert (0 <= shr_m (SpecFloat.iter_pos shr_1 p (shr_1 mrs))) as H2.
    { rewrite IH by assumption. apply Z.div_pos; lia. }
    rewrite IH, IH, shr_1_m by assumption.
    rewrite !Z.div_div by lia.
    rewrite pow2_xI. f_equal; lia.
  - assert (0 <= shr_m (SpecFloat.iter_pos shr_1 p mrs)) as H2.
    { rewrite IH by assumption. apply Z.div_pos; lia. }
    rewrite IH, IH by assumption.
    rewrite !Z.div_div by lia.
    rewrite pow2_xO. reflexivity.
  - rewrite shr_1_m by assumption. reflexivity.
Qed.

(** Shifting out zero bits is exact. *)
Lemma shr_1_double (q : Z) :
  0 <= q -> shr_1 (Build_shr_record (2 * q) false false) = Build_shr_record q false false.
Proof. destruct q as [|r|r]; [reflexivity|reflexivity|lia]. Qed.

Lemma iter_shr_1_exact (p : positive) (q : Z) :
  0 <= q ->
  SpecFloat.iter_pos shr_1 p (Build_shr_record (q * 2 ^ Zpos p) false false)
  = Build_shr_record q false false.
Proof.
  revert q. induction p as [p IH | p IH |]; intros q Hq; cbn [SpecFloat.iter_pos].
  - replace (q * 2 ^ Zpos p~1)
      with (2 * (q * 2 ^ Zpos p * 2 ^ Zpos p)) by (rewrite pow2_xI; lia).
    assert (0 <= q * 2 ^ Zpos p) as H by (apply Z.mul_nonneg_nonneg; lia).
    rewrite shr_1_double by (apply Z.mul_nonneg_nonneg; lia).
    rewrite IH by assumption. apply IH. assumption.
  - rewrite pow2_xO, Z.mul_assoc.
    rewrite IH by (apply Z.mul_nonneg_nonneg; lia).
    apply IH. assumption.
  - change (2 ^ 1) with 2. rewrite Z.mul_comm. apply shr_1_double. assumption.
Qed.

Lemma rne_bounds (mx : Z) (l : location) :
  mx <= round_nearest_even mx l <= mx + 1.
Proof.
  destruct l as [|[| |]]; simpl; try lia.
  destruct (Z.even mx); lia.
Qed.

Lemma loc_of_record_of_loc (m : Z) (l : location) :
  loc_of_shr_record (shr_record_of_loc m l) = l.
Proof. destruct l as [|[| |]]; reflexivity. Qed.

Lemma shr_m_record_of_loc (m : Z) (l : location) :
  shr_m (shr_record_of_loc m l) = m.
Proof. destruct l as [|[| |]]; reflexivity. Qed.

Lemma fexp_eq (e : Z) : fexp prec emax e = Z.max (e - 53) (-1074).
Proof. reflexivity. Qed.

(** The first shift of [binary_round_aux]. *)
Lemma shr_fst_m (mrs : shr_record) (e n : Z) :
  0 <= shr_m mrs -> 0 <= n ->
  shr_m (fst (shr mrs e n)) = shr_m mrs / 2 ^ n /\ snd (shr mrs e n) = e + n.
Proof.
  intros Hm Hn. destruct n as [|p|p]; simpl; [|split; [apply iter_shr_1_m; assumption | reflexivity] | lia].
  rewrite Z.div_1_r. split; [reflexivity | lia].
Qed.

Lemma shr_nonpos (mrs : shr_record) (e n : Z) : n <= 0 -> shr mrs e n = (mrs, e).
Proof. destruct n; [reflexivity | lia | reflexivity]. Qed.

Lemma binary_round_aux_shape (s : bool) (m : positive) (e : Z) (l : location) :
  let E := fexp prec emax (Zpos (digits2_pos m) + e) in
  e <= E ->
  rounded s (Zpos m / 2 ^ (E - e)) E (binary_round_aux prec emax s (Zpos m) e l).
Proof.
  intros E HE.
  pose proof (digits2_pos_bounds m) as [Dlo Dhi].
  set (d := Zpos (digits2_pos m)) in *.
  assert (EE : E = Z.max (d + e - 53) (-1074)) by reflexivity.
  set (n := E - e). assert (Hn : 0 <= n) by (unfold n; lia).
  set (mf := Zpos m / 2 ^ n).
  assert (P2n : 0 < 2 ^ n) by (apply Z.pow_pos_nonneg; lia).
  assert (Hmf0 : 0 <= mf) by (apply Z.div_pos; lia).
  assert (Hmul : mf * 2 ^ n <= Zpos m < (mf + 1) * 2 ^ n).
  { unfold mf. pose proof (Z.div_mod (Zpos m) (2 ^ n)) as Q.
    pose proof (Z.mod_pos_bound (Zpos m) (2 ^ n) P2n). lia. }
  assert (Hmf53 : mf < 2 ^ 53).
  { apply Z.div_lt_upper_bound; [assumption|].
    rewrite <- Z.pow_add_r by lia.
    assert (2 ^ d <= 2 ^ (n + 53)) by (apply Z.pow_le_mono_r; lia). lia. }
  assert (Hnormal : -1074 < E -> 2 ^ 52 <= mf).
  { intros HEn. assert (n = d - 53) as Hnd by (unfold n; lia).
    apply Z.div_le_lower_bound; [assumption|].
    rewrite <- Z.pow_add_r by lia.
    replace (n + 52) with (d - 1) by lia. assumption. }
  unfold binary_round_aux, shr_fexp. cbn [Zdigits2]. fold d. fold E. fold n.
  pose proof (shr_fst_m (shr_record_of_loc (Zpos m) l) e n) as Hs.
  rewrite shr_m_record_of_loc in Hs. specialize (Hs ltac:(lia) Hn).
  fold mf in Hs.
  destruct (shr (shr_record_of_loc (Zpos m) l) e n) as [mrs' e'].
  simpl in Hs. destruct Hs as [Hm' He'].
  assert (e' = E) as -> by (unfold n in He'; lia).
  assert (Hr : mf <= round_nearest_even (shr_m mrs') (loc_of_shr_record mrs') <= mf + 1)
    by (rewrite <- Hm'; apply rne_bounds).
  destruct (round_nearest_even (shr_m mrs') (loc_of_shr_record mrs')) as [|M1|M1];
    [ | | lia].
  - (* the mantissa rounds to zero *)
    left. split; [lia|].
    rewrite shr_nonpos by (simpl Zdigits2; rewrite fexp_eq; lia).
    reflexivity.
  - right.
    pose proof (digits2_pos_bounds M1) as [D1lo D1hi].
    cbn [Zdigits2].
    destruct (Z.eq_dec (Zpos M1) (2 ^ 53)) as [Hc|Hc].
    + (* the round-up carried into a 54th bit *)
      assert (M1 = 9007199254740992%positive) as -> by (change (2 ^ 53) with 9007199254740992 in Hc; congruence).
      exists 4503599627370496%positive, (E + 1).
      change (Zpos (digits2_pos 9007199254740992)) with 54.
      rewrite fexp_eq.
      replace (Z.max (54 + E - 53) (-1074) - E) with 1 by lia.
      split; [|split].
      * unfold canonical_mantissa. rewrite fexp_eq.
        change (Zpos (digits2_pos 4503599627370496)) with 53.
        apply Z.eqb_eq. lia.
      * right. split; [reflexivity | split; [reflexivity|]].
        change (2 ^ 53) with 9007199254740992 in *. lia.
      * simpl. replace (E + 1 <=? 1024 - 53) with (E + 1 <=? 971) by reflexivity.
        reflexivity.
    + assert (Hlt : Zpos M1 < 2 ^ 53) by lia.
      set (d1 := Zpos (digits2_pos M1)) in *.
      assert (Hd1 : d1 <= 53).
      { destruct (Z_le_gt_dec d1 53) as [|Hgt]; [assumption|].
        assert (2 ^ 53 <= 2 ^ (d1 - 1)) by (apply Z.pow_le_mono_r; lia). lia. }
      assert (Hd1' : -1074 < E -> d1 = 53).
      { intros HEn. specialize (Hnormal HEn).
        destruct (Z_le_gt_dec 53 d1) as [|Hgt]; [lia|].
        assert (2 ^ d1 <= 2 ^ 52) by (apply Z.pow_le_mono_r; unfold d1; lia). lia. }
      assert (Hcan : fexp prec emax (d1 + E) = E) by (rewrite fexp_eq; lia).
      exists M1, E.
      rewrite Hcan, Z.sub_diag. simpl.
      split; [|split].
      * unfold canonical_mantissa. fold d1. rewrite Hcan. apply Z.eqb_refl.
      * left. split; [reflexivity | lia].
      * replace (E <=? 1024 - 53) with (E <=? 971) by reflexivity. reflexivity.
Qed.

Lemma rounded_wf s mf E r : rounded s mf E r -> wf r = true /\ isNaN r = false.
Proof.
  intros [[_ ->] | (M & E' & Hc & _ & ->)]; [split; reflexivity|].
  destruct (E' <=? 971) eqn:HE; [|split; reflexivity].
  split; [|reflexivity].
  unfold wf, valid_binary, bounded. rewrite Hc. exact HE.
Qed.

(** A canonical mantissa is rounded to itself. *)
Lemma binary_round_aux_canonical (s : bool) (m : positive) (e : Z) :
  canonical_mantissa prec emax m e = true ->
  binary_round_aux prec emax s (Zpos m) e loc_Exact
  = if e <=? 971 then S754_finite s m e else S754_infinity s.
Proof.
  intros Hc. unfold canonical_mantissa in Hc. apply Z.eqb_eq in Hc.
  unfold binary_round_aux, shr_fexp. cbn [Zdigits2].
  rewrite Hc, Z.sub_diag. simpl. rewrite Hc, Z.sub_diag. simpl.
  reflexivity.
Qed.

Lemma Zdigits2_unique (z k : Z) :
  2 ^ (k - 1) <= z < 2 ^ k -> 0 < z -> Zdigits2 z = k.
Proof.
  intros H Hz. destruct z as [|p|p]; [lia| |lia].
  simpl. apply digits2_pos_unique. assumption.
Qed.

(** A canonical mantissa followed by [n] zero bits is rounded to that
    mantissa: no bit is lost. *)
Lemma binary_round_aux_shifted (s : bool) (q : positive) (e n : Z) :
  0 <= n ->
  canonical_mantissa prec emax q (e + n) = true ->
  binary_round_aux prec emax s (Zpos q * 2 ^ n) e loc_Exact
  = if e + n <=? 971 then S754_finite s q (e + n) else S754_infinity s.
Proof.
  intros Hn Hc.
  destruct n as [|p|p]; [|clear Hn|lia].
  - rewrite Z.mul_1_r, Z.add_0_r in *. apply binary_round_aux_canonical. assumption.
  - pose proof Hc as Hc'. unfold canonical_mantissa in Hc'. apply Z.eqb_eq in Hc'.
    pose proof (digits2_pos_bounds q) as [Dlo Dhi].
    set (d := Zpos (digits2_pos q)) in *.
    assert (P : 0 < 2 ^ Zpos p) by (apply Z.pow_pos_nonneg; lia).
    assert (Hd : Zdigits2 (Zpos q * 2 ^ Zpos p) = d + Zpos p).
    { apply Zdigits2_unique; [|lia].
      replace (d + Zpos p - 1) with ((d - 1) + Zpos p) by lia.
      rewrite !Z.pow_add_r by lia. nia. }
    unfold binary_round_aux, shr_fexp. rewrite Hd.
    replace (d + Zpos p + e) with (d + (e + Zpos p)) by lia.
    rewrite Hc'. replace (e + Zpos p - e) with (Zpos p) by lia.
    cbn [shr_record_of_loc shr]. rewrite iter_shr_1_exact by lia.
    cbn [shr_m loc_of_shr_record round_nearest_even Zdigits2]. fold d.
    rewrite Hc', Z.sub_diag. simpl. reflexivity.
Qed.

(** [binary_round] puts the mantissa at the format exponent first. *)
Lemma shl_align_spec (m : positive) (e E : Z) :
  let '(mz, ez) := shl_align m e E in
  ez = Z.min e E /\ Zpos mz = Zpos m * 2 ^ (e - ez).
Proof.
  unfold shl_align. destruct (E - e) as [|p|p] eqn:Hp.
  - split; [lia|]. rewrite Z.sub_diag. simpl. lia.
  - split; [lia|]. rewrite Z.sub_diag. simpl. lia.
  - split; [lia|]. rewrite pos_iter_xO. f_equal. f_equal. lia.
Qed.

Lemma digits_shift (m mz : positive) (k : Z) :
  0 <= k -> Zpos mz = Zpos m * 2 ^ k ->
  Zpos (digits2_pos mz) = Zpos (digits2_pos m) + k.
Proof.
  intros Hk H. pose proof (digits2_pos_bounds m) as [Dlo Dhi].
  assert (P : 0 < 2 ^ k) by (apply Z.pow_pos_nonneg; lia).
  apply digits2_pos_unique. rewrite H.
  replace (Zpos (digits2_pos m) + k - 1) with ((Zpos (digits2_pos m) - 1) + k) by lia.
  rewrite !Z.pow_add_r by lia. nia.
Qed.

Lemma binary_round_shape (s : bool) (m : positive) (e : Z) :
  let E := fexp prec emax (Zpos (digits2_pos m) + e) in
  exists mf, rounded s mf E (binary_round prec emax s m e).
Proof.
  intros E. unfold binary_round. fold E.
  pose proof (shl_align_spec m e E) as H.
  destruct (shl_align m e E) as [mz ez]. destruct H as [Hez Hmz].
  assert (Hd : Zpos (digits2_pos mz) + ez = Zpos (digits2_pos m) + e).
  { rewrite (digits_shift m mz (e - ez)) by (assumption || lia). lia. }
  eexists.
  pose proof (binary_round_aux_shape s mz ez loc_Exact) as S.
  cbv zeta in S. rewrite Hd in S. fold E in S. apply S. lia.
Qed.

Lemma binary_round_wf (s : bool) (m : positive) (e : Z) :
  wf (binary_round prec emax s m e) = true /\
  isNaN (binary_round prec emax s m e) = false.
Proof.
  destruct (binary_round_shape s m e) as [mf H]. exact (rounded_wf _ _ _ _ H).
Qed.

(** A value that fits the format is represented exactly. *)
Lemma binary_round_exact (s : bool) (m : positive) (e : Z) :
  let E := fexp prec emax (Zpos (digits2_pos m) + e) in
  E <= e ->
  exists M, Zpos M = Zpos m * 2 ^ (e - E) /\
    binary_round prec emax s m e
    = if E <=? 971 then S754_finite s M E else S754_infinity s.
Proof.
  intros E HE. unfold binary_round. fold E.
  pose proof (shl_align_spec m e E) as H.
  destruct (shl_align m e E) as [mz ez]. destruct H as [Hez Hmz].
  assert (ez = E) as -> by lia.
  exists mz. split; [assumption|].
  apply binary_round_aux_canonical.
  unfold canonical_mantissa.
  rewrite (digits_shift m mz (e - E)) by (assumption || lia).
  replace (Zpos (digits2_pos m) + (e - E) + E) with (Zpos (digits2_pos m) + e) by lia.
  fold E. apply Z.eqb_refl.
Qed.

Lemma binary_normalize_wf (z e : Z) :
  wf (binary_normalize prec emax z e false) = true /\
  isNaN (binary_normalize prec emax z e false) = false.
Proof.
  destruct z; simpl; [split; reflexivity | apply binary_round_wf ..].
Qed.

(** The Number value of a nonzero integer below [2^53] in magnitude:
    its canonical binary64 form. *)
Lemma ofZ_pos (n : positive) :
  Zpos n < 2 ^ 53 ->
  exists M, Zpos M = Zpos n * 2 ^ (53 - Zpos (digits2_pos n)) /\
    ofZ (Zpos n) = S754_finite false M (Zpos (digits2_pos n) - 53).
Proof.
  intros Hn. pose proof (digits2_pos_bounds n) as [Dlo Dhi].
  set (d := Zpos (digits2_pos n)) in *.
  assert (Hd : d <= 53).
  { destruct (Z_le_gt_dec d 53) as [|Hgt]; [assumption|].
    assert (2 ^ 53 <= 2 ^ (d - 1)) by (apply Z.pow_le_mono_r; lia). lia. }
  assert (0 < d) by (unfold d; lia).
  destruct (binary_round_exact false n 0) as (M & HM & HR).
  { fold d. rewrite fexp_eq. lia. }
  fold d in HM, HR. rewrite fexp_eq in HM, HR.
  replace (Z.max (d + 0 - 53) (-1074)) with (d - 53) in * by lia.
  exists M. split; [rewrite HM; f_equal; f_equal; lia|].
  unfold ofZ. simpl binary_normalize. rewrite HR.
  replace (d - 53 <=? 971) with true by (symmetry; apply Z.leb_le; lia).
  reflexivity.
Qed.

Lemma ofZ_neg (n : positive) :
  Zpos n < 2 ^ 53 ->
  exists M, Zpos M = Zpos n * 2 ^ (53 - Zpos (digits2_pos n)) /\
    ofZ (Zneg n) = S754_finite true M (Zpos (digits2_pos n) - 53).
Proof.
  intros Hn. pose proof (digits2_pos_bounds n) as [Dlo Dhi].
  set (d := Zpos (digits2_pos n)) in *.
  assert (Hd : d <= 53).
  { destruct (Z_le_gt_dec d 53) as [|Hgt]; [assumption|].
    assert (2 ^ 53 <= 2 ^ (d - 1)) by (apply Z.pow_le_mono_r; lia). lia. }
  assert (0 < d) by (unfold d; lia).
  destruct (binary_round_exact true n 0) as (M & HM & HR).
  { fold d. rewrite fexp_eq. lia. }
  fold d in HM, HR. rewrite fexp_eq in HM, HR.
  replace (Z.max (d + 0 - 53) (-1074)) with (d - 53) in * by lia.
  exists M. split; [rewrite HM; f_equal; f_equal; lia|].
  unfold ofZ. simpl binary_normalize. rewrite HR.
  replace (d - 53 <=? 971) with true by (symmetry; apply Z.leb_le; lia).
  reflexivity.
Qed.

Lemma ofZ_wf (n : Z) : wf (ofZ n) = true /\ isNaN (ofZ n) = false.
Proof. apply binary_normalize_wf. Qed.

(** A canonical mantissa at an exponent above the least one has 53 bits. *)
Lemma canonical_normal (m : positive) (e : Z) :
  canonical_mantissa prec emax m e = true -> -1074 < e ->
  Zpos (digits2_pos m) = 53.
Proof.
  unfold canonical_mantissa. rewrite fexp_eq. intros H He.
  apply Z.eqb_eq in H. lia.
Qed.

Lemma canonical_digits_le (m : positive) (e : Z) :
  canonical_mantissa prec emax m e = true ->
  Zpos (digits2_pos m) <= 53.
Proof.
  unfold canonical_mantissa. rewrite fexp_eq. intros H.
  apply Z.eqb_eq in H. lia.
Qed.

(** ** Quality normalisation *)

Lemma roundHalfUp_bounds (s : bool) (m k : positive) :
  Zpos m < 2 ^ 53 ->
  let n := roundHalfUp s m (Zneg k) in
  (if s then - 2 ^ 52 <= n <= 0 else 0 <= n <= 2 ^ 52) /\
  (s = false -> Zpos m / 2 ^ Zpos k <= n).
Proof.
  intros Hm. unfold roundHalfUp.
  assert (P : 0 < 2 ^ Zpos k) by (apply Z.pow_pos_nonneg; lia).
  assert (P1 : 2 ^ (Zpos k + 1) = 2 * 2 ^ Zpos k).
  { rewrite Z.pow_add_r by lia. change (2 ^ 1) with 2. lia. }
  assert (P2 : 2 <= 2 ^ Zpos k).
  { change 2 with (2 ^ 1) at 1. apply Z.pow_le_mono_r; lia. }
  rewrite P1. change (2 ^ 53) with (2 * 2 ^ 52) in Hm.
  assert (P52 : 0 < 2 ^ 52) by reflexivity.
  destruct s; simpl cond_Zopp; (split; [split|]); try discriminate.
  - apply Z.div_le_lower_bound; [lia|]. nia.
  - apply Z.lt_succ_r. apply Z.div_lt_upper_bound; [lia|]. nia.
  - apply Z.div_pos; lia.
  - apply Z.lt_succ_r. apply Z.div_lt_upper_bound; [lia|]. nia.
  - intros _. apply Z.div_le_lower_bound; [lia|].
    pose proof (Z.mul_div_le (Zpos m) (2 ^ Zpos k) P). nia.
Qed.

Lemma small_positive (p : positive) :
  Zpos p < 8 ->
  (p = 1 \/ p = 2 \/ p = 3 \/ p = 4 \/ p = 5 \/ p = 6 \/ p = 7)%positive.
Proof. lia. Qed.

Lemma digits_ge_4 (p : positive) : 8 <= Zpos p -> 4 <= Zpos (digits2_pos p).
Proof.
  intros H. pose proof (digits2_pos_bounds p) as [_ Dhi].
  destruct (Z_le_gt_dec 4 (Zpos (digits2_pos p))) as [|Hlt]; [assumption|].
  assert (2 ^ Zpos (digits2_pos p) <= 2 ^ 3) by (apply Z.pow_le_mono_r; lia).
  change (2 ^ 3) with 8 in *. lia.
Qed.

(** [clampQuality] rounds to the nearest integer and clamps it to [0, 5];
    only NaN is left as it is. *)
Lemma clampQuality_spec (q : number) :
  wf q = true ->
  clampQuality q =
  match clampedInteger q with
  | Some k => ofZ k
  | None => NaN
  end.
Proof.
  intros Hwf. destruct q as [s|s| |s m e]; try (destruct s; reflexivity); try reflexivity.
  unfold wf, valid_binary, bounded in Hwf. apply andb_prop in Hwf as [Hc He].
  pose proof (canonical_digits_le m e Hc) as Hd.
  pose proof (digits2_pos_bounds m) as [Dlo Dhi].
  assert (Hm : Zpos m < 2 ^ 53).
  { assert (2 ^ Zpos (digits2_pos m) <= 2 ^ 53) by (apply Z.pow_le_mono_r; lia). lia. }
  unfold clampedInteger.
  destruct e as [|e|k].
  - (* an integral value of magnitude at least 2^52 *)
    pose proof (canonical_normal m 0 Hc ltac:(lia)) as H53.
    rewrite H53 in Dlo. change (2 ^ (53 - 1)) with 4503599627370496 in Dlo.
    unfold roundHalfUp. rewrite Z.mul_1_r.
    destruct s; simpl cond_Zopp.
    + replace (Z.max 0 (Z.min 5 (- Zpos m))) with 0 by lia. reflexivity.
    + replace (Z.max 0 (Z.min 5 (Zpos m))) with 5 by lia. reflexivity.
  - pose proof (canonical_normal m (Zpos e) Hc ltac:(lia)) as H53.
    rewrite H53 in Dlo. change (2 ^ (53 - 1)) with 4503599627370496 in Dlo.
    unfold roundHalfUp.
    assert (P : 0 < 2 ^ Zpos e) by (apply Z.pow_pos_nonneg; lia).
    destruct s; simpl cond_Zopp.
    + replace (Z.max 0 (Z.min 5 (- Zpos m * 2 ^ Zpos e))) with 0 by nia. reflexivity.
    + replace (Z.max 0 (Z.min 5 (Zpos m * 2 ^ Zpos e))) with 5 by nia. reflexivity.
  - pose proof (roundHalfUp_bounds s m k Hm) as [Hb _]. cbv zeta in Hb.
    unfold clampQuality, Math_round.
    change (2 ^ 52) with 4503599627370496 in Hb.
    change (2 ^ 53) with 9007199254740992 in *.
    destruct (roundHalfUp s m (Zneg k)) as [|p|p] eqn:Hn.
    + destruct s; reflexivity.
    + destruct (Z_lt_le_dec (Zpos p) 8) as [Hs|Hl].
      * destruct (small_positive p Hs) as [->|[->|[->|[->|[->|[->| ->]]]]]]; reflexivity.
      * destruct (ofZ_pos p) as (M & HM & ->); [destruct s; lia|].
        pose proof (digits_ge_4 p Hl) as H4.
        replace (Z.max 0 (Z.min 5 (Zpos p))) with 5 by lia.
        unfold Math_min, n5. cbn [SFcompare].
        replace (-50 ?= Zpos (digits2_pos p) - 53) with Lt
          by (symmetry; apply Z.compare_lt_iff; lia).
        reflexivity.
    + destruct (ofZ_neg p) as (M & HM & ->); [destruct s; lia|].
      replace (Z.max 0 (Z.min 5 (Zneg p))) with 0 by lia.
      reflexivity.
Qed.

Lemma clampQuality_range (q : number) :
  wf q = true ->
  clampQuality q = NaN \/ clampQuality q = n0 \/ clampQuality q = n1 \/
  clampQuality q = n2 \/ clampQuality q = n3 \/ clampQuality q = n4 \/
  clampQuality q = n5.
Proof.
  intros Hwf. rewrite (clampQuality_spec q Hwf).
  destruct (clampedInteger q) as [k|] eqn:Hk; [|left; reflexivity].
  assert (0 <= k <= 5).
  { destruct q as [s|s| |s m e]; simpl in Hk; try discriminate;
      injection Hk as <-; try destruct s; lia. }
  assert (k = 0 \/ k = 1 \/ k = 2 \/ k = 3 \/ k = 4 \/ k = 5) as K by lia.
  destruct K as [->|[->|[->|[->|[->| ->]]]]]; auto 10.
Qed.

(** ** The ease-factor floor *)

Lemma add_wf (x y : number) :
  wf x = true -> wf y = true -> wf (add x y) = true.
Proof.
  intros Hx Hy. destruct x as [sx|sx| |sx mx ex], y as [sy|sy| |sy my ey];
    try (destruct sx, sy; reflexivity); try reflexivity; try assumption.
  apply binary_normalize_wf.
Qed.

Lemma sub_wf (x y : number) :
  wf x = true -> wf y = true -> wf (sub x y) = true.
Proof.
  intros Hx Hy. destruct x as [sx|sx| |sx mx ex], y as [sy|sy| |sy my ey];
    try (destruct sx, sy; reflexivity); try reflexivity; try assumption.
  apply binary_normalize_wf.
Qed.

Lemma add_finite_not_NaN (x y : number) :
  isNaN x = false -> isFinite y = true -> isNaN (add x y) = false.
Proof.
  intros Hx Hy. destruct x as [sx|sx| |sx mx ex], y as [sy|sy| |sy my ey];
    try discriminate; try (destruct sx, sy; reflexivity); try reflexivity.
  apply binary_normalize_wf.
Qed.

Lemma sub_finite_not_NaN (x y : number) :
  isNaN x = false -> isFinite y = true -> isNaN (sub x y) = false.
Proof.
  intros Hx Hy. destruct x as [sx|sx| |sx mx ex], y as [sy|sy| |sy my ey];
    try discriminate; try (destruct sx, sy; reflexivity); try reflexivity.
  apply binary_normalize_wf.
Qed.

Lemma Math_max_floor (y : number) :
  wf y = true -> isNaN y = false -> atLeast1_3 (Math_max n1_3 y).
Proof.
  intros Hwf Hn. unfold atLeast1_3, Math_max, le, SFleb.
  destruct (SFcompare n1_3 y) as [[| |]|] eqn:Hc.
  - split; reflexivity.
  - rewrite Hc. split; [assumption | reflexivity].
  - split; reflexivity.
  - destruct y as [s|s| |s m e]; simpl in Hc; discriminate.
Qed.

(** The shape of a number that is at least 1.3. *)
Lemma atLeast1_3_cases (x : number) :
  atLeast1_3 x ->
  x = S754_infinity false \/
  exists m e, x = S754_finite false m e /\ Zpos (digits2_pos m) = 53 /\
    e <= 971 /\ (-52 < e \/ (e = -52 /\ 5854679515581645 <= Zpos m)).
Proof.
  intros [Hwf Hle]. unfold le, SFleb, n1_3 in Hle.
  destruct x as [s|s| |s m e];
    [ destruct s; discriminate
    | destruct s; [discriminate | left; reflexivity]
    | discriminate
    | ].
  destruct s; [discriminate|]. right. exists m, e.
  unfold wf, valid_binary, bounded in Hwf. apply andb_prop in Hwf as [Hc He].
  apply Z.leb_le in He. change (emax - prec) with 971 in He.
  cbv beta iota delta [SFcompare] in Hle.
  destruct (Z.compare_spec (-52) e) as [Heq|Hlt|Hgt]; try discriminate.
  - subst e. repeat split; [apply (canonical_normal m (-52) Hc); lia | lia |].
    right. split; [reflexivity|].
    rewrite Pos.compare_cont_spec in Hle. simpl Pos.switch_Eq in Hle.
    rewrite Pos2Z.inj_compare in Hle.
    destruct (Z.compare_spec 5854679515581645 (Zpos m)); try discriminate; lia.
  - repeat split; [apply (canonical_normal m e Hc); lia | lia | left; lia].
Qed.

(** What rounding produces when the truncated mantissa has 53 bits. *)
Lemma rounded_normal (s : bool) (mf E : Z) (r : number) :
  rounded s mf E r -> 2 ^ 52 <= mf ->
  r = S754_infinity s \/
  exists M E', r = S754_finite s M E' /\ Zpos (digits2_pos M) = 53 /\
    E' <= 971 /\ (E < E' \/ (E' = E /\ mf <= Zpos M)).
Proof.
  intros [[H0 _] | (M & E' & Hc & HM & ->)] Hmf.
  - change (2 ^ 52) with 4503599627370496 in Hmf. lia.
  - destruct (Z.leb_spec E' 971) as [HE|HE]; [right | left; reflexivity].
    exists M, E'. split; [reflexivity|].
    assert (Hd : Zpos (digits2_pos M) = 53).
    { destruct HM as [[-> HM] | (-> & HM & _)].
      - pose proof (canonical_digits_le M E Hc).
        pose proof (digits2_pos_bounds M) as [_ Dhi].
        destruct (Z_le_gt_dec 53 (Zpos (digits2_pos M))) as [|Hlt]; [lia|].
        assert (2 ^ Zpos (digits2_pos M) <= 2 ^ 52) by (apply Z.pow_le_mono_r; lia).
        lia.
      - apply digits2_pos_unique. rewrite HM. simpl. lia. }
    repeat split; [assumption | assumption |].
    destruct HM as [[-> HM] | (-> & HM & _)]; [right; split; [reflexivity|lia] | left; lia].
Qed.

(** Multiplying a number that is at least 1.3 by 100 gives at least 130. *)
Lemma mul_100_floor (m : positive) (e : Z) :
  Zpos (digits2_pos m) = 53 -> e <= 971 ->
  (-52 < e \/ (e = -52 /\ 5854679515581645 <= Zpos m)) ->
  mul (S754_finite false m e) n100 = S754_infinity false \/
  exists M E, mul (S754_finite false m e) n100 = S754_finite false M E /\
    Zpos (digits2_pos M) = 53 /\ E <= 971 /\
    (-45 < E \/ (E = -45 /\ c130 <= Zpos M)).
Proof.
  intros Hd He Hge.
  pose proof (digits2_pos_bounds m) as [Dlo Dhi]. rewrite Hd in Dlo, Dhi.
  change (2 ^ (53 - 1)) with 4503599627370496 in Dlo.
  change (2 ^ 53) with 9007199254740992 in Dhi.
  unfold mul, SFmul, n100. cbn [xorb].
  set (p := (m * 7036874417766400)%positive).
  assert (Hp : Zpos p = Zpos m * 7036874417766400) by reflexivity.
  pose proof (digits2_pos_bounds p) as [Plo Phi].
  set (dp := Zpos (digits2_pos p)) in *.
  assert (Hdp : dp = 105 \/ dp = 106).
  { destruct (Z_lt_le_dec dp 105) as [H1|H1].
    - assert (2 ^ dp <= 2 ^ 104) by (apply Z.pow_le_mono_r; unfold dp; lia).
      change (2 ^ 104) with 20282409603651670423947251286016 in *. lia.
    - destruct (Z_lt_le_dec 106 dp) as [H2|H2]; [|lia].
      assert (2 ^ 106 <= 2 ^ (dp - 1)) by (apply Z.pow_le_mono_r; lia).
      change (2 ^ 106) with 81129638414606681695789005144064 in *. lia. }
  assert (Hdp52 : e = -52 -> dp = 106).
  { intros ->. destruct Hdp as [Hdp|Hdp]; [exfalso | assumption].
    rewrite Hdp in Phi.
    change (2 ^ 105) with 40564819207303340847894502572032 in Phi. lia. }
  pose proof (binary_round_aux_shape false p (e + -46) loc_Exact) as S.
  cbv zeta in S. fold dp in S. rewrite fexp_eq in S.
  replace (Z.max (dp + (e + -46) - 53) (-1074)) with (e + dp - 99) in S by lia.
  specialize (S ltac:(lia)).
  replace (e + dp - 99 - (e + -46)) with (dp - 53) in S by lia.
  apply rounded_normal in S.
  - destruct S as [-> | (M & E' & -> & HdM & HE' & HM)]; [left; reflexivity | right].
    exists M, E'. repeat split; try assumption.
    destruct (Z_lt_le_dec (-45) E') as [|HE45]; [left; assumption | right].
    assert (E' = -45 /\ Zpos p / 2 ^ (dp - 53) <= Zpos M /\ e + dp - 99 = -45)
      as (-> & HM' & Hed) by lia.
    split; [reflexivity|].
    eapply Z.le_trans; [|exact HM'].
    apply Z.div_le_lower_bound; [apply Z.pow_pos_nonneg; lia|].
    unfold c130. rewrite Hp.
    destruct Hdp as [Hdp|Hdp]; rewrite Hdp.
    + change (2 ^ (105 - 53)) with 4503599627370496. change (2 ^ 45) with 35184372088832. lia.
    + assert (e = -52) by lia.
      change (2 ^ (106 - 53)) with 9007199254740992. change (2 ^ 45) with 35184372088832. lia.
  - apply Z.div_le_lower_bound; [apply Z.pow_pos_nonneg; lia|].
    rewrite <- Z.pow_add_r by lia.
    replace (dp - 53 + 52) with (dp - 1) by lia. assumption.
Qed.

(** Rounding a number that is at least 130 to an integer gives 130 or a
    number that is at least 131. *)
Lemma Math_round_floor (M : positive) (E : Z) :
  Zpos (digits2_pos M) = 53 -> E <= 971 ->
  (-45 < E \/ (E = -45 /\ c130 <= Zpos M)) ->
  Math_round (S754_finite false M E) = ofZ 130 \/
  exists mx ex, Math_round (S754_finite false M E) = S754_finite false mx ex /\
    Zpos (digits2_pos mx) = 53 /\ ex <= 971 /\
    (-45 < ex \/ (ex = -45 /\ c131 <= Zpos mx)).
Proof.
  intros Hd HE Hge.
  pose proof (digits2_pos_bounds M) as [Dlo Dhi]. rewrite Hd in Dlo, Dhi.
  change (2 ^ (53 - 1)) with 4503599627370496 in Dlo.
  destruct E as [|e|k].
  - right. exists M, 0. repeat split; [assumption | lia | left; lia].
  - right. exists M, (Zpos e). repeat split; [assumption | lia | left; lia].
  - pose proof (roundHalfUp_bounds false M k Dhi) as [Hb Hlo]. cbv zeta in Hb, Hlo.
    specialize (Hlo eq_refl).
    assert (H130 : 130 <= Zpos M / 2 ^ Zpos k).
    { apply Z.div_le_lower_bound; [apply Z.pow_pos_nonneg; lia|].
      destruct Hge as [Hk | [Hk HM]].
      - assert (2 ^ Zpos k <= 2 ^ 44) by (apply Z.pow_le_mono_r; lia).
        change (2 ^ 44) with 17592186044416 in *. lia.
      - injection Hk as ->. unfold c130 in HM.
        change (2 ^ 45) with 35184372088832 in *. lia. }
    unfold Math_round.
    destruct (roundHalfUp false M (Zneg k)) as [|p|p] eqn:Hn; [lia| |lia].
    destruct (Z.eq_dec (Zpos p) 130) as [Hp|Hp]; [left; congruence | right].
    change (2 ^ 52) with 4503599627370496 in Hb.
    destruct (ofZ_pos p) as (mx & Hmx & ->);
      [change (2 ^ 53) with 9007199254740992; lia|].
    pose proof (digits2_pos_bounds p) as [Plo Phi].
    set (dn := Zpos (digits2_pos p)) in *.
    assert (Hdn : 8 <= dn <= 53).
    { split.
      - destruct (Z_le_gt_dec 8 dn) as [|Hlt]; [assumption|].
        assert (2 ^ dn <= 2 ^ 7) by (apply Z.pow_le_mono_r; unfold dn; lia).
        change (2 ^ 7) with 128 in *. lia.
      - destruct (Z_le_gt_dec dn 53) as [|Hgt]; [assumption|].
        assert (2 ^ 53 <= 2 ^ (dn - 1)) by (apply Z.pow_le_mono_r; lia).
        change (2 ^ 53) with 9007199254740992 in *. lia. }
    exists mx, (dn - 53). split; [reflexivity|].
    split; [|split; [lia|]].
    + rewrite (digits_shift p mx (53 - dn)) by (lia || assumption). fold dn. lia.
    + destruct (Z.eq_dec dn 8) as [H8|H8]; [right | left; lia].
      split; [lia|]. rewrite Hmx, H8. unfold c131.
      change (2 ^ (53 - 8)) with (2 ^ 45). 
      change (2 ^ 45) with 35184372088832. lia.
Qed.

(** Dividing a number that is at least 131 by 100 gives at least 1.3. *)
Lemma div_100_floor (mx : positive) (ex : Z) :
  Zpos (digits2_pos mx) = 53 -> ex <= 971 ->
  (-45 < ex \/ (ex = -45 /\ c131 <= Zpos mx)) ->
  atLeast1_3 (div (S754_finite false mx ex) n100).
Proof.
  intros Hd He Hge.
  pose proof (digits2_pos_bounds mx) as [Dlo Dhi]. rewrite Hd in Dlo, Dhi.
  change (2 ^ (53 - 1)) with 4503599627370496 in Dlo.
  change (2 ^ 53) with 9007199254740992 in Dhi.
  unfold div, SFdiv, n100. cbv beta iota delta [SFdiv_core_binary].
  cbn [Zdigits2 xorb]. rewrite Hd.
  change (Zpos (digits2_pos 7036874417766400)) with 53.
  rewrite fexp_eq.
  replace (Z.min (Z.max (53 + ex - (53 + -46) - 53) (-1074)) (ex - -46))
    with (ex - 7) by lia.
  replace (ex - -46 - (ex - 7)) with 53 by lia.
  rewrite Z.shiftl_mul_pow2 by lia.
  change (2 ^ 53) with 9007199254740992.
  pose proof (Z.div_mod (Zpos mx * 9007199254740992) 7036874417766400 ltac:(lia)) as Hq.
  pose proof (Z.mod_pos_bound (Zpos mx * 9007199254740992) 7036874417766400 ltac:(lia)) as Hr.
  unfold Z.div, Z.modulo in Hq, Hr.
  destruct (Z.div_eucl (Zpos mx * 9007199254740992) 7036874417766400) as [q r].
  destruct q as [|Q|Q]; [lia| |lia].
  pose proof (digits2_pos_bounds Q) as [Qlo Qhi].
  set (dq := Zpos (digits2_pos Q)) in *.
  assert (Hdq : dq = 53 \/ dq = 54).
  { destruct (Z_lt_le_dec dq 53) as [H1|H1].
    - assert (2 ^ dq <= 2 ^ 52) by (apply Z.pow_le_mono_r; unfold dq; lia).
      change (2 ^ 52) with 4503599627370496 in *. lia.
    - destruct (Z_lt_le_dec 54 dq) as [H2|H2]; [|lia].
      assert (2 ^ 54 <= 2 ^ (dq - 1)) by (apply Z.pow_le_mono_r; lia).
      change (2 ^ 54) with 18014398509481984 in *. lia. }
  pose proof (binary_round_aux_shape false Q (ex - 7)
                (new_location 7036874417766400 r)) as S.
  cbv zeta in S. fold dq in S. rewrite fexp_eq in S.
  replace (Z.max (dq + (ex - 7) - 53) (-1074)) with (ex + dq - 60) in S by lia.
  specialize (S ltac:(lia)).
  replace (ex + dq - 60 - (ex - 7)) with (dq - 53) in S by lia.
  split; [exact (proj1 (rounded_wf _ _ _ _ S))|].
  apply rounded_normal in S.
  - destruct S as [-> | (M & E' & -> & HdM & HE' & HM)]; [reflexivity|].
    unfold le, SFleb, n1_3. cbv beta iota delta [SFcompare].
    destruct (Z.compare_spec (-52) E') as [Heq|Hlt|Hgt]; [|reflexivity|exfalso; lia].
    subst E'. rewrite Pos.compare_cont_spec. simpl Pos.switch_Eq.
    assert (5854679515581645 <= Zpos M) as HM13.
    { assert (dq = 53 /\ ex = -45 /\ Zpos Q / 2 ^ (dq - 53) <= Zpos M) as (H53 & -> & HQ) by lia.
      rewrite H53 in HQ. change (2 ^ (53 - 53)) with 1 in HQ. rewrite Z.div_1_r in HQ.
      unfold c131 in Hge. change (2 ^ 45) with 35184372088832 in Hge. lia. }
    rewrite Pos2Z.inj_compare.
    destruct (Z.compare_spec 5854679515581645 (Zpos M)); [reflexivity | reflexivity | lia].
  - apply Z.div_le_lower_bound; [apply Z.pow_pos_nonneg; lia|].
    rewrite <- Z.pow_add_r by lia.
    replace (dq - 53 + 52) with (dq - 1) by lia. assumption.
Qed.

(** Rounding to two decimals keeps a number at or above 1.3. *)
Lemma round2_floor (x : number) : atLeast1_3 x -> atLeast1_3 (round2 x).
Proof.
  intros Hx. unfold round2.
  destruct (atLeast1_3_cases x Hx) as [-> | (m & e & -> & Hd & He & Hge)].
  - split; reflexivity.
  - destruct (mul_100_floor m e Hd He Hge) as [-> | (M & E & -> & HdM & HE & HgeM)].
    + split; reflexivity.
    + destruct (Math_round_floor M E HdM HE HgeM)
        as [-> | (mx & ex & -> & Hdx & Hex & Hgex)].
      * split; reflexivity.
      * apply div_100_floor; assumption.
Qed.

(** The ease factor computed by [sm2Step] is at least 1.3, whichever
    branch is taken. *)
Lemma sm2Step_floor (data : SM2Data) (q : number) :
  wf (easeFactor data) = true -> isNaN (easeFactor data) = false ->
  (q = NaN \/ q = n0 \/ q = n1 \/ q = n2 \/ q = n3 \/ q = n4 \/ q = n5) ->
  atLeast1_3 (fst (fst (sm2Step data q))).
Proof.
  intros Hwf Hn Hq. unfold sm2Step.
  destruct (ge q n3) eqn:Hge; cbn [fst].
  - apply Math_max_floor.
    + apply add_wf; [assumption|].
      destruct Hq as [->|[->|[->|[->|[->|[->| ->]]]]]]; reflexivity.
    + apply add_finite_not_NaN; [assumption|].
      destruct Hq as [->|[->|[->|[->|[->|[->| ->]]]]]]; try discriminate; reflexivity.
  - apply Math_max_floor.
    + apply sub_wf; [assumption | reflexivity].
    + apply sub_finite_not_NaN; [assumption | reflexivity].
Qed.

(** ** The calendar *)

Lemma DayWithinYear_bounds (t : Z) : 0 <= DayWithinYear t <= 365.
Proof.
  unfold DayWithinYear, YearFromTime, YearFromDay, DayFromYear.
  generalize (Day t). intros d.
  change ((1601 - 1970)) with (-369). 
  cbv zeta.
  Z.div_mod_to_equations. lia.
Qed.

Lemma YearFromDay_bounds (d : Z) :
  - 100000000 <= d <= 100000000 -> -271822 <= YearFromDay d <= 275761.
Proof.
  unfold YearFromDay, DayFromYear. cbv zeta.
  Z.div_mod_to_equations. lia.
Qed.

(** [YearFromDay d] is the largest year that starts on or before day [d]. *)
Lemma YearFromDay_spec (d : Z) :
  DayFromYear (YearFromDay d) <= d < DayFromYear (YearFromDay d + 1).
Proof.
  unfold YearFromDay, DayFromYear. cbv zeta.
  Z.div_mod_to_equations. lia.
Qed.

Lemma MonthFromTime_bounds (t : Z) : 0 <= MonthFromTime t <= 11.
Proof.
  unfold MonthFromTime. cbv zeta.
  repeat match goal with |- context [if ?b then _ else _] => destruct b end; lia.
Qed.

Lemma leapDays_bounds (y : Z) : 0 <= leapDays y <= 1.
Proof. unfold leapDays. destruct (DaysInYear y =? 366); lia. Qed.

Lemma DateFromTime_bounds (t : Z) : 1 <= DateFromTime t <= 32.
Proof.
  pose proof (DayWithinYear_bounds t) as Hd.
  pose proof (leapDays_bounds (YearFromTime t)) as Hl.
  unfold DateFromTime, MonthFromTime, InLeapYear. cbv zeta.
  set (dw := DayWithinYear t) in *. set (leap := leapDays (YearFromTime t)) in *.
  repeat match goal with
         | |- context [if ?a <? ?b then _ else _] => destruct (Z.ltb_spec a b)
         end; simpl monthStart; lia.
Qed.

Lemma MakeDay_small (y m d : Z) :
  0 <= m <= 11 ->
  MakeDay y m d = DayFromYear y + monthStart (leapDays y) m + d - 1.
Proof.
  intros Hm. unfold MakeDay. cbv zeta.
  rewrite Z.div_small, Z.mod_small, Z.add_0_r by lia. reflexivity.
Qed.

(** The day number is recovered from the year, month and day of the
    month. *)
Lemma MakeDay_of_fields (t n : Z) :
  MakeDay (YearFromTime t) (MonthFromTime t) (DateFromTime t + n) = Day t + n.
Proof.
  rewrite MakeDay_small by apply MonthFromTime_bounds.
  unfold DateFromTime, InLeapYear, DayWithinYear.
  generalize (monthStart (leapDays (YearFromTime t)) (MonthFromTime t)).
  generalize (DayFromYear (YearFromTime t)). generalize (Day t).
  intros. lia.
Qed.

Lemma MakeDate_shift (t n : Z) :
  MakeDate (Day t + n) (TimeWithinDay t) = t + n * msPerDay.
Proof.
  unfold MakeDate, Day, TimeWithinDay.
  pose proof (Z.div_mod t msPerDay ltac:(discriminate)). lia.
Qed.

Lemma Day_shift (t n : Z) : Day (t + n * msPerDay) = Day t + n.
Proof. unfold Day. apply Z.div_add. discriminate. Qed.

(** ** Integers as numbers *)

Lemma digits_le_53 (n : positive) : Zpos n < 2 ^ 53 -> Zpos (digits2_pos n) <= 53.
Proof.
  intros Hn. pose proof (digits2_pos_bounds n) as [Dlo _].
  destruct (Z_le_gt_dec (Zpos (digits2_pos n)) 53) as [|Hgt]; [assumption|].
  assert (2 ^ 53 <= 2 ^ (Zpos (digits2_pos n) - 1)) by (apply Z.pow_le_mono_r; lia).
  lia.
Qed.

Lemma truncate_ofZ_pos (n : positive) :
  Zpos n < 2 ^ 53 -> truncate (ofZ (Zpos n)) = Some (Zpos n).
Proof.
  intros Hn. destruct (ofZ_pos n Hn) as (M & HM & ->).
  pose proof (digits_le_53 n Hn) as Hd.
  unfold truncate. cbn [cond_Zopp]. f_equal.
  destruct (Zpos (digits2_pos n) - 53) as [|e|k] eqn:He; [|lia|].
  - replace (53 - Zpos (digits2_pos n)) with 0 in HM by lia.
    rewrite HM. simpl. lia.
  - replace (53 - Zpos (digits2_pos n)) with (Zpos k) in HM by lia.
    rewrite HM. apply Z.div_mul. apply Z.pow_nonzero; lia.
Qed.

(** Adding two positive integers whose sum is below [2^53] is exact. *)
Lemma add_ofZ_pos (a b : positive) :
  Zpos a + Zpos b < 2 ^ 53 ->
  add (ofZ (Zpos a)) (ofZ (Zpos b)) = ofZ (Zpos a + Zpos b).
Proof.
  intros Hab.
  destruct (ofZ_pos a ltac:(lia)) as (Ma & HMa & ->).
  destruct (ofZ_pos b ltac:(lia)) as (Mb & HMb & ->).
  change (Zpos a + Zpos b) with (Zpos (a + b)) in *.
  destruct (ofZ_pos (a + b) Hab) as (Mc & HMc & ->).
  pose proof (digits_le_53 a ltac:(lia)) as Hda.
  pose proof (digits_le_53 b ltac:(lia)) as Hdb.
  pose proof (digits_le_53 (a + b)%positive Hab) as Hdc.
  pose proof (digits2_pos_bounds a) as [Alo Ahi].
  pose proof (digits2_pos_bounds b) as [Blo Bhi].
  pose proof (digits2_pos_bounds (a + b)) as [Clo Chi].
  set (da := Zpos (digits2_pos a)) in *.
  set (db := Zpos (digits2_pos b)) in *.
  set (dc := Zpos (digits2_pos (a + b))) in *.
  assert (Hac : da <= dc).
  { destruct (Z_le_gt_dec da dc) as [|Hgt]; [assumption|].
    assert (2 ^ dc <= 2 ^ (da - 1)) by (apply Z.pow_le_mono_r; unfold dc; lia). lia. }
  assert (Hbc : db <= dc).
  { destruct (Z_le_gt_dec db dc) as [|Hgt]; [assumption|].
    assert (2 ^ dc <= 2 ^ (db - 1)) by (apply Z.pow_le_mono_r; unfold dc; lia). lia. }
  unfold add, SFadd. cbn [cond_Zopp].
  set (ez := Z.min (da - 53) (db - 53)).
  pose proof (shl_align_spec Ma (da - 53) ez) as SA.
  destruct (shl_align Ma (da - 53) ez) as [Ma' ea']. destruct SA as [Hea HMa'].
  pose proof (shl_align_spec Mb (db - 53) ez) as SB.
  destruct (shl_align Mb (db - 53) ez) as [Mb' eb']. destruct SB as [Heb HMb'].
  cbn [fst].
  assert (ea' = ez) as -> by (unfold ez in *; lia).
  assert (eb' = ez) as -> by (unfold ez in *; lia).
  assert (Hez : ez <= 0) by (unfold ez; lia).
  assert (HA : Zpos Ma' = Zpos a * 2 ^ (- ez)).
  { rewrite HMa', HMa, <- Z.mul_assoc, <- Z.pow_add_r by (unfold ez; lia).
    f_equal. f_equal. lia. }
  assert (HB : Zpos Mb' = Zpos b * 2 ^ (- ez)).
  { rewrite HMb', HMb, <- Z.mul_assoc, <- Z.pow_add_r by (unfold ez; lia).
    f_equal. f_equal. lia. }
  change (Zpos Ma' + Zpos Mb') with (Zpos (Ma' + Mb')).
  cbn [binary_normalize]. unfold binary_round.
  assert (HS : Zpos (Ma' + Mb') = Zpos (a + b) * 2 ^ (- ez)).
  { rewrite !Pos2Z.inj_add, HA, HB. lia. }
  rewrite (digits_shift (a + b) (Ma' + Mb') (- ez)) by (lia || assumption).
  fold dc. rewrite fexp_eq.
  replace (Z.max (dc + - ez + ez - 53) (-1074)) with (dc - 53) by lia.
  unfold shl_align.
  destruct (dc - 53 - ez) as [|p|p] eqn:Hp; [| |unfold ez in Hp; lia].
  - (* the sum has the width of the narrower operand *)
    replace (Zpos (Ma' + Mb')) with (Zpos Mc * 2 ^ 0).
    + rewrite binary_round_aux_shifted.
      * replace (ez + 0) with (dc - 53) by lia.
        replace (dc - 53 <=? 971) with true by (symmetry; apply Z.leb_le; lia).
        reflexivity.
      * lia.
      * unfold canonical_mantissa.
        rewrite (digits_shift (a + b) Mc (53 - dc)) by (lia || assumption).
        fold dc. rewrite fexp_eq. apply Z.eqb_eq. lia.
    + rewrite HS, HMc. change (2 ^ 0) with 1. rewrite Z.mul_1_r.
      f_equal. f_equal. lia.
  - replace (Zpos (Ma' + Mb')) with (Zpos Mc * 2 ^ Zpos p).
    + rewrite binary_round_aux_shifted.
      * replace (ez + Zpos p) with (dc - 53) by lia.
        replace (dc - 53 <=? 971) with true by (symmetry; apply Z.leb_le; lia).
        reflexivity.
      * lia.
      * unfold canonical_mantissa.
        rewrite (digits_shift (a + b) Mc (53 - dc)) by (lia || assumption).
        fold dc. rewrite fexp_eq. apply Z.eqb_eq. lia.
    + rewrite HS, HMc, <- Z.mul_assoc, <- Z.pow_add_r by lia.
      f_equal. f_equal. lia.
Qed.

(** [getDate() + i] for a day of the month and a loop counter. *)
Lemma truncate_add_ofZ (a i : Z) :
  0 < a -> 0 <= i -> a + i < 2 ^ 53 ->
  truncate (add (ofZ a) (ofZ i)) = Some (a + i).
Proof.
  intros Ha Hi Hai.
  destruct a as [|a|a]; [lia| |lia].
  destruct i as [|i|i]; [| |lia].
  - rewrite Z.add_0_r.
    destruct (ofZ_pos a ltac:(lia)) as (Ma & HMa & E).
    replace (add (ofZ (Zpos a)) (ofZ 0)) with (ofZ (Zpos a))
      by (rewrite E; reflexivity).
    apply truncate_ofZ_pos. lia.
  - rewrite add_ofZ_pos by assumption.
    change (Zpos a + Zpos i) with (Zpos (a + i)) in *.
    apply truncate_ofZ_pos. assumption.
Qed.

(** ** ISO dates *)

Lemma String_inj (c1 c2 : ascii) (s1 s2 : string) :
  String c1 s1 = String c2 s2 -> c1 = c2 /\ s1 = s2.
Proof. intros H. injection H. auto. Qed.

Lemma digitChar_inj (a b : Z) :
  0 <= a < 10 -> 0 <= b < 10 -> digitChar a = digitChar b -> a = b.
Proof.
  intros Ha Hb H. unfold digitChar in H.
  apply (f_equal nat_of_ascii) in H.
  rewrite !nat_ascii_embedding in H by lia. lia.
Qed.

Lemma length_digits (w : nat) (n : Z) (rest : string) :
  String.length (digits w n rest) = (w + String.length rest)%nat.
Proof.
  revert n rest. induction w as [|w IH]; intros n rest; simpl; [reflexivity|].
  rewrite IH. simpl. lia.
Qed.

Lemma digits_inj (w : nat) (a b : Z) (r1 r2 : string) :
  0 <= a < 10 ^ Z.of_nat w -> 0 <= b < 10 ^ Z.of_nat w ->
  digits w a r1 = digits w b r2 -> a = b /\ r1 = r2.
Proof.
  revert a b r1 r2. induction w as [|w IH]; intros a b r1 r2 Ha Hb H.
  - simpl in *. split; [lia | assumption].
  - rewrite Nat2Z.inj_succ, Z.pow_succ_r in Ha, Hb by lia.
    simpl in H. apply IH in H.
    + destruct H as [Hq Hr]. apply String_inj in Hr as [Hc Hr].
      apply digitChar_inj in Hc; try (apply Z.mod_pos_bound; lia).
      split; [|assumption].
      rewrite (Z.div_mod a 10), (Z.div_mod b 10) by lia. lia.
    + split; [apply Z.div_pos; lia | apply Z.div_lt_upper_bound; lia].
    + split; [apply Z.div_pos; lia | apply Z.div_lt_upper_bound; lia].
Qed.

(** Distinct days have distinct ISO dates. *)
Lemma isoDate_inj (d1 d2 : Z) :
  -100000000 <= d1 <= 100000000 -> -100000000 <= d2 <= 100000000 ->
  isoDate d1 = isoDate d2 -> d1 = d2.
Proof.
  intros H1 H2 H.
  assert (Dd : forall d, Day (d * msPerDay) = d)
    by (intros d; unfold Day; apply Z.div_mul; discriminate).
  pose proof (MakeDay_of_fields (d1 * msPerDay) 0) as F1.
  pose proof (MakeDay_of_fields (d2 * msPerDay) 0) as F2.
  rewrite Dd, !Z.add_0_r in F1, F2.
  pose proof (YearFromDay_bounds d1 H1) as Y1.
  pose proof (YearFromDay_bounds d2 H2) as Y2.
  pose proof (MonthFromTime_bounds (d1 * msPerDay)) as M1.
  pose proof (MonthFromTime_bounds (d2 * msPerDay)) as M2.
  pose proof (DateFromTime_bounds (d1 * msPerDay)) as T1.
  pose proof (DateFromTime_bounds (d2 * msPerDay)) as T2.
  unfold isoDate in H. cbv zeta in H.
  unfold YearFromTime in *. rewrite !Dd in *.
  set (y1 := YearFromDay d1) in *. set (y2 := YearFromDay d2) in *.
  set (m1 := MonthFromTime (d1 * msPerDay)) in *.
  set (m2 := MonthFromTime (d2 * msPerDay)) in *.
  set (t1 := DateFromTime (d1 * msPerDay)) in *.
  set (t2 := DateFromTime (d2 * msPerDay)) in *.
  assert (Hfields : y1 = y2 /\ m1 = m2 /\ t1 = t2).
  { assert (Hrest : y1 = y2 ->
              String "-" (digits 2 (m1 + 1) (String "-" (digits 2 t1 "")))
              = String "-" (digits 2 (m2 + 1) (String "-" (digits 2 t2 ""))) ->
              y1 = y2 /\ m1 = m2 /\ t1 = t2).
    { intros Hy Hr. apply String_inj in Hr as [_ Hr].
      apply digits_inj in Hr; [|simpl; lia ..].
      destruct Hr as [Hm Hr]. apply String_inj in Hr as [_ Hr].
      apply digits_inj in Hr; [|simpl; lia ..].
      destruct Hr as [Ht _]. repeat split; [assumption | lia | assumption]. }
    destruct ((0 <=? y1) && (y1 <=? 9999)) eqn:B1;
      destruct ((0 <=? y2) && (y2 <=? 9999)) eqn:B2.
    - apply digits_inj in H.
      + destruct H as [Hy Hr]. apply (Hrest Hy Hr).
      + apply andb_prop in B1 as [B1 B1']. simpl. lia.
      + apply andb_prop in B2 as [B2 B2']. simpl. lia.
    - apply (f_equal String.length) in H.
      repeat (cbn [String.length] in H; rewrite ?length_digits in H). lia.
    - apply (f_equal String.length) in H.
      repeat (cbn [String.length] in H; rewrite ?length_digits in H). lia.
    - apply String_inj in H as [Hs H].
      apply digits_inj in H; [|simpl; lia ..].
      destruct H as [Hy Hr].
      assert (y1 = y2).
      { destruct (Z.ltb_spec y1 0), (Z.ltb_spec y2 0); try discriminate; lia. }
      apply Hrest; assumption. }
  destruct Hfields as (Hy & Hm & Ht). rewrite <- F1, <- F2, Hy, Hm, Ht.
  reflexivity.
Qed.

(** ** Time values *)

Lemma TimeClipZ_range (t t' : Z) : TimeClipZ t = Some t' -> t' = t /\ Z.abs t <= maxTime.
Proof.
  unfold TimeClipZ. destruct (Z.leb_spec (Z.abs t) maxTime); [|discriminate].
  intros [= <-]. split; [reflexivity | assumption].
Qed.

Lemma TimeClipZ_valid (t : Z) : Z.abs t <= maxTime -> TimeClipZ t = Some t.
Proof.
  intros H. unfold TimeClipZ. destruct (Z.leb_spec (Z.abs t) maxTime); [reflexivity | lia].
Qed.

Lemma TimeClip_range (v : number) (t : Z) : TimeClip v = Some t -> Z.abs t <= maxTime.
Proof.
  unfold TimeClip. destruct v as [s|s| |s m e]; try discriminate.
  - simpl. intros H. apply TimeClipZ_range in H. lia.
  - destruct e as [|e|k].
    + simpl truncate. intros H. apply TimeClipZ_range in H. lia.
    + simpl truncate. intros H. apply TimeClipZ_range in H. lia.
    + destruct (Z.leb_spec (Zpos m) (maxTime * 2 ^ Zpos k)) as [Hle|]; [|discriminate].
      simpl truncate. intros [= <-].
      assert (P : 0 < 2 ^ Zpos k) by (apply Z.pow_pos_nonneg; lia).
      assert (0 <= Zpos m / 2 ^ Zpos k <= maxTime).
      { split; [apply Z.div_pos; lia|].
        apply Z.lt_succ_r. apply Z.div_lt_upper_bound; [assumption|]. nia. }
      destruct s; simpl; lia.
Qed.

Lemma truncate_ofZ_neg (n : positive) :
  Zpos n < 2 ^ 53 -> truncate (ofZ (Zneg n)) = Some (Zneg n).
Proof.
  intros Hn. destruct (ofZ_neg n Hn) as (M & HM & ->).
  pose proof (digits_le_53 n Hn) as Hd.
  unfold truncate. cbn [cond_Zopp]. f_equal.
  destruct (Zpos (digits2_pos n) - 53) as [|e|k] eqn:He; [|lia|].
  - replace (53 - Zpos (digits2_pos n)) with 0 in HM by lia.
    rewrite HM. simpl. lia.
  - replace (53 - Zpos (digits2_pos n)) with (Zpos k) in HM by lia.
    rewrite HM, Z.div_mul by (apply Z.pow_nonzero; lia). reflexivity.
Qed.

(** A time value is its own Number value. *)
Lemma TimeClip_ofZ (t : Z) : Z.abs t <= maxTime -> TimeClip (ofZ t) = Some t.
Proof.
  intros Ht.
  assert (Hb : Z.abs t < 2 ^ 53)
    by (change (2 ^ 53) with 9007199254740992; unfold maxTime in Ht; lia).
  destruct t as [|n|n].
  - reflexivity.
  - pose proof (truncate_ofZ_pos n Hb) as Htr.
    destruct (ofZ_pos n Hb) as (M & HM & E). rewrite E in *.
    unfold TimeClip.
    destruct (Zpos (digits2_pos n) - 53) as [|e|k] eqn:He.
    + rewrite Htr. apply TimeClipZ_valid. assumption.
    + rewrite Htr. apply TimeClipZ_valid. assumption.
    + rewrite Htr.
      replace (53 - Zpos (digits2_pos n)) with (Zpos k) in HM by lia.
      assert (P : 0 < 2 ^ Zpos k) by (apply Z.pow_pos_nonneg; lia).
      destruct (Z.leb_spec (Zpos M) (maxTime * 2 ^ Zpos k)); [reflexivity|].
      simpl Z.abs in Ht. nia.
  - pose proof (truncate_ofZ_neg n Hb) as Htr.
    destruct (ofZ_neg n Hb) as (M & HM & E). rewrite E in *.
    unfold TimeClip.
    destruct (Zpos (digits2_pos n) - 53) as [|e|k] eqn:He.
    + rewrite Htr. apply TimeClipZ_valid. assumption.
    + rewrite Htr. apply TimeClipZ_valid. assumption.
    + rewrite Htr.
      replace (53 - Zpos (digits2_pos n)) with (Zpos k) in HM by lia.
      assert (P : 0 < 2 ^ Zpos k) by (apply Z.pow_pos_nonneg; lia).
      destruct (Z.leb_spec (Zpos M) (maxTime * 2 ^ Zpos k)); [reflexivity|].
      simpl Z.abs in Ht. nia.
Qed.

Lemma setDate_range (tz : TimeZone) (d : Date) (dt : number) (t : Z) :
  setDate tz d dt = Some t -> Z.abs t <= maxTime.
Proof.
  unfold setDate. destruct d as [t0|]; [|discriminate].
  destruct (truncate dt) as [n|]; [|discriminate].
  intros H. apply TimeClipZ_range in H as [-> H]. assumption.
Qed.

(** In a zone without transitions, [date.setDate(date.getDate() + i)]
    adds [i] whole days to the time value. *)
Lemma setDate_add_days (tz : TimeZone) (t i : Z) :
  fixedOffset tz -> 0 <= i < 2 ^ 52 ->
  setDate tz (Some t) (add (getDate tz (Some t)) (ofZ i))
  = TimeClipZ (t + i * msPerDay).
Proof.
  intros [c Hc] Hi. unfold setDate, getDate.
  pose proof (DateFromTime_bounds (LocalTime tz t)) as HD.
  rewrite truncate_add_ofZ
    by (change (2 ^ 53) with 9007199254740992;
        change (2 ^ 52) with 4503599627370496 in Hi; lia).
  rewrite MakeDay_of_fields, MakeDate_shift.
  f_equal. unfold UTC, LocalTime.
  destruct (Hc t) as [-> _].
  destruct (Hc (t + c + i * msPerDay)) as [_ ->]. lia.
Qed.

(** ** The forecast loop *)

Lemma Day_range (t : Z) : Z.abs t <= maxTime -> -100000000 <= Day t <= 100000000.
Proof.
  unfold Day, maxTime, msPerDay. intros H.
  Z.div_mod_to_equations. lia.
Qed.

Lemma reviewedOn_spec (d : Z) (card : FlashCard) :
  -100000000 <= d <= 100000000 -> validNextReview card ->
  reviewedOn (isoDate d) card = Some (isScheduledOn d card).
Proof.
  intros Hd Hv. unfold reviewedOn, isScheduledOn, scheduledDay.
  destruct (sm2Data card) as [data|] eqn:Hs; [|reflexivity].
  destruct (truthy (nextReview data)) eqn:Ht; [|reflexivity].
  cbn [negb]. specialize (Hv data Hs Ht).
  destruct (ofNumber (nextReview data)) as [t|] eqn:Hn; [|congruence].
  cbn [toISODate option_map]. f_equal.
  pose proof (Day_range t (TimeClip_range _ _ Hn)) as Hr.
  destruct (String.eqb_spec (isoDate (Day t)) (isoDate d)) as [He|He].
  - apply isoDate_inj in He; [|assumption..]. symmetry. apply Z.eqb_eq. assumption.
  - symmetry. apply Z.eqb_neq. intros Hd'. apply He. rewrite Hd'. reflexivity.
Qed.

Lemma countOn_spec (d : Z) (cards : list FlashCard) :
  -100000000 <= d <= 100000000 -> Forall validNextReview cards ->
  countOn (isoDate d) cards = Some (reviewsOn d cards).
Proof.
  intros Hd Hv. unfold reviewsOn.
  induction Hv as [|card rest Hc Hrest IH]; [reflexivity|].
  cbn [countOn List.filter]. rewrite (reviewedOn_spec d card Hd Hc), IH.
  destruct (isScheduledOn d card); reflexivity.
Qed.

(** The loop of [getUpcomingReviews] computes [buildSchedule]. *)
Lemma forecast_buildSchedule (tz : TimeZone) (cards : list FlashCard) (t0 : Z)
    (n : nat) (i : Z) (schedule : gmap string nat) :
  fixedOffset tz -> Forall validNextReview cards ->
  0 <= i -> - maxTime <= t0 ->
  t0 + (i + Z.of_nat n) * msPerDay <= maxTime + msPerDay ->
  forecast tz cards (Some t0) n i schedule
  = Some (buildSchedule (Day t0) cards n i schedule).
Proof.
  intros Htz Hv. revert i schedule.
  induction n as [|n IH]; intros i schedule Hi Hlo Hhi; [reflexivity|].
  cbn [forecast buildSchedule].
  assert (Hr : Z.abs (t0 + i * msPerDay) <= maxTime)
    by (unfold maxTime, msPerDay in *; lia).
  rewrite setDate_add_days
    by (assumption || (change (2 ^ 52) with 4503599627370496;
                       unfold maxTime, msPerDay in *; lia)).
  rewrite TimeClipZ_valid by assumption.
  cbn [toISODate]. rewrite Day_shift.
  rewrite countOn_spec
    by (assumption || (rewrite <- Day_shift; apply Day_range; assumption)).
  apply IH; lia.
Qed.

Section Schedule.
Variables (d0 : Z) (cards : list FlashCard).

Lemma inRange_S n i : inRange d0 (S n) i -> inRange d0 n (i + 1).
Proof. intros H j Hj. apply H. lia. Qed.

Lemma buildSchedule_lookup_other n i schedule key :
  (forall j, i <= j < i + Z.of_nat n -> key <> isoDate (d0 + j)) ->
  buildSchedule d0 cards n i schedule !! key = schedule !! key.
Proof.
  revert i schedule. induction n as [|n IH]; intros i schedule Hk; [reflexivity|].
  cbn [buildSchedule]. rewrite IH by (intros j Hj; apply Hk; lia).
  apply lookup_insert_ne. intros He. apply (Hk i); [lia | congruence].
Qed.

Lemma buildSchedule_lookup n i schedule j :
  inRange d0 n i -> i <= j < i + Z.of_nat n ->
  buildSchedule d0 cards n i schedule !! isoDate (d0 + j)
  = Some (reviewsOn (d0 + j) cards).
Proof.
  revert i schedule. induction n as [|n IH]; intros i schedule Hr Hj; [lia|].
  cbn [buildSchedule]. destruct (Z.eq_dec j i) as [->|Hne].
  - rewrite buildSchedule_lookup_other; [apply lookup_insert_eq|].
    intros j Hj' He. apply isoDate_inj in He; [lia | apply Hr; lia ..].
  - apply IH; [apply inRange_S; assumption | lia].
Qed.

Lemma buildSchedule_dom n i schedule key :
  is_Some (buildSchedule d0 cards n i schedule !! key) ->
  is_Some (schedule !! key) \/
  exists j, i <= j < i + Z.of_nat n /\ key = isoDate (d0 + j).
Proof.
  revert i schedule. induction n as [|n IH]; intros i schedule H; [left; assumption|].
  cbn [buildSchedule] in H. apply IH in H as [H | (j & Hj & ->)].
  - destruct (decide (isoDate (d0 + i) = key)) as [<-|Hne].
    + right. exists i. split; [lia | reflexivity].
    + rewrite lookup_insert_ne in H by assumption. left; assumption.
  - right. exists j. split; [lia | reflexivity].
Qed.

Lemma unscheduled_S n i schedule k :
  inRange d0 (S n) i -> unscheduled d0 (S n) i schedule ->
  unscheduled d0 n (i + 1) (<[isoDate (d0 + i) := k]> schedule).
Proof.
  intros Hr Hf j Hj. rewrite lookup_insert_ne; [apply Hf; lia|].
  intros He. apply isoDate_inj in He; [lia | apply Hr; lia ..].
Qed.

Lemma buildSchedule_size n i schedule :
  inRange d0 n i -> unscheduled d0 n i schedule ->
  size (buildSchedule d0 cards n i schedule) = (size schedule + n)%nat.
Proof.
  revert i schedule. induction n as [|n IH]; intros i schedule Hr Hf.
  - cbn [buildSchedule]. lia.
  - cbn [buildSchedule]. rewrite IH.
    + rewrite map_size_insert_None by (apply Hf; lia). lia.
    + apply inRange_S; assumption.
    + apply unscheduled_S; assumption.
Qed.

Lemma totalReviews_insert schedule key k :
  schedule !! key = None ->
  totalReviews (<[key := k]> schedule) = (k + totalReviews schedule)%nat.
Proof.
  intros H. unfold totalReviews.
  apply (map_fold_insert_L (fun _ k acc => (k + acc)%nat)); [|assumption].
  intros. lia.
Qed.

Lemma buildSchedule_total n i schedule :
  inRange d0 n i -> unscheduled d0 n i schedule ->
  totalReviews (buildSchedule d0 cards n i schedule)
  = (totalReviews schedule + sumReviews d0 cards n i)%nat.
Proof.
  revert i schedule. induction n as [|n IH]; intros i schedule Hr Hf.
  - cbn [buildSchedule sumReviews]. lia.
  - cbn [buildSchedule sumReviews]. rewrite IH.
    + rewrite totalReviews_insert by (apply Hf; lia). lia.
    + apply inRange_S; assumption.
    + apply unscheduled_S; assumption.
Qed.

End Schedule.

(** A card is counted on at most one day, and only if it has scheduling
    data. *)
Lemma sumReviews_cons d0 card cards n i :
  sumReviews d0 (card :: cards) n i
  = (sumReviews d0 (card :: nil) n i + sumReviews d0 cards n i)%nat.
Proof.
  revert i. induction n as [|n IH]; intros i; [reflexivity|].
  cbn [sumReviews]. rewrite IH. unfold reviewsOn. cbn [List.filter].
  destruct (isScheduledOn (d0 + i) card); cbn [length]; lia.
Qed.

Lemma sumReviews_single d0 card n i :
  (sumReviews d0 (card :: nil) n i <=
   match scheduledDay card with
   | Some d => if (d0 + i <=? d)%Z then 1 else 0
   | None => 0
   end)%nat.
Proof.
  revert i. induction n as [|n IH]; intros i; cbn [sumReviews]; [lia|].
  specialize (IH (i + 1)). unfold reviewsOn, isScheduledOn in *. cbn [List.filter].
  destruct (scheduledDay card) as [d|]; [|cbn [length]; lia].
  destruct (Z.eqb_spec d (d0 + i)), (Z.leb_spec (d0 + i) d),
    (Z.leb_spec (d0 + (i + 1)) d); cbn [length] in *; lia.
Qed.

Lemma sumReviews_le d0 cards n i :
  (sumReviews d0 cards n i <= length (List.filter hasState cards))%nat.
Proof.
  induction cards as [|card cards IH]; cbn [List.filter].
  - clear. revert i. induction n as [|n IH]; intros i; cbn [sumReviews]; [lia|].
    specialize (IH (i + 1)). unfold reviewsOn in *. cbn [List.filter length] in *. lia.
  - rewrite sumReviews_cons.
    pose proof (sumReviews_single d0 card n i) as H1.
    unfold scheduledDay, hasState in *.
    destruct (sm2Data card) as [data|]; cbn [length].
    + destruct (truthy (nextReview data)); [|lia].
      destruct (option_map Day (ofNumber (nextReview data))); [|lia].
      destruct (d0 + i <=? z); lia.
    + lia.
Qed.

(** * The engine *)

(** ** The Review Outcome Calculator *)

Ltac unfold_eff :=
  unfold calculateNextReview, currentDataOf, getDueCards, getDifficultCards,
    getStudyStats, getUpcomingReviews, bind, ret, now, newDate, advance in *.

(** The state that [calculateNextReview] starts from: the card's data, or
    the defaults of a card that was never reviewed. *)
Lemma currentDataOf_triple (card : FlashCard) (clk : Clock) :
  let prior := fst (currentDataOf card clk) in
  match sm2Data card with
  | Some data => prior = data
  | None => easeFactor prior = n2_5 /\ interval prior = n1 /\ repetitions prior = n0
  end.
Proof.
  unfold currentDataOf. destruct (sm2Data card); simpl; auto.
Qed.

(** The numeric fields of the result are [sm2Step] of the prior state. *)
Lemma calculateNextReview_fields tz card quality clk :
  let prior := fst (currentDataOf card clk) in
  let r := fst (calculateNextReview tz card quality clk) in
  (round2 (fst (fst (sm2Step prior (clampQuality quality)))),
   snd (fst (sm2Step prior (clampQuality quality))),
   snd (sm2Step prior (clampQuality quality)))
  = (easeFactor r, interval r, repetitions r).
Proof.
  unfold_eff. destruct (sm2Data card) as [data|]; simpl.
  - destruct (sm2Step data (clampQuality quality)) as [[e i] r]. reflexivity.
  - match goal with |- context [sm2Step ?d ?q] =>
      destruct (sm2Step d q) as [[e i] r] end.
    reflexivity.
Qed.

(** The scenario of the specification: a new card answered 5, 5 and then 1
    gets (interval, repetitions, easeFactor) = (1, 1, 2.6), (6, 2, 2.7) and
    (1, 0, 2.5), with the next review 1, 6 and 1 days after the answer. *)
Example scenario_5_5_1 :
  let day := msPerDay in
  let r1 := fst (calculateNextReview utcZone newCard n5 (frozen T0)) in
  let r2 := fst (calculateNextReview utcZone (updateCard newCard r1) n5
                   (frozen (T0 + day))) in
  let r3 := fst (calculateNextReview utcZone (updateCard newCard r2) n1
                   (frozen (T0 + 7 * day))) in
  r1 = {| easeFactor := decimal 26 10; interval := n1; repetitions := n1;
          nextReview := ofZ (T0 + day); lastReviewed := ofZ T0 |} /\
  r2 = {| easeFactor := decimal 27 10; interval := n6; repetitions := n2;
          nextReview := ofZ (T0 + 7 * day); lastReviewed := ofZ (T0 + day) |} /\
  r3 = {| easeFactor := n2_5; interval := n1; repetitions := n0;
          nextReview := ofZ (T0 + 8 * day); lastReviewed := ofZ (T0 + 7 * day) |}.
Proof. vm_compute. repeat split. Qed.

(** C1. With the clock stopped at [t] for the duration of the call, the
    result of [calculateNextReview] is a function of the prior scheduling
    state (or its absence), the quality and [t]: two invocations with the
    same three agree in every field. *)
Theorem calculateNextReview_deterministic
    (tz : TimeZone) (card1 card2 : FlashCard) (quality : number) (t : Z)
    (c1 c2 : Clock) :
  sm2Data card1 = sm2Data card2 ->
  (forall n, (n < 4)%nat -> c1 n = t) ->
  (forall n, (n < 4)%nat -> c2 n = t) ->
  fst (calculateNextReview tz card1 quality c1)
  = fst (calculateNextReview tz card2 quality c2).
Proof.
  intros Hs H1 H2. unfold_eff. rewrite <- Hs.
  destruct (sm2Data card1) as [data|]; simpl.
  - destruct (sm2Step data (clampQuality quality)) as [[e i] r]. simpl.
    rewrite (H1 0%nat), (H1 1%nat), (H2 0%nat), (H2 1%nat) by lia.
    reflexivity.
  - rewrite (H1 0%nat), (H1 1%nat), (H2 0%nat), (H2 1%nat) by lia.
    match goal with |- context [sm2Step ?d ?q] =>
      destruct (sm2Step d q) as [[e i] r] end.
    simpl.
    rewrite (H1 2%nat), (H1 3%nat), (H2 2%nat), (H2 3%nat) by lia.
    reflexivity.
Qed.

Lemma calculateNextReview_deterministic_witness :
  (forall n, (n < 4)%nat -> frozen T0 n = T0) /\
  (forall n, (n < 4)%nat -> jumpingClock n = T0) /\
  fst (calculateNextReview utcZone newCard n5 (frozen T0))
  = fst (calculateNextReview utcZone otherNewCard n5 jumpingClock).
Proof.
  assert (H1 : forall n, (n < 4)%nat -> frozen T0 n = T0) by reflexivity.
  assert (H2 : forall n, (n < 4)%nat -> jumpingClock n = T0).
  { intros n Hn. unfold jumpingClock.
    destruct (Nat.ltb_spec n 4); [reflexivity | lia]. }
  split; [exact H1 | split; [exact H2 |]].
  exact (calculateNextReview_deterministic utcZone newCard otherNewCard n5 T0
           _ _ eq_refl H1 H2).
Defined.

(** Between two readings the clock may advance: the two timestamps of one
    result are then taken at different times. *)
Example calculateNextReview_reads_clock_twice :
  let r := fst (calculateNextReview utcZone dueCard n5
                  (fun n => T0 + Z.of_nat n)) in
  lastReviewed r = ofZ (T0 + 1) /\ nextReview r = ofZ (T0 + 15 * msPerDay).
Proof. vm_compute. split; reflexivity. Qed.

(** C10. The result depends on the card only through its [sm2Data]: cards
    that agree on it (or both lack it) get the same result, and leave the
    clock in the same state, whatever their other fields are. *)
Theorem calculateNextReview_noninterference
    (tz : TimeZone) (card1 card2 : FlashCard) (quality : number) (clk : Clock) :
  sm2Data card1 = sm2Data card2 ->
  calculateNextReview tz card1 quality clk
  = calculateNextReview tz card2 quality clk.
Proof.
  intros H. unfold calculateNextReview, currentDataOf. rewrite H. reflexivity.
Qed.

Lemma calculateNextReview_noninterference_witness :
  newCard <> otherNewCard /\
  sm2Data newCard = sm2Data otherNewCard /\
  calculateNextReview utcZone newCard n3 (frozen T0)
  = calculateNextReview utcZone otherNewCard n3 (frozen T0).
Proof.
  split; [discriminate | split; [reflexivity |]].
  apply (calculateNextReview_noninterference utcZone newCard otherNewCard).
  reflexivity.
Defined.





(** For a binary64 quality, the clamped quality is one of 0, ..., 5 or
    NaN, so the correct branch is taken exactly for 3, 4 and 5. *)
Lemma clampQuality_correct_iff (quality : number) :
  wf quality = true ->
  (ge (clampQuality quality) n3 = true <->
   clampQuality quality = n3 \/ clampQuality quality = n4 \/
   clampQuality quality = n5).
Proof.
  intros Hwf. destruct (clampQuality_range quality Hwf)
    as [H|[H|[H|[H|[H|[H|H]]]]]]; rewrite H; split; intros K;
    try discriminate; try reflexivity; auto;
    destruct K as [K|[K|K]]; discriminate.
Qed.

Lemma clampQuality_incorrect_iff (quality : number) :
  wf quality = true ->
  (ge (clampQuality quality) n3 = false <->
   clampQuality quality = n0 \/ clampQuality quality = n1 \/
   clampQuality quality = n2 \/ clampQuality quality = NaN).
Proof.
  intros Hwf. destruct (clampQuality_range quality Hwf)
    as [H|[H|[H|[H|[H|[H|H]]]]]]; rewrite H; split; intros K;
    try discriminate; try reflexivity; auto;
    destruct K as [K|[K|[K|K]]]; discriminate.
Qed.

(** ** The ease-factor floor, for the engine *)

Lemma le_not_NaN (c x : number) : le c x = true -> isNaN x = false.
Proof.
  unfold le, SFleb. destruct x; try reflexivity.
  destruct c; simpl; discriminate.
Qed.

Lemma calculateNextReview_floor (tz : TimeZone) (card : FlashCard)
    (quality : number) (clk : Clock) :
  wf quality = true -> validEase card ->
  atLeast1_3 (easeFactor (fst (calculateNextReview tz card quality clk))).
Proof.
  intros Hq Hv.
  pose proof (calculateNextReview_fields tz card quality clk) as F.
  cbv zeta in F. injection F as Fe _ _. rewrite <- Fe.
  pose proof (currentDataOf_triple card clk) as T. cbv zeta in T.
  apply round2_floor, sm2Step_floor.
  - destruct (sm2Data card) as [data|] eqn:Hs.
    + rewrite T. apply (Hv data Hs).
    + destruct T as (-> & _). reflexivity.
  - destruct (sm2Data card) as [data|] eqn:Hs.
    + rewrite T. apply (Hv data Hs).
    + destruct T as (-> & _). reflexivity.
  - apply clampQuality_range. assumption.
Qed.

Lemma reviewAll_floor (tz : TimeZone) (rest : list number) :
  forall (card : FlashCard) (quality : number) (clk : Clock),
    wf quality = true -> Forall (fun q => wf q = true) rest -> validEase card ->
    exists data,
      sm2Data (fst (reviewAll tz card (quality :: rest) clk)) = Some data /\
      atLeast1_3 (easeFactor data).
Proof.
  induction rest as [|q rest IH]; intros card quality clk Hq Hrest Hv.
  - pose proof (calculateNextReview_floor tz card quality clk Hq Hv) as H.
    cbn [reviewAll]. unfold bind, ret.
    destruct (calculateNextReview tz card quality clk) as [r clk'].
    exists r. split; [reflexivity | exact H].
  - pose proof (calculateNextReview_floor tz card quality clk Hq Hv) as H.
    change (reviewAll tz card (quality :: q :: rest) clk)
      with (bind (calculateNextReview tz card quality)
              (fun r => reviewAll tz (updateCard card r) (q :: rest)) clk).
    unfold bind.
    destruct (calculateNextReview tz card quality clk) as [r clk'].
    cbn [fst] in H.
    apply IH.
    + exact (Forall_inv Hrest).
    + exact (Forall_inv_tail Hrest).
    + intros data [= <-]. split; [apply H | apply (le_not_NaN n1_3), H].
Qed.

(** Outside the range of the field: a prior ease factor that is NaN is
    handed on ([Math.max(1.3, NaN)] is NaN), and NaN is not [>= 1.3].  No
    result of the engine has such an ease factor. *)
Lemma easeFactor_floor_fails_for_NaN :
  le n1_3 (easeFactor (fst (calculateNextReview utcZone nanEaseCard n5
                              (frozen T0)))) = false.
Proof. reflexivity. Qed.

(** C4. The ease factor returned by [calculateNextReview] is at least 1.3,
    on both branches and after the rounding to two decimals, for every
    quality and every card without scheduling data or with a prior ease
    factor that is a number (any number: it need not be in the range
    [1.3, +inf) of the field, only NaN is excluded); and it still is after
    any further sequence of reviews, failures included. *)
Theorem easeFactor_floor
    (tz : TimeZone) (card : FlashCard) (quality : number)
    (rest : list number) (clk : Clock) :
  wf quality = true -> Forall (fun q => wf q = true) rest ->
  validEase card ->
  le n1_3 (easeFactor (fst (calculateNextReview tz card quality clk))) = true /\
  exists data,
    sm2Data (fst (reviewAll tz card (quality :: rest) clk)) = Some data /\
    le n1_3 (easeFactor data) = true.
Proof.
  intros Hq Hrest Hv. split.
  - apply (calculateNextReview_floor tz card quality clk Hq Hv).
  - destruct (reviewAll_floor tz rest card quality clk Hq Hrest Hv)
      as (data & Hd & Hf).
    exists data. split; [assumption | apply Hf].
Qed.

Lemma easeFactor_floor_witness :
  le n1_3 (easeFactor (fst (calculateNextReview utcZone hardCard n0 (frozen T0))))
  = true /\
  exists data,
    sm2Data (fst (reviewAll utcZone hardCard (n0 :: n1 :: n2 :: n0 :: nil)
                    (frozen T0))) = Some data /\
    le n1_3 (easeFactor data) = true.
Proof.
  apply (easeFactor_floor utcZone hardCard n0 (n1 :: n2 :: n0 :: nil) (frozen T0)).
  - reflexivity.
  - repeat constructor.
  - intros data [= <-]. split; reflexivity.
Defined.

(** The states that the engine returns satisfy the side conditions of the
    selector and of the forecast: the ease factor is truthy, and the
    [nextReview] is a valid time value or NaN. *)
Lemma calculateNextReview_nonzeroEase (tz : TimeZone) (card : FlashCard)
    (quality : number) (clk : Clock) :
  wf quality = true -> validEase card ->
  truthy (easeFactor (fst (calculateNextReview tz card quality clk))) = true.
Proof.
  intros Hq Hv.
  destruct (calculateNextReview_floor tz card quality clk Hq Hv) as [_ H].
  destruct (easeFactor (fst (calculateNextReview tz card quality clk)));
    try reflexivity; discriminate.
Qed.

Lemma calculateNextReview_validNextReview (tz : TimeZone) (card : FlashCard)
    (quality : number) (clk : Clock) :
  validNextReview (updateCard card (fst (calculateNextReview tz card quality clk))).
Proof.
  intros data [= <-]. unfold_eff.
  destruct (sm2Data card) as [d|]; simpl;
    match goal with |- context [sm2Step ?d ?q] =>
      destruct (sm2Step d q) as [[e i] r] end; simpl;
    match goal with |- context [getTime ?x] =>
      destruct x as [t|] eqn:Hd end; simpl; try discriminate;
    intros _; unfold ofNumber;
    rewrite (TimeClip_ofZ t (setDate_range _ _ _ _ Hd)); discriminate.
Qed.

(** ** Quality normalisation, for the engine *)

(** C7. [calculateNextReview] treats quality -5 as 0 and 99 as 5, and in
    general normalises every binary64 quality by rounding it to the nearest
    integer and clamping the integer to [0, 5]: the result for a quality
    that is not NaN is the result for that integer.  The function is
    total, so no quality makes it fail. *)
Theorem clampQuality_normalises
    (tz : TimeZone) (card : FlashCard) (quality : number) (clk : Clock) :
  wf quality = true ->
  fst (calculateNextReview tz card (ofZ (-5)) clk)
  = fst (calculateNextReview tz card (ofZ 0) clk) /\
  fst (calculateNextReview tz card (ofZ 99) clk)
  = fst (calculateNextReview tz card (ofZ 5) clk) /\
  clampQuality quality
  = match clampedInteger quality with Some k => ofZ k | None => NaN end /\
  (isNaN quality = false ->
   exists k, clampedInteger quality = Some k /\ 0 <= k <= 5 /\
     calculateNextReview tz card quality clk
     = calculateNextReview tz card (ofZ k) clk).
Proof.
  intros Hwf. split; [|split; [|split]].
  - unfold calculateNextReview.
    replace (clampQuality (ofZ (-5))) with (clampQuality (ofZ 0))
      by (vm_compute; reflexivity).
    reflexivity.
  - unfold calculateNextReview.
    replace (clampQuality (ofZ 99)) with (clampQuality (ofZ 5))
      by (vm_compute; reflexivity).
    reflexivity.
  - apply clampQuality_spec. assumption.
  - intros Hn.
    assert (Hk : exists k, clampedInteger quality = Some k /\ 0 <= k <= 5).
    { destruct quality as [s|s| |s m e]; try discriminate;
        eexists; (split; [reflexivity|]); try destruct s; lia. }
    destruct Hk as (k & Hk & Hr). exists k. split; [assumption | split; [assumption|]].
    unfold calculateNextReview. rewrite (clampQuality_spec quality Hwf), Hk.
    replace (clampQuality (ofZ k)) with (ofZ k); [reflexivity|].
    assert (k = 0 \/ k = 1 \/ k = 2 \/ k = 3 \/ k = 4 \/ k = 5) as K by lia.
    destruct K as [->|[->|[->|[->|[->| ->]]]]]; reflexivity.
Qed.

Lemma clampQuality_normalises_witness :
  clampQuality (decimal 37 10) = n4 /\ clampQuality (decimal (-5) 10) = n0 /\
  clampQuality (ofZ 99) = n5.
Proof.
  pose proof (clampQuality_normalises utcZone newCard (decimal 37 10) (frozen T0)
                eq_refl) as (_ & _ & H1 & _).
  pose proof (clampQuality_normalises utcZone newCard (decimal (-5) 10) (frozen T0)
                eq_refl) as (_ & _ & H2 & _).
  pose proof (clampQuality_normalises utcZone newCard (ofZ 99) (frozen T0)
                eq_refl) as (_ & _ & H3 & _).
  rewrite H1, H2, H3. repeat split.
Defined.

(** ** The Card Selector *)

(** The due test of the code: no scheduling data, a falsy [nextReview]
    (zero or NaN), or [nextReview <= now]. *)
Lemma getDueCards_eq (cards : list FlashCard) (clk : Clock) :
  fst (getDueCards cards clk)
  = List.filter (fun card => noNextReview card || nextReviewLe card (ofZ (clk O)))
      cards.
Proof.
  unfold_eff. cbn [fst]. apply filter_ext. intros card.
  destruct (noNextReview card); reflexivity.
Qed.

Lemma le_refl_ofZ (t : Z) : le (ofZ t) (ofZ t) = true.
Proof.
  destruct (ofZ_wf t) as [_ Hn]. unfold le, SFleb.
  destruct (ofZ t) as [s|s| |s m e]; try discriminate; simpl.
  - reflexivity.
  - destruct s; reflexivity.
  - rewrite Z.compare_refl, Pos.compare_cont_refl. destruct s; reflexivity.
Qed.

(** After sixteen perfect answers in a row the interval of a new card has
    grown beyond the range of [Date]: the engine itself returns NaN as
    [nextReview]. *)
Example nextReview_becomes_NaN :
  match sm2Data (fst (reviewAll utcZone newCard (repeat n5 16) (frozen T0))) with
  | Some data => nextReview data = NaN /\ interval data = ofZ 120864680
  | None => False
  end.
Proof. vm_compute. split; reflexivity. Qed.

(** The claim C5 as stated fails: a card whose scheduling state has the
    [nextReview] NaN is returned as due, although it has a state and
    [NaN <= now] is false. *)
Lemma getDueCards_not_dueBySpec :
  fst (getDueCards (invalidDateCard :: nil) (frozen T0))
  <> List.filter (dueBySpec (ofZ T0)) (invalidDateCard :: nil).
Proof. vm_compute. discriminate. Qed.

(** C5 (amended). [getDueCards] returns, in input order, exactly the cards
    that have no scheduling state, or whose [nextReview] is zero or NaN, or
    whose [nextReview] is [<= now]; the empty list gives the empty list,
    and a card whose [nextReview] equals [now] is included. *)
Theorem getDueCards_filter (cards : list FlashCard) (clk : Clock) :
  fst (getDueCards cards clk)
  = List.filter
      (fun c => match sm2Data c with
                | None => true
                | Some d => negb (truthy (nextReview d))
                            || le (nextReview d) (ofZ (clk O))
                end) cards /\
  fst (getDueCards nil clk) = nil /\
  (forall card data,
     In card cards -> sm2Data card = Some data ->
     nextReview data = ofZ (clk O) ->
     In card (fst (getDueCards cards clk))).
Proof.
  rewrite getDueCards_eq.
  split; [|split; [reflexivity|]].
  - apply filter_ext. intros c. unfold noNextReview, nextReviewLe.
    destruct (sm2Data c); reflexivity.
  - intros card data Hin Hs Hn. apply filter_In. split; [assumption|].
    unfold noNextReview, nextReviewLe. rewrite Hs, Hn, le_refl_ofZ.
    apply orb_true_r.
Qed.

Lemma getDueCards_filter_witness :
  fst (getDueCards (newCard :: laterCard :: dueCard :: invalidDateCard :: nil)
         (frozen T0))
  = newCard :: dueCard :: invalidDateCard :: nil /\
  In dueCard
    (fst (getDueCards (newCard :: laterCard :: dueCard :: invalidDateCard :: nil)
            (frozen T0))).
Proof.
  destruct (getDueCards_filter
              (newCard :: laterCard :: dueCard :: invalidDateCard :: nil)
              (frozen T0))
    as (H & _ & Hb).
  split.
  - rewrite H. reflexivity.
  - apply (Hb dueCard (sampleData n2_5 (ofZ T0))).
    + right. right. left. reflexivity.
    + reflexivity.
    + reflexivity.
Defined.

(** Under the conditions that rule the falsy values out (every stored
    [nextReview] is a number other than zero), the due test is the one of
    the specification. *)
Lemma getDueCards_dueBySpec (cards : list FlashCard) (clk : Clock) :
  (forall card data, In card cards -> sm2Data card = Some data ->
     truthy (nextReview data) = true) ->
  fst (getDueCards cards clk) = List.filter (dueBySpec (ofZ (clk O))) cards.
Proof.
  intros H. rewrite getDueCards_eq.
  induction cards as [|card cards IH]; [reflexivity|].
  cbn [List.filter]. rewrite IH by (intros c d Hc; apply H; right; assumption).
  unfold noNextReview, nextReviewLe, dueBySpec.
  destruct (sm2Data card) as [data|] eqn:Hs; [|reflexivity].
  rewrite (H card data (or_introl eq_refl) Hs). reflexivity.
Qed.

Lemma existsb_difficult (history : list ReviewHistory) :
  existsb isDifficultResponse history = true <->
  exists review, In review history /\
    (response review = unknown \/ response review = difficult).
Proof.
  rewrite existsb_exists. split; intros (review & Hin & H); exists review;
    (split; [assumption|]); unfold isDifficultResponse in *;
    destruct (response review); try discriminate; auto.
  destruct H; discriminate.
Qed.

(** Outside the range of the field: a due card whose ease factor is zero
    has an ease factor below 2.0, but the code, which tests
    [easeFactor && easeFactor < 2.0], does not return it. *)
Lemma getDifficultCards_not_lowEaseBySpec :
  ~ (In zeroEaseCard (fst (getDifficultCards (zeroEaseCard :: nil) (frozen T0)))
     <->
     In zeroEaseCard (zeroEaseCard :: nil) /\
     (hasDifficultHistory zeroEaseCard \/ lowEaseBySpec zeroEaseCard) /\
     In zeroEaseCard (fst (getDueCards (zeroEaseCard :: nil) (frozen T0)))).
Proof.
  assert (E : fst (getDifficultCards (zeroEaseCard :: nil) (frozen T0)) = nil)
    by reflexivity.
  rewrite E. intros [_ H]. apply H.
  split; [left; reflexivity | split].
  - right. exists (sampleData n0 (ofZ T0)). split; reflexivity.
  - left. reflexivity.
Qed.

(** The test of [getDifficultCards] on any card: it is returned exactly
    when it is one of the cards, has a review answered 'unknown' or
    'difficult' or a scheduling state with a nonzero ease factor below
    2.0, and is returned by [getDueCards] at the same time. *)
Theorem getDifficultCards_iff (cards : list FlashCard) (clk : Clock)
    (card : FlashCard) :
  In card (fst (getDifficultCards cards clk)) <->
  In card cards /\ (hasDifficultHistory card \/ hasLowEase card) /\
  In card (fst (getDueCards cards clk)).
Proof.
  rewrite getDueCards_eq. unfold_eff. cbn [fst].
  rewrite !filter_In.
  set (isDue := noNextReview card || nextReviewLe card (ofZ (clk O))).
  assert (Hh : (match reviewHistory card with
                | Some history => existsb isDifficultResponse history
                | None => false
                end) = true <-> hasDifficultHistory card).
  { unfold hasDifficultHistory. destruct (reviewHistory card) as [history|].
    - rewrite existsb_difficult. split.
      + intros (review & Hin & H). exists history, review. auto.
      + intros (h & review & [= <-] & Hin & H). exists review. auto.
    - split; [discriminate | intros (h & review & H & _); discriminate]. }
  assert (Hl : (match sm2Data card with
                | Some data => truthy (easeFactor data) && lt (easeFactor data) n2
                | None => false
                end) = true <-> hasLowEase card).
  { unfold hasLowEase. destruct (sm2Data card) as [data|] eqn:Hs.
    - rewrite andb_true_iff. split.
      + intros [H1 H2]. exists data. auto.
      + intros (d & [= <-] & H1 & H2). auto.
    - split; [discriminate | intros (d & H & _); discriminate]. }
  rewrite andb_true_iff, orb_true_iff, Hh, Hl. tauto.
Qed.

Lemma getDifficultCards_iff_witness :
  In hardCard (fst (getDifficultCards (newCard :: hardCard :: laterCard :: nil)
                      (frozen T0))) /\
  ~ In laterCard (fst (getDifficultCards (newCard :: hardCard :: laterCard :: nil)
                         (frozen T0))).
Proof.
  split.
  - refine (proj2 (getDifficultCards_iff (newCard :: hardCard :: laterCard :: nil)
                     (frozen T0) hardCard) _).
    split; [right; left; reflexivity | split].
    + right. eexists. split; [reflexivity | split; reflexivity].
    + right. left. reflexivity.
  - intros H.
    refine (_ (proj1 (getDifficultCards_iff (newCard :: hardCard :: laterCard :: nil)
                        (frozen T0) laterCard) H)).
    intros (_ & _ & [K | [K | []]]); discriminate.
Defined.

(** An ease factor of at least 1.3 is truthy. *)
Lemma atLeast1_3_truthy (x : number) : le n1_3 x = true -> truthy x = true.
Proof. destruct x; try reflexivity; discriminate. Qed.

(** C6. On a card whose scheduling state, if it has one, has an ease factor
    in the range of that field (at least 1.3), [getDifficultCards] returns
    the card exactly when it is one of the cards, has a review answered
    'unknown' or 'difficult' or a scheduling state with an ease factor
    below 2.0, and is returned by [getDueCards] at the same time; a card
    that meets the difficulty condition but is not due is excluded. *)
Theorem getDifficultCards_spec (cards : list FlashCard) (clk : Clock)
    (card : FlashCard) :
  (forall data, sm2Data card = Some data -> le n1_3 (easeFactor data) = true) ->
  (In card (fst (getDifficultCards cards clk)) <->
   In card cards /\ (hasDifficultHistory card \/ lowEaseBySpec card) /\
   In card (fst (getDueCards cards clk))) /\
  ((hasDifficultHistory card \/ lowEaseBySpec card) ->
   ~ In card (fst (getDueCards cards clk)) ->
   ~ In card (fst (getDifficultCards cards clk))).
Proof.
  intros Hease.
  assert (Hlow : lowEaseBySpec card <-> hasLowEase card).
  { unfold lowEaseBySpec, hasLowEase. split.
    - intros (data & Hs & Hlt). exists data.
      split; [exact Hs | split; [|exact Hlt]].
      apply atLeast1_3_truthy, Hease, Hs.
    - intros (data & Hs & _ & Hlt). exists data. split; assumption. }
  assert (Hiff : In card (fst (getDifficultCards cards clk)) <->
                 In card cards /\ (hasDifficultHistory card \/ lowEaseBySpec card) /\
                 In card (fst (getDueCards cards clk))).
  { rewrite Hlow. apply getDifficultCards_iff. }
  split; [exact Hiff|].
  intros _ Hnot Hin. apply Hnot. apply Hiff in Hin. tauto.
Qed.

Lemma getDifficultCards_spec_witness :
  (In hardCard (fst (getDifficultCards (newCard :: hardCard :: laterCard :: nil)
                       (frozen T0))) <->
   In hardCard (newCard :: hardCard :: laterCard :: nil) /\
   (hasDifficultHistory hardCard \/ lowEaseBySpec hardCard) /\
   In hardCard (fst (getDueCards (newCard :: hardCard :: laterCard :: nil)
                       (frozen T0)))) /\
  ~ In laterCard (fst (getDifficultCards (newCard :: hardCard :: laterCard :: nil)
                         (frozen T0))).
Proof.
  split.
  - apply (getDifficultCards_spec (newCard :: hardCard :: laterCard :: nil)
             (frozen T0) hardCard).
    intros data [= <-]. reflexivity.
  - apply (getDifficultCards_spec (newCard :: hardCard :: laterCard :: nil)
             (frozen T0) laterCard).
    + intros data [= <-]. reflexivity.
    + right. eexists. split; [reflexivity | reflexivity].
    + intros K. vm_compute in K. destruct K as [K | [K | []]]; discriminate.
Defined.

(** A difficult card that is not due is excluded. *)
Lemma getDifficultCards_due (cards : list FlashCard) (clk : Clock)
    (card : FlashCard) :
  ~ In card (fst (getDueCards cards clk)) ->
  ~ In card (fst (getDifficultCards cards clk)).
Proof.
  rewrite getDueCards_eq. unfold_eff. cbn [fst]. rewrite !filter_In.
  intros Hn [Hin H]. apply Hn. split; [assumption|].
  apply andb_prop in H as [_ H]. exact H.
Qed.

(** ** Statistics *)

Lemma ofNat_truthy (n : nat) :
  (0 < n)%nat -> Z.of_nat n < 2 ^ 53 -> truthy (ofNat n) = true.
Proof.
  intros Hn Hb. unfold ofNat.
  destruct (Z.of_nat n) as [|p|p] eqn:Hp; [lia| |lia].
  destruct (ofZ_pos p Hb) as (M & _ & ->). reflexivity.
Qed.

(** C9. [getStudyStats] on no cards reports total 0, mastery 0 and the
    default average ease 2.5.  In general the mastery percentage is
    [Math.round(mastered / total * 100)] when there are cards and 0 when
    there are none, the average ease is 2.5 when no card has scheduling
    data, and both divisions are only made by a nonzero count. *)
Theorem getStudyStats_defaults (cards : list FlashCard) (clk : Clock) :
  let stats := fst (getStudyStats cards clk) in
  let empty := fst (getStudyStats nil clk) in
  let cardsWithEase := List.filter (hasTruthy easeFactor) cards in
  (total empty = O /\ masteryPercentage empty = n0 /\ avgEaseFactor empty = n2_5) /\
  total stats = length cards /\
  mastered stats = length (List.filter isMastered cards) /\
  masteryPercentage stats =
    (if (0 <? total stats)%nat
     then Math_round (mul (div (ofNat (mastered stats)) (ofNat (total stats))) n100)
     else n0) /\
  ((forall card, In card cards -> sm2Data card = None) ->
   avgEaseFactor stats = n2_5) /\
  avgEaseFactor stats =
    round2 (if (0 <? length cardsWithEase)%nat
            then div (fold_left (fun sum card => add sum (easeOf card))
                        cardsWithEase n0)
                     (ofNat (length cardsWithEase))
            else n2_5) /\
  (Z.of_nat (length cards) < 2 ^ 53 ->
   ((0 <? total stats)%nat = true -> truthy (ofNat (total stats)) = true) /\
   ((0 <? length cardsWithEase)%nat = true ->
    truthy (ofNat (length cardsWithEase)) = true)).
Proof.
  cbv zeta. unfold_eff. cbn [fst total mastered masteryPercentage avgEaseFactor].
  repeat split.
  - intros Hnone.
    replace (List.filter (hasTruthy easeFactor) cards) with (@nil FlashCard);
      [reflexivity|].
    symmetry. induction cards as [|card cards IH]; [reflexivity|].
    cbn [List.filter]. unfold hasTruthy at 1.
    rewrite (Hnone card (or_introl eq_refl)).
    apply IH. intros c Hc. apply Hnone. right. assumption.
  - intros Hpos. apply ofNat_truthy; [apply Nat.ltb_lt; assumption | assumption].
  - intros Hpos. apply ofNat_truthy; [apply Nat.ltb_lt; assumption|].
    pose proof (filter_length_le (hasTruthy easeFactor) cards). lia.
Qed.

Lemma getStudyStats_defaults_witness :
  let stats := fst (getStudyStats (newCard :: otherNewCard :: nil) (frozen T0)) in
  total stats = 2%nat /\ masteryPercentage stats = n0 /\
  avgEaseFactor stats = n2_5 /\ truthy (ofNat (total stats)) = true.
Proof.
  pose proof (getStudyStats_defaults (newCard :: otherNewCard :: nil) (frozen T0))
    as (_ & Ht & Hm & Hp & Ha & _ & Hd).
  cbv zeta in *. rewrite Hp, Ht, Hm.
  split; [reflexivity | split; [reflexivity | split]].
  - apply Ha. intros card [<- | [<- | []]]; reflexivity.
  - apply Hd; reflexivity.
Defined.

(** ** The forecast *)

Lemma buildSchedule_in_range (t0 days : Z) :
  1 <= days -> - maxTime <= t0 -> t0 + (days - 1) * msPerDay <= maxTime ->
  inRange (Day t0) (Z.to_nat days) 0.
Proof.
  intros Hd Hlo Hhi j Hj. rewrite <- Day_shift. apply Day_range.
  unfold maxTime, msPerDay in *. lia.
Qed.

(** A daylight-saving transition breaks the forecast: in New York on the
    evening before the clocks go forward (2024-03-10T00:30Z), the local
    dates of two consecutive days fall on the same UTC date, and the
    forecast for two days has a single entry. *)
Example forecast_across_transition :
  fst (getUpcomingReviews newYork2024 nil 2 (frozen T0))
  = Some {[ "2024-03-10"%string := O ]}.
Proof. vm_compute. reflexivity. Qed.

(** C8 does not hold on a host with daylight saving time.  In New York on
    the evening before the clocks go forward (2024-03-10T00:30Z, 19:30
    local time on 9 March), the forecast for seven days over a deck whose
    [nextReview] values are all valid has six entries: the loop steps
    local days and the keys are UTC dates, so that the first two
    iterations write the same key "2024-03-10", and the seventh date,
    "2024-03-16", gets no entry. *)
Theorem getUpcomingReviews_misses_day_across_transition :
  Forall validNextReview (newCard :: dueCard :: laterCard :: nil) /\
  exists schedule,
    fst (getUpcomingReviews newYork2024 (newCard :: dueCard :: laterCard :: nil) 7
           (frozen T0)) = Some schedule /\
    size schedule = 6%nat /\
    schedule !! "2024-03-10"%string = Some 1%nat /\
    schedule !! "2024-03-15"%string = Some 0%nat /\
    schedule !! "2024-03-16"%string = None.
Proof.
  split.
  - repeat constructor; intros data [= <-]; vm_compute; discriminate.
  - eexists. split; [vm_compute; reflexivity|].
    repeat split; vm_compute; reflexivity.
Qed.

(** A [nextReview] beyond the range of time values makes [toISOString]
    throw, and no schedule is returned.  No result of the engine has such
    a [nextReview]. *)
Lemma getUpcomingReviews_throws_on_invalid_date :
  ~ exists schedule,
      fst (getUpcomingReviews utcZone (infiniteDateCard :: nil) 7 (frozen T0))
      = Some schedule /\ size schedule = 7%nat.
Proof.
  assert (K : fst (getUpcomingReviews utcZone (infiniteDateCard :: nil) 7
                     (frozen T0)) = None) by (vm_compute; reflexivity).
  intros (schedule & H & _).
  exact (eq_ind None (fun o => match o with None => True | Some _ => False end)
           I _ (eq_trans (eq_sym K) H)).
Qed.

(** So does a day beyond the last date, 13 September 275760. *)
Example getUpcomingReviews_throws_beyond_last_date :
  fst (getUpcomingReviews utcZone nil 2 (frozen maxTime)) = None.
Proof. vm_compute. reflexivity. Qed.

(** On a host whose zone has a fixed offset (such as UTC), for cards
    whose [nextReview] is a valid time value wherever it is set, and for
    [days >= 1] days that are representable dates, [getUpcomingReviews]
    returns a schedule with exactly [days] entries, one for each UTC
    calendar date from today on; each entry counts the cards whose
    [nextReview] falls on that date (zero if there are none), cards
    without scheduling data are counted nowhere, and the counts sum to at
    most the number of cards that have scheduling data. *)
Theorem getUpcomingReviews_forecast
    (tz : TimeZone) (cards : list FlashCard) (days : Z) (clk : Clock) :
  fixedOffset tz -> Forall validNextReview cards ->
  1 <= days ->
  - maxTime <= clk O -> clk O + (days - 1) * msPerDay <= maxTime ->
  exists schedule,
    fst (getUpcomingReviews tz cards days clk) = Some schedule /\
    size schedule = Z.to_nat days /\
    (forall i, 0 <= i < days ->
       schedule !! isoDate (Day (clk O) + i)
       = Some (reviewsOn (Day (clk O) + i) cards)) /\
    (forall key, is_Some (schedule !! key) ->
       exists i, 0 <= i < days /\ key = isoDate (Day (clk O) + i)) /\
    (forall card d, sm2Data card = None -> isScheduledOn d card = false) /\
    (totalReviews schedule <= length (List.filter hasState cards))%nat.
Proof.
  intros Htz Hv Hd Hlo Hhi.
  pose proof (buildSchedule_in_range (clk O) days Hd Hlo Hhi) as Hr.
  assert (Hu : unscheduled (Day (clk O)) (Z.to_nat days) 0 ∅)
    by (intros j _; apply lookup_empty).
  exists (buildSchedule (Day (clk O)) cards (Z.to_nat days) 0 ∅).
  split; [|split; [|split; [|split; [|split]]]].
  - unfold_eff. cbn [fst].
    unfold TimeClipZ.
    destruct (Z.leb_spec (Z.abs (clk O)) maxTime) as [_|Hbad];
      [|unfold maxTime, msPerDay in *; lia].
    apply forecast_buildSchedule; [exact Htz | exact Hv | lia | exact Hlo |].
    rewrite Z2Nat.id by lia. unfold maxTime, msPerDay in *. lia.
  - rewrite buildSchedule_size by assumption. rewrite map_size_empty. lia.
  - intros i Hi. apply buildSchedule_lookup; [assumption | lia].
  - intros key Hk. apply buildSchedule_dom in Hk as [Hk | (j & Hj & ->)].
    + rewrite lookup_empty in Hk. destruct Hk; discriminate.
    + exists j. split; [lia | reflexivity].
  - intros card d Hs. unfold isScheduledOn, scheduledDay. rewrite Hs. reflexivity.
  - rewrite buildSchedule_total by assumption.
    unfold totalReviews at 1. rewrite map_fold_empty. apply sumReviews_le.
Qed.

Lemma getUpcomingReviews_forecast_witness :
  exists schedule,
    fst (getUpcomingReviews utcZone (newCard :: dueCard :: laterCard :: nil) 7
           (frozen T0)) = Some schedule /\
    size schedule = 7%nat /\
    schedule !! "2024-03-10"%string = Some 1%nat /\
    schedule !! "2024-03-11"%string = Some 1%nat /\
    schedule !! "2024-03-16"%string = Some 0%nat.
Proof.
  destruct (getUpcomingReviews_forecast utcZone
              (newCard :: dueCard :: laterCard :: nil) 7 (frozen T0))
    as (schedule & Hs & Hsize & Hl & _).
  - exists 0. intros t. split; reflexivity.
  - repeat constructor; intros data [= <-]; vm_compute; discriminate.
  - lia.
  - vm_compute. discriminate.
  - vm_compute. discriminate.
  - exists schedule. split; [exact Hs | split; [exact Hsize |]].
    split; [exact (Hl 0 ltac:(lia)) | split].
    + exact (Hl 1 ltac:(lia)).
    + exact (Hl 6 ltac:(lia)).
Defined.

(** The order of two mantissas at the same exponent, in terms of [Z]. *)
Lemma compare_cont_spec (a b : positive) :
  Pos.compare_cont Eq a b = (Zpos a ?= Zpos b).
Proof. reflexivity. Qed.

Lemma le_trans (x y z : number) :
  le x y = true -> le y z = true -> le x z = true.
Proof.
  unfold le, SFleb.
  destruct x as [sx|sx| |sx mx ex], y as [sy|sy| |sy my ey], z as [sz|sz| |sz mz ez];
    try destruct sx; try destruct sy; try destruct sz;
    cbn [SFcompare]; try reflexivity; try discriminate;
    rewrite !compare_cont_spec;
    destruct (Z.compare_spec ex ey), (Z.compare_spec ey ez), (Z.compare_spec ex ez);
    try lia; try reflexivity; try discriminate;
    destruct (Z.compare_spec (Zpos mx) (Zpos my)),
      (Z.compare_spec (Zpos my) (Zpos mz)),
      (Z.compare_spec (Zpos mx) (Zpos mz));
    cbn [CompOpp]; try reflexivity; try discriminate; lia.
Qed.

Lemma pow2_mono (a b : Z) : 0 <= a <= b -> 2 ^ a <= 2 ^ b.
Proof. intros H. apply Z.pow_le_mono_r; lia. Qed.

(** The order of two integers from the digits and mantissas of their
    Number values. *)
Lemma ofZ_pos_compare (a b : positive) (Ma Mb : positive) :
  Zpos Ma = Zpos a * 2 ^ (53 - Zpos (digits2_pos a)) ->
  Zpos Mb = Zpos b * 2 ^ (53 - Zpos (digits2_pos b)) ->
  Zpos (digits2_pos a) <= 53 -> Zpos (digits2_pos b) <= 53 ->
  match Zpos (digits2_pos a) - 53 ?= Zpos (digits2_pos b) - 53 with
  | Lt => Lt
  | Gt => Gt
  | Eq => Pos.compare_cont Eq Ma Mb
  end = (Zpos a ?= Zpos b).
Proof.
  intros HMa HMb Ha Hb.
  pose proof (digits2_pos_bounds a) as Da. pose proof (digits2_pos_bounds b) as Db.
  set (da := Zpos (digits2_pos a)) in *. set (db := Zpos (digits2_pos b)) in *.
  assert (0 < da) by (subst da; lia). assert (0 < db) by (subst db; lia).
  destruct (Z.compare_spec (da - 53) (db - 53)) as [E|L|G].
  - rewrite compare_cont_spec, HMa, HMb.
    replace db with da by lia.
    assert (0 < 2 ^ (53 - da)) by (apply Z.pow_pos_nonneg; lia).
    destruct (Z.compare_spec (Zpos a) (Zpos b)) as [E'|L'|G'].
    + rewrite E'. apply Z.compare_refl.
    + apply Z.compare_lt_iff. nia.
    + apply Z.compare_gt_iff. nia.
  - symmetry. apply Z.compare_lt_iff.
    pose proof (pow2_mono da (db - 1) ltac:(lia)). lia.
  - symmetry. apply Z.compare_gt_iff.
    pose proof (pow2_mono db (da - 1) ltac:(lia)). lia.
Qed.

Lemma le_ofZ (a b : Z) :
  Z.abs a < 2 ^ 53 -> Z.abs b < 2 ^ 53 -> le (ofZ a) (ofZ b) = (a <=? b).
Proof.
  intros Ha Hb. unfold le, SFleb, Z.leb.
  destruct a as [|a|a], b as [|b|b];
    try (destruct (ofZ_pos a ltac:(lia)) as (Ma & HMa & ->));
    try (destruct (ofZ_neg a ltac:(lia)) as (Ma & HMa & ->));
    try (destruct (ofZ_pos b ltac:(lia)) as (Mb & HMb & ->));
    try (destruct (ofZ_neg b ltac:(lia)) as (Mb & HMb & ->));
    try reflexivity.
  - cbn [SFcompare].
    rewrite (ofZ_pos_compare a b Ma Mb HMa HMb)
      by (apply digits_le_53; lia).
    reflexivity.
  - cbn [SFcompare].
    pose proof (ofZ_pos_compare a b Ma Mb HMa HMb
                  ltac:(apply digits_le_53; lia) ltac:(apply digits_le_53; lia)) as C.
    change (Z.neg a ?= Z.neg b) with (CompOpp (Zpos a ?= Zpos b)).
    rewrite <- C.
    destruct (Zpos (digits2_pos a) - 53 ?= Zpos (digits2_pos b) - 53);
      reflexivity.
Qed.

Lemma truthy_ofZ (t : Z) :
  Z.abs t < 2 ^ 53 -> truthy (ofZ t) = negb (t =? 0).
Proof.
  intros Ht. destruct t as [|p|p].
  - reflexivity.
  - destruct (ofZ_pos p ltac:(lia)) as (M & _ & ->). reflexivity.
  - destruct (ofZ_neg p ltac:(lia)) as (M & _ & ->). reflexivity.
Qed.

(** The two timestamps of a result: [nextReview] is the time value of
    [new Date()] moved by [interval] days, [lastReviewed] is the reading
    of the clock after that. *)
Lemma calculateNextReview_times (tz : TimeZone) (card : FlashCard)
    (quality : number) (clk : Clock) :
  let r := fst (calculateNextReview tz card quality clk) in
  let today := TimeClipZ (clk (readsBefore card)) in
  nextReview r = getTime (setDate tz today (add (getDate tz today) (interval r))) /\
  lastReviewed r = ofZ (clk (S (readsBefore card))).
Proof.
  unfold_eff. unfold readsBefore.
  destruct (sm2Data card) as [data|]; simpl;
    match goal with |- context [sm2Step ?d ?q] =>
      destruct (sm2Step d q) as [[e i] r] end; simpl; split; reflexivity.
Qed.

Lemma nextReview_after_interval (tz : TimeZone) (card : FlashCard)
    (quality : number) (clk : Clock) (i : Z) :
  let r := fst (calculateNextReview tz card quality clk) in
  let t := clk (readsBefore card) in
  fixedOffset tz -> Z.abs t <= maxTime ->
  interval r = ofZ i -> 0 <= i < 2 ^ 52 ->
  nextReview r = (if Z.abs (t + i * msPerDay) <=? maxTime
                  then ofZ (t + i * msPerDay) else NaN).
Proof.
  intros r t Htz Ht Hi Hr.
  destruct (calculateNextReview_times tz card quality clk) as [Hn _].
  fold r in Hn. rewrite Hn, Hi. fold t.
  rewrite (TimeClipZ_valid t Ht), setDate_add_days by assumption.
  unfold TimeClipZ. destruct (Z.abs (t + i * msPerDay) <=? maxTime); reflexivity.
Qed.

(** The shape of a number that is at least 1. *)
Lemma atLeast1_cases (x : number) :
  atLeast1 x ->
  x = Infinity \/
  exists m e, x = S754_finite false m e /\
    canonical_mantissa prec emax m e = true /\
    Zpos (digits2_pos m) = 53 /\ -52 <= e <= 971.
Proof.
  intros [Hwf Hle]. unfold le, SFleb, n1 in Hle.
  destruct x as [s|s| |s m e];
    [ destruct s; discriminate
    | destruct s; [discriminate | left; reflexivity]
    | discriminate
    | ].
  destruct s; [discriminate|]. right. exists m, e.
  unfold wf, valid_binary, bounded in Hwf. apply andb_prop in Hwf as [Hc He].
  apply Z.leb_le in He. change (emax - prec) with 971 in He.
  cbv beta iota delta [SFcompare] in Hle.
  destruct (Z.compare_spec (-52) e) as [Heq|Hlt|Hgt]; try discriminate.
  - subst e. repeat split; try assumption; try lia.
    apply (canonical_normal m (-52) Hc); lia.
  - repeat split; try assumption; try lia.
    apply (canonical_normal m e Hc); lia.
Qed.

Lemma normal_atLeast1 (m : positive) (e : Z) :
  canonical_mantissa prec emax m e = true ->
  Zpos (digits2_pos m) = 53 -> -52 <= e <= 971 ->
  atLeast1 (S754_finite false m e).
Proof.
  intros Hc Hd He. split.
  - unfold wf, valid_binary, bounded. rewrite Hc. apply Z.leb_le.
    change (emax - prec) with 971. lia.
  - unfold le, SFleb, n1. cbv beta iota delta [SFcompare].
    destruct (Z.compare_spec (-52) e) as [Heq|Hlt|Hgt]; [|reflexivity|lia].
    rewrite compare_cont_spec.
    pose proof (digits2_pos_bounds m) as [Dlo _]. rewrite Hd in Dlo.
    change (2 ^ (53 - 1)) with 4503599627370496 in Dlo.
    destruct (Z.compare_spec 4503599627370496 (Zpos m)); [reflexivity | reflexivity | lia].
Qed.

Lemma canonical_of_digits (m : positive) (e : Z) :
  Zpos (digits2_pos m) = 53 -> -1074 <= e ->
  canonical_mantissa prec emax m e = true.
Proof.
  intros Hd He. unfold canonical_mantissa. rewrite fexp_eq, Hd.
  apply Z.eqb_eq. lia.
Qed.

(** The Number value of an integer that is a binary64 number. *)
Lemma ofZ_integral (M : positive) (E : Z) :
  Zpos (digits2_pos M) = 53 -> 0 <= E <= 971 ->
  ofZ (Zpos M * 2 ^ E) = S754_finite false M E.
Proof.
  intros Hd HE.
  assert (P : 0 < 2 ^ E) by (apply Z.pow_pos_nonneg; lia).
  destruct (Zpos M * 2 ^ E) as [|p|p] eqn:Hp; [lia| |lia].
  unfold ofZ, binary_normalize, binary_round.
  pose proof (shl_align_spec p 0 (fexp prec emax (Zpos (digits2_pos p) + 0))) as A.
  destruct (shl_align p 0 (fexp prec emax (Zpos (digits2_pos p) + 0))) as [mz ez].
  destruct A as [Hez Hmz].
  rewrite (digits_shift M p E) in Hez by lia.
  rewrite fexp_eq, Hd in Hez.
  assert (ez = 0) by lia. clear Hez. subst ez.
  assert (Hmz' : Zpos mz = Zpos p) by (rewrite Hmz; simpl; lia).
  rewrite Hmz', <- Hp.
  pose proof (binary_round_aux_shifted false M 0 E ltac:(lia)
                (canonical_of_digits M (0 + E) Hd ltac:(lia))) as B.
  rewrite B. replace (0 + E) with E by lia.
  destruct (Z.leb_spec E 971); [reflexivity | lia].
Qed.

(** The product of two numbers that are at least 1 is at least 1 (or
    overflows to Infinity). *)
Lemma mul_atLeast1 (x y : number) :
  atLeast1 x -> atLeast1 y -> atLeast1 (mul x y).
Proof.
  intros Hx Hy.
  destruct (atLeast1_cases x Hx) as [-> | (m1 & e1 & -> & _ & Hd1 & He1)];
    destruct (atLeast1_cases y Hy) as [-> | (m2 & e2 & -> & _ & Hd2 & He2)];
    try (split; reflexivity).
  pose proof (digits2_pos_bounds m1) as [D1lo D1hi]. rewrite Hd1 in D1lo, D1hi.
  pose proof (digits2_pos_bounds m2) as [D2lo D2hi]. rewrite Hd2 in D2lo, D2hi.
  change (2 ^ (53 - 1)) with 4503599627370496 in *.
  change (2 ^ 53) with 9007199254740992 in *.
  unfold mul, SFmul. cbn [xorb].
  set (p := (m1 * m2)%positive).
  assert (Hp : Zpos p = Zpos m1 * Zpos m2) by reflexivity.
  pose proof (digits2_pos_bounds p) as [Plo Phi].
  set (dp := Zpos (digits2_pos p)) in *.
  assert (Hdp : dp = 105 \/ dp = 106).
  { destruct (Z_lt_le_dec dp 105) as [H1|H1].
    - assert (2 ^ dp <= 2 ^ 104) by (apply Z.pow_le_mono_r; unfold dp; lia).
      change (2 ^ 104) with 20282409603651670423947251286016 in *. nia.
    - destruct (Z_lt_le_dec 106 dp) as [H2|H2]; [|lia].
      assert (2 ^ 106 <= 2 ^ (dp - 1)) by (apply Z.pow_le_mono_r; lia).
      change (2 ^ 106) with 81129638414606681695789005144064 in *. nia. }
  pose proof (binary_round_aux_shape false p (e1 + e2) loc_Exact) as S.
  cbv zeta in S. fold dp in S. rewrite fexp_eq in S.
  replace (Z.max (dp + (e1 + e2) - 53) (-1074)) with (e1 + e2 + dp - 53) in S by lia.
  specialize (S ltac:(lia)).
  replace (e1 + e2 + dp - 53 - (e1 + e2)) with (dp - 53) in S by lia.
  pose proof (rounded_wf _ _ _ _ S) as [Hwf _].
  apply rounded_normal in S.
  - destruct S as [-> | (M & E' & -> & HdM & HE' & HM)]; [split; reflexivity|].
    apply normal_atLeast1; [|assumption|lia].
    apply canonical_of_digits; [assumption | lia].
  - apply Z.div_le_lower_bound; [apply Z.pow_pos_nonneg; lia|].
    rewrite <- Z.pow_add_r by lia.
    replace (dp - 53 + 52) with (dp - 1) by lia. assumption.
Qed.

Lemma ofZ_atLeast1 (i : Z) : 1 <= i < 2 ^ 53 -> atLeast1 (ofZ i).
Proof.
  intros Hi. split; [apply ofZ_wf|].
  change n1 with (ofZ 1). rewrite le_ofZ by (simpl; lia). apply Z.leb_le. lia.
Qed.

(** Rounding a number that is at least 1 gives Infinity or a positive
    integer. *)
Lemma Math_round_atLeast1 (x : number) :
  atLeast1 x ->
  atLeast1 (Math_round x) /\
  (Math_round x = Infinity \/ exists i, 1 <= i /\ Math_round x = ofZ i).
Proof.
  intros Hx.
  destruct (atLeast1_cases x Hx) as [-> | (m & e & -> & Hc & Hd & He)];
    [split; [split; reflexivity | left; reflexivity] |].
  pose proof (digits2_pos_bounds m) as [Dlo Dhi]. rewrite Hd in Dlo, Dhi.
  change (2 ^ (53 - 1)) with 4503599627370496 in Dlo.
  destruct e as [|e|k].
  - split; [exact Hx | right].
    exists (Zpos m * 2 ^ 0). split; [simpl; lia|].
    rewrite ofZ_integral by (assumption || lia). reflexivity.
  - split; [exact Hx | right].
    exists (Zpos m * 2 ^ Zpos e).
    assert (0 < 2 ^ Zpos e) by (apply Z.pow_pos_nonneg; lia).
    split; [nia|].
    rewrite ofZ_integral by (assumption || lia). reflexivity.
  - pose proof (roundHalfUp_bounds false m k Dhi) as [Hb Hlo]. cbv zeta in Hb, Hlo.
    specialize (Hlo eq_refl).
    assert (H1 : 1 <= Zpos m / 2 ^ Zpos k).
    { apply Z.div_le_lower_bound; [apply Z.pow_pos_nonneg; lia|].
      assert (2 ^ Zpos k <= 2 ^ 52) by (apply Z.pow_le_mono_r; lia).
      change (2 ^ 52) with 4503599627370496 in *. lia. }
    unfold Math_round.
    destruct (roundHalfUp false m (Zneg k)) as [|p|p] eqn:Hn; [lia| |lia].
    change (2 ^ 52) with 4503599627370496 in Hb.
    split; [apply ofZ_atLeast1; change (2 ^ 53) with 9007199254740992; lia | right].
    exists (Zpos p). split; [lia | reflexivity].
Qed.

Lemma atLeast1_3_atLeast1 (x : number) : atLeast1_3 x -> atLeast1 x.
Proof.
  intros [Hwf Hle]. split; [assumption|].
  apply (le_trans n1 n1_3 x); [reflexivity | assumption].
Qed.

(** The interval computed by [sm2Step] is a whole number of days, at
    least one, or Infinity. *)
Lemma sm2Step_interval (data : SM2Data) (q : number) :
  atLeast1 (interval data) -> atLeast1 (easeFactor data) ->
  let i := snd (fst (sm2Step data q)) in
  atLeast1 i /\ (i = Infinity \/ exists k, 1 <= k /\ i = ofZ k).
Proof.
  intros Hi He. unfold sm2Step.
  assert (H1 : atLeast1 n1 /\ (n1 = Infinity \/ exists k, 1 <= k /\ n1 = ofZ k)).
  { split; [split; reflexivity | right; exists 1; split; [lia | reflexivity]]. }
  assert (H6 : atLeast1 n6 /\ (n6 = Infinity \/ exists k, 1 <= k /\ n6 = ofZ k)).
  { split; [split; reflexivity | right; exists 6; split; [lia | reflexivity]]. }
  destruct (ge q n3); cbn [fst snd]; [|exact H1].
  destruct (strictEq (add (repetitions data) n1) n1); [exact H1|].
  destruct (strictEq (add (repetitions data) n1) n2); [exact H6|].
  apply Math_round_atLeast1, mul_atLeast1; assumption.
Qed.

Lemma calculateNextReview_interval (tz : TimeZone) (card : FlashCard)
    (quality : number) (clk : Clock) :
  engineState card ->
  let r := fst (calculateNextReview tz card quality clk) in
  atLeast1 (interval r) /\
  (interval r = Infinity \/ exists k, 1 <= k /\ interval r = ofZ k).
Proof.
  intros Hs.
  pose proof (calculateNextReview_fields tz card quality clk) as F.
  cbv zeta in F. injection F as _ Fi _. cbv zeta. rewrite <- Fi.
  pose proof (currentDataOf_triple card clk) as T. cbv zeta in T.
  apply sm2Step_interval.
  - destruct (sm2Data card) as [data|] eqn:Hd.
    + rewrite T. apply (Hs data Hd).
    + destruct T as (_ & -> & _). split; reflexivity.
  - destruct (sm2Data card) as [data|] eqn:Hd.
    + rewrite T. apply atLeast1_3_atLeast1, (Hs data Hd).
    + destruct T as (-> & _). split; reflexivity.
Qed.

Lemma engineState_validEase (card : FlashCard) : engineState card -> validEase card.
Proof.
  intros Hs data Hd. destruct (Hs data Hd) as [[Hwf Hle] _].
  split; [assumption | apply (le_not_NaN n1_3), Hle].
Qed.

Lemma calculateNextReview_engineState (tz : TimeZone) (card : FlashCard)
    (quality : number) (clk : Clock) :
  wf quality = true -> engineState card ->
  engineState (updateCard card (fst (calculateNextReview tz card quality clk))).
Proof.
  intros Hq Hs data [= <-]. split.
  - apply calculateNextReview_floor; [assumption | apply engineState_validEase, Hs].
  - apply calculateNextReview_interval, Hs.
Qed.

Lemma reviewAll_engineState (tz : TimeZone) (qualities : list number) :
  forall (card : FlashCard) (clk : Clock),
    Forall (fun q => wf q = true) qualities -> engineState card ->
    engineState (fst (reviewAll tz card qualities clk)).
Proof.
  induction qualities as [|q rest IH]; intros card clk Hq Hs.
  - exact Hs.
  - change (reviewAll tz card (q :: rest) clk)
      with (bind (calculateNextReview tz card q)
              (fun r => reviewAll tz (updateCard card r) rest) clk).
    unfold bind.
    pose proof (calculateNextReview_engineState tz card q clk (Forall_inv Hq) Hs) as H.
    destruct (calculateNextReview tz card q clk) as [r clk'].
    apply IH; [exact (Forall_inv_tail Hq) | exact H].
Qed.

(** The interval is a whole number of days, at least one, or Infinity: for
    a card that was never reviewed, and from then on after every review. *)
Theorem interval_at_least_one_day
    (tz : TimeZone) (card : FlashCard) (qualities : list number)
    (quality : number) (clk : Clock) :
  Forall (fun q => wf q = true) qualities -> wf quality = true ->
  engineState card ->
  let card' := fst (reviewAll tz card qualities clk) in
  let r := fst (calculateNextReview tz card' quality clk) in
  le n1 (interval r) = true /\
  (interval r = Infinity \/ exists k, 1 <= k /\ interval r = ofZ k) /\
  engineState (updateCard card' r).
Proof.
  intros Hqs Hq Hs card' r.
  pose proof (reviewAll_engineState tz qualities card clk Hqs Hs) as Hs'.
  fold card' in Hs'.
  destruct (calculateNextReview_interval tz card' quality clk Hs') as [[_ H1] H2].
  split; [exact H1 | split; [exact H2|]].
  apply calculateNextReview_engineState; assumption.
Qed.

Lemma interval_at_least_one_day_witness :
  let card' := fst (reviewAll utcZone newCard (n5 :: n5 :: n3 :: nil) (frozen T0)) in
  let r := fst (calculateNextReview utcZone card' n4 (frozen T0)) in
  le n1 (interval r) = true /\ interval r = ofZ 41.
Proof.
  pose proof (interval_at_least_one_day utcZone newCard (n5 :: n5 :: n3 :: nil) n4
                (frozen T0)) as H.
  cbv zeta in H.
  destruct H as (H1 & _ & _).
  - repeat constructor.
  - reflexivity.
  - intros data [=].
  - split; [exact H1 | vm_compute; reflexivity].
Defined.

Lemma getDueCards_isDue (cards : list FlashCard) (clk : Clock) :
  fst (getDueCards cards clk) = List.filter (isDue (ofZ (clk O))) cards.
Proof. apply getDueCards_eq. Qed.

Lemma maxTime_lt_pow53 (t : Z) : Z.abs t <= maxTime -> Z.abs t < 2 ^ 53.
Proof. unfold maxTime. change (2 ^ 53) with 9007199254740992. lia. Qed.

(** A card that is due stays due as time passes. *)
Lemma isDue_later (t1 t2 : Z) (card : FlashCard) :
  Z.abs t1 <= maxTime -> Z.abs t2 <= maxTime -> t1 <= t2 ->
  isDue (ofZ t1) card = true -> isDue (ofZ t2) card = true.
Proof.
  intros H1 H2 Hle. unfold isDue, nextReviewLe.
  destruct (noNextReview card); [reflexivity|]. cbn [orb].
  destruct (sm2Data card) as [data|]; [|discriminate].
  intros H. apply (le_trans _ (ofZ t1)); [assumption|].
  rewrite le_ofZ by (apply maxTime_lt_pow53; assumption).
  apply Z.leb_le. assumption.
Qed.

Lemma filter_filter_absorb {A} (p q : A -> bool) (l : list A) :
  (forall x, In x l -> p x = true -> q x = true) ->
  List.filter q (List.filter p l) = List.filter p l.
Proof.
  intros H. induction l as [|x l IH]; [reflexivity|].
  cbn [List.filter]. destruct (p x) eqn:Hp.
  - cbn [List.filter]. rewrite (H x (or_introl eq_refl) Hp).
    f_equal. apply IH. intros y Hy. apply H. right. assumption.
  - apply IH. intros y Hy. apply H. right. assumption.
Qed.

(** Waiting never removes a card from the due list: the cards that are
    due at one time are all still due at any later time. *)
Theorem getDueCards_later (cards : list FlashCard) (clk clk' : Clock) :
  Z.abs (clk O) <= maxTime -> Z.abs (clk' O) <= maxTime -> clk O <= clk' O ->
  fst (getDueCards (fst (getDueCards cards clk)) clk') = fst (getDueCards cards clk).
Proof.
  intros H1 H2 Hle. rewrite !getDueCards_isDue.
  apply filter_filter_absorb. intros card _. apply isDue_later; assumption.
Qed.

Lemma getDueCards_later_witness :
  fst (getDueCards
         (fst (getDueCards (newCard :: laterCard :: dueCard :: nil) (frozen T0)))
         (frozen (T0 + msPerDay)))
  = newCard :: dueCard :: nil.
Proof.
  rewrite (getDueCards_later (newCard :: laterCard :: dueCard :: nil)
             (frozen T0) (frozen (T0 + msPerDay)));
    [reflexivity | vm_compute; discriminate | vm_compute; discriminate
    | vm_compute; discriminate].
Defined.

(** The due test on a card whose next review is at the time value [n]. *)
Lemma isDue_scheduled (card : FlashCard) (data : SM2Data) (n t : Z) :
  sm2Data card = Some data -> nextReview data = ofZ n ->
  Z.abs n <= maxTime -> n <> 0 -> Z.abs t <= maxTime ->
  isDue (ofZ t) card = (n <=? t).
Proof.
  intros Hd Hn Hr H0 Ht. unfold isDue, noNextReview, nextReviewLe.
  rewrite Hd, Hn, truthy_ofZ by (apply maxTime_lt_pow53; assumption).
  replace (n =? 0) with false by (symmetry; apply Z.eqb_neq; assumption).
  cbn [negb orb]. apply le_ofZ; apply maxTime_lt_pow53; assumption.
Qed.

Lemma isDue_updateCard (card : FlashCard) (data : SM2Data) (now : number) :
  isDue now (updateCard card data)
  = negb (truthy (nextReview data)) || le (nextReview data) now.
Proof. reflexivity. Qed.

(** Storing a result whose next review is still ahead removes the cards
    with that id from the due list and leaves the others as they are. *)
Lemma filter_isDue_handleUpdateCard (cardId : string) (data : SM2Data)
    (now : number) (cards : list FlashCard) :
  negb (truthy (nextReview data)) || le (nextReview data) now = false ->
  List.filter (isDue now) (handleUpdateCard cardId data cards)
  = List.filter (fun c => negb (String.eqb (id c) cardId))
      (List.filter (isDue now) cards).
Proof.
  intros Hnot. induction cards as [|c cards IH]; [reflexivity|].
  cbn [handleUpdateCard List.map List.filter].
  fold (handleUpdateCard cardId data cards).
  destruct (String.eqb (id c) cardId) eqn:Hid.
  - rewrite isDue_updateCard, Hnot, IH.
    destruct (isDue now c); [|reflexivity].
    cbn [List.filter]. rewrite Hid. reflexivity.
  - rewrite IH. destruct (isDue now c); [|reflexivity].
    cbn [List.filter]. rewrite Hid. reflexivity.
Qed.

(** The [nextReview] of a result is a valid time value, or NaN. *)
Lemma calculateNextReview_nextReview_cases (tz : TimeZone) (card : FlashCard)
    (quality : number) (clk : Clock) :
  nextReview (fst (calculateNextReview tz card quality clk)) = NaN \/
  exists n, nextReview (fst (calculateNextReview tz card quality clk)) = ofZ n /\
            Z.abs n <= maxTime.
Proof.
  unfold_eff.
  destruct (sm2Data card) as [d|]; simpl;
    match goal with |- context [sm2Step ?d ?q] =>
      destruct (sm2Step d q) as [[e i] r] end; simpl;
    match goal with |- context [getTime ?x] =>
      destruct x as [t|] eqn:Hd end; simpl; try (left; reflexivity);
    right; exists t; (split; [reflexivity | exact (setDate_range _ _ _ _ Hd)]).
Qed.

(** The due test on a card whose next review is at the time value [n],
    at a time from the epoch on. *)
Lemma isDue_updateCard_at (card : FlashCard) (data : SM2Data) (n t : Z) :
  nextReview data = ofZ n -> Z.abs n <= maxTime -> 0 <= t <= maxTime ->
  isDue (ofZ t) (updateCard card data) = (n <=? t).
Proof.
  intros Hn Hr Ht. destruct (Z.eq_dec n 0) as [->|H0].
  - rewrite isDue_updateCard, Hn.
    replace (0 <=? t) with true by (symmetry; apply Z.leb_le; lia).
    reflexivity.
  - apply (isDue_scheduled _ data); try assumption; [reflexivity | lia].
Qed.

(** A reviewed card leaves the due list until its next review, whatever
    the host's zone is.  The [nextReview] of the result is a valid time
    value or NaN.  With the result stored in the deck: when [nextReview]
    is the time value [n], the due list at any time before [n] is the old
    due list without the cards of the reviewed id, and from [n] on the
    reviewed card is due again; when [nextReview] is NaN (the date lies
    beyond the range of [Date]), the reviewed card is due at every time.
    Times are clock readings from the epoch on. *)
Theorem reviewed_card_not_due
    (tz : TimeZone) (cards : list FlashCard) (card : FlashCard)
    (quality : number) (clk clk' : Clock) :
  let r := fst (calculateNextReview tz card quality clk) in
  let cards' := handleUpdateCard (id card) r cards in
  0 <= clk' O <= maxTime ->
  (nextReview r = NaN \/
   exists n, nextReview r = ofZ n /\ Z.abs n <= maxTime) /\
  (forall n, nextReview r = ofZ n -> Z.abs n <= maxTime ->
     (clk' O < n ->
      fst (getDueCards cards' clk')
      = List.filter (fun c => negb (String.eqb (id c) (id card)))
          (fst (getDueCards cards clk'))) /\
     (n <= clk' O ->
      forall c, In c cards -> id c = id card ->
        In (updateCard c r) (fst (getDueCards cards' clk')))) /\
  (nextReview r = NaN ->
   forall c, In c cards -> id c = id card ->
     In (updateCard c r) (fst (getDueCards cards' clk'))).
Proof.
  intros r cards' Hclk'.
  assert (Hin' : forall c, In c cards -> id c = id card ->
                   In (updateCard c r) cards').
  { intros c Hin Hid. unfold cards', handleUpdateCard. apply in_map_iff.
    exists c. rewrite Hid, String.eqb_refl. split; [reflexivity | assumption]. }
  split; [apply calculateNextReview_nextReview_cases | split].
  - intros n Hn Hr.
    assert (Hdue : negb (truthy (nextReview r)) || le (nextReview r) (ofZ (clk' O))
                   = (n <=? clk' O)).
    { rewrite <- (isDue_updateCard card r).
      apply isDue_updateCard_at; assumption. }
    split.
    + intros Hlt. rewrite !getDueCards_isDue.
      apply filter_isDue_handleUpdateCard. rewrite Hdue.
      apply Z.leb_gt. assumption.
    + intros Hge c Hin Hid. rewrite getDueCards_isDue. apply filter_In.
      split; [apply Hin'; assumption|].
      rewrite isDue_updateCard, Hdue. apply Z.leb_le. assumption.
  - intros Hnan c Hin Hid. rewrite getDueCards_isDue. apply filter_In.
    split; [apply Hin'; assumption|].
    rewrite isDue_updateCard, Hnan. reflexivity.
Qed.

Lemma reviewed_card_not_due_witness :
  let r := fst (calculateNextReview newYork2024 dueCard n5 (frozen T0)) in
  let cards' := handleUpdateCard "due" r (newCard :: dueCard :: nil) in
  nextReview r = ofZ (T0 + 15 * msPerDay - 3600000) /\
  fst (getDueCards cards' (frozen (T0 + msPerDay))) = newCard :: nil /\
  In (updateCard dueCard r)
     (fst (getDueCards cards' (frozen (T0 + 15 * msPerDay - 3600000)))).
Proof.
  assert (Hn : nextReview (fst (calculateNextReview newYork2024 dueCard n5 (frozen T0)))
               = ofZ (T0 + 15 * msPerDay - 3600000)) by (vm_compute; reflexivity).
  assert (Hr : Z.abs (T0 + 15 * msPerDay - 3600000) <= maxTime)
    by (vm_compute; discriminate).
  pose proof (reviewed_card_not_due newYork2024 (newCard :: dueCard :: nil) dueCard n5
                (frozen T0) (frozen (T0 + msPerDay))) as H.
  pose proof (reviewed_card_not_due newYork2024 (newCard :: dueCard :: nil) dueCard n5
                (frozen T0) (frozen (T0 + 15 * msPerDay - 3600000))) as H'.
  cbv zeta in H, H'.
  destruct H as (_ & Hb & _);
    [split; vm_compute; discriminate|].
  destruct H' as (_ & Ha & _);
    [split; vm_compute; discriminate|].
  split; [exact Hn | split].
  - change (id dueCard) with "due"%string in Hb.
    rewrite (proj1 (Hb _ Hn Hr)) by (vm_compute; reflexivity). reflexivity.
  - apply (proj2 (Ha _ Hn Hr)); [|right; left; reflexivity | reflexivity].
    unfold frozen. lia.
Defined.


(** ** The forecast: failure, order of the cards *)

Lemma countOn_invalid (dateKey : string) (cards : list FlashCard) :
  Exists (fun card => ~ validNextReview card) cards ->
  countOn dateKey cards = None.
Proof.
  induction 1 as [card cards Hbad | card cards _ IH]; cbn [countOn].
  - assert (reviewedOn dateKey card = None) as ->; [|reflexivity].
    unfold reviewedOn. unfold validNextReview in Hbad.
    destruct (sm2Data card) as [data|].
    + destruct (truthy (nextReview data)) eqn:Ht; cbn [negb].
      * destruct (ofNumber (nextReview data)) as [t|] eqn:Ho; [|reflexivity].
        exfalso. apply Hbad. intros data' [= <-] _. rewrite Ho. discriminate.
      * exfalso. apply Hbad. intros data' [= <-] Ht'. congruence.
    + exfalso. apply Hbad. intros data' [=].
  - rewrite IH. destruct (reviewedOn dateKey card); reflexivity.
Qed.

Lemma validNextReview_dec (card : FlashCard) :
  {validNextReview card} + {~ validNextReview card}.
Proof.
  unfold validNextReview.
  destruct (sm2Data card) as [data|]; [|left; intros d [=]].
  destruct (truthy (nextReview data)) eqn:Ht.
  - destruct (ofNumber (nextReview data)) eqn:Ho.
    + left. intros d [= <-] _. rewrite Ho. discriminate.
    + right. intros H. apply (H data eq_refl Ht). assumption.
  - left. intros d [= <-] Ht'. congruence.
Qed.

Lemma validNextReview_all_or_not (cards : list FlashCard) :
  Forall validNextReview cards \/
  Exists (fun card => ~ validNextReview card) cards.
Proof.
  induction cards as [|card cards [IH|IH]].
  - left. constructor.
  - destruct (validNextReview_dec card) as [Hv|Hbad].
    + left. constructor; assumption.
    + right. apply Exists_cons_hd. assumption.
  - right. apply Exists_cons_tl. assumption.
Qed.

(** When the forecast fails.  On a host with a fixed offset, and for
    forecast days that are representable dates, [getUpcomingReviews] throws
    exactly when some card has a [nextReview] that is set but is not a
    valid time value; one such card is enough.  For [days <= 0] the loop
    does not run and the result is the empty schedule, whatever the cards
    are. *)
Theorem getUpcomingReviews_throws_iff
    (tz : TimeZone) (cards : list FlashCard) (days : Z) (clk : Clock) :
  (days <= 0 -> fst (getUpcomingReviews tz cards days clk) = Some ∅) /\
  (fixedOffset tz -> 1 <= days ->
   - maxTime <= clk O -> clk O + (days - 1) * msPerDay <= maxTime ->
   (fst (getUpcomingReviews tz cards days clk) = None <->
    Exists (fun card => ~ validNextReview card) cards)).
Proof.
  split.
  - intros Hd. unfold_eff. cbn [fst].
    replace (Z.to_nat days) with O by lia. reflexivity.
  - intros Htz Hd Hlo Hhi.
    assert (Hnow : TimeClipZ (clk O) = Some (clk O)).
    { apply TimeClipZ_valid. unfold maxTime, msPerDay in *. lia. }
    unfold_eff. cbn [fst]. rewrite Hnow. split.
    + intros Hnone.
      destruct (validNextReview_all_or_not cards) as [Hv|]; [exfalso | assumption].
      rewrite forecast_buildSchedule in Hnone;
        [discriminate | exact Htz | exact Hv | lia | exact Hlo |].
      rewrite Z2Nat.id by lia. unfold maxTime, msPerDay in *. lia.
    + intros Hbad.
      destruct (Z.to_nat days) as [|n] eqn:Hn; [lia|].
      cbn [forecast].
      pose proof (setDate_add_days tz (clk O) 0 Htz ltac:(simpl; lia)) as S.
      rewrite S. replace (clk O + 0 * msPerDay) with (clk O) by lia.
      rewrite Hnow. cbn [toISODate].
      rewrite (countOn_invalid _ cards Hbad). reflexivity.
Qed.

Lemma getUpcomingReviews_throws_iff_witness :
  fst (getUpcomingReviews utcZone (dueCard :: infiniteDateCard :: nil) 7 (frozen T0))
  = None /\
  fst (getUpcomingReviews utcZone (infiniteDateCard :: nil) 0 (frozen T0)) = Some ∅.
Proof.
  split.
  - apply (getUpcomingReviews_throws_iff utcZone (dueCard :: infiniteDateCard :: nil)
             7 (frozen T0)).
    + exists 0. intros t. split; reflexivity.
    + lia.
    + vm_compute. discriminate.
    + vm_compute. discriminate.
    + apply Exists_cons_tl, Exists_cons_hd. intros H.
      apply (H (sampleData n2_5 Infinity) eq_refl eq_refl). reflexivity.
  - apply (getUpcomingReviews_throws_iff utcZone (infiniteDateCard :: nil) 0 (frozen T0)).
    lia.
Defined.

Lemma countOn_Permutation (dateKey : string) (cards cards' : list FlashCard) :
  Permutation cards cards' -> countOn dateKey cards = countOn dateKey cards'.
Proof.
  induction 1 as [|x l l' _ IH|x y l|l l' l'' _ IH1 _ IH2]; cbn [countOn].
  - reflexivity.
  - rewrite IH. reflexivity.
  - destruct (reviewedOn dateKey x) as [[|]|], (reviewedOn dateKey y) as [[|]|],
      (countOn dateKey l); reflexivity.
  - congruence.
Qed.

Lemma forecast_Permutation (tz : TimeZone) (cards cards' : list FlashCard)
    (today : Date) (n : nat) :
  Permutation cards cards' ->
  forall i schedule,
    forecast tz cards today n i schedule = forecast tz cards' today n i schedule.
Proof.
  intros Hp. induction n as [|n IH]; intros i schedule; cbn [forecast]; [reflexivity|].
  destruct (toISODate _) as [dateKey|]; [|reflexivity].
  rewrite (countOn_Permutation dateKey cards cards' Hp).
  destruct (countOn dateKey cards'); [apply IH | reflexivity].
Qed.

(** The forecast does not depend on the order of the cards: a reordered
    deck gives the same schedule, or fails in the same way. *)
Theorem getUpcomingReviews_Permutation
    (tz : TimeZone) (cards cards' : list FlashCard) (days : Z) (clk : Clock) :
  Permutation cards cards' ->
  getUpcomingReviews tz cards days clk = getUpcomingReviews tz cards' days clk.
Proof.
  intros Hp. unfold_eff. f_equal. apply forecast_Permutation. assumption.
Qed.

Lemma getUpcomingReviews_Permutation_witness :
  getUpcomingReviews utcZone (newCard :: dueCard :: laterCard :: nil) 7 (frozen T0)
  = getUpcomingReviews utcZone (laterCard :: newCard :: dueCard :: nil) 7 (frozen T0).
Proof.
  apply getUpcomingReviews_Permutation.
  apply Permutation_sym.
  apply (Permutation_cons_app (newCard :: dueCard :: nil) nil laterCard).
  rewrite app_nil_r. apply Permutation_refl.
Defined.

(** The forecast agrees with the scheduler. *)

Lemma scheduledDay_updateCard (card : FlashCard) (r : SM2Data) (n : Z) :
  nextReview r = ofZ n -> Z.abs n <= maxTime -> n <> 0 ->
  scheduledDay (updateCard card r) = Some (Day n).
Proof.
  intros Hn Hr H0. unfold scheduledDay. cbn [updateCard sm2Data].
  rewrite Hn, truthy_ofZ by (apply maxTime_lt_pow53; assumption).
  replace (n =? 0) with false by (symmetry; apply Z.eqb_neq; assumption).
  cbn [negb]. unfold ofNumber. rewrite TimeClip_ofZ by assumption. reflexivity.
Qed.

(** On a host whose zone has a fixed offset, a card that has just been
    reviewed shows up in the forecast on the UTC day that lies [interval]
    days after the UTC day of the review, and on no other day. *)
Theorem getUpcomingReviews_after_review
    (tz : TimeZone) (card : FlashCard) (quality : number) (clk clk' : Clock)
    (i days : Z) :
  let r := fst (calculateNextReview tz card quality clk) in
  let t := clk (readsBefore card) in
  fixedOffset tz -> interval r = ofZ i -> 1 <= i ->
  0 <= t -> t + i * msPerDay <= maxTime ->
  1 <= days -> - maxTime <= clk' O -> clk' O + (days - 1) * msPerDay <= maxTime ->
  exists schedule,
    fst (getUpcomingReviews tz (updateCard card r :: nil) days clk') = Some schedule /\
    forall j, 0 <= j < days ->
      schedule !! isoDate (Day (clk' O) + j)
      = Some (if Day (clk' O) + j =? Day t + i then 1%nat else 0%nat).
Proof.
  intros r t Htz Hi H1 Ht Hmax Hd Hlo Hhi.
  assert (Hn : nextReview r = ofZ (t + i * msPerDay)).
  { pose proof (nextReview_after_interval tz card quality clk i Htz) as H.
    cbv zeta in H. fold r t in H. rewrite H.
    - destruct (Z.leb_spec (Z.abs (t + i * msPerDay)) maxTime) as [|Hbad];
        [reflexivity | unfold msPerDay in *; lia].
    - unfold maxTime, msPerDay in *. lia.
    - exact Hi.
    - change (2 ^ 52) with 4503599627370496.
      unfold maxTime, msPerDay in *. lia. }
  pose proof (scheduledDay_updateCard card r (t + i * msPerDay) Hn
                ltac:(unfold msPerDay in *; lia) ltac:(unfold msPerDay in *; lia)) as Hs.
  rewrite Day_shift in Hs.
  exists (buildSchedule (Day (clk' O)) (updateCard card r :: nil) (Z.to_nat days) 0 ∅).
  split.
  - unfold_eff. cbn [fst].
    rewrite TimeClipZ_valid by (unfold maxTime, msPerDay in *; lia).
    apply forecast_buildSchedule; [exact Htz | | lia | exact Hlo |].
    + constructor; [|constructor].
      intros data [= <-] _. unfold ofNumber. rewrite Hn, TimeClip_ofZ; [discriminate|].
      unfold msPerDay in *. lia.
    + rewrite Z2Nat.id by lia. unfold maxTime, msPerDay in *. lia.
  - intros j Hj.
    rewrite buildSchedule_lookup;
      [| apply buildSchedule_in_range; assumption | lia].
    unfold reviewsOn. cbn [List.filter]. unfold isScheduledOn. rewrite Hs.
    rewrite (Z.eqb_sym (Day t + i)).
    destruct (Day (clk' O) + j =? Day t + i); reflexivity.
Qed.

Lemma getUpcomingReviews_after_review_witness :
  let r := fst (calculateNextReview utcZone newCard n5 (frozen T0)) in
  exists schedule,
    fst (getUpcomingReviews utcZone (updateCard newCard r :: nil) 7 (frozen T0))
    = Some schedule /\
    schedule !! "2024-03-10"%string = Some 0%nat /\
    schedule !! "2024-03-11"%string = Some 1%nat.
Proof.
  destruct (getUpcomingReviews_after_review utcZone newCard n5 (frozen T0) (frozen T0)
              1 7) as (schedule & Hs & Hl).
  - exists 0. intros t. split; reflexivity.
  - reflexivity.
  - lia.
  - vm_compute. discriminate.
  - vm_compute. discriminate.
  - lia.
  - vm_compute. discriminate.
  - vm_compute. discriminate.
  - exists schedule. split; [exact Hs | split].
    + exact (Hl 0 ltac:(lia)).
    + exact (Hl 1 ltac:(lia)).
Defined.

(** ** Fractions and percentages *)

Lemma digits_mono (a b : positive) :
  Zpos a <= Zpos b -> Zpos (digits2_pos a) <= Zpos (digits2_pos b).
Proof.
  intros H. pose proof (digits2_pos_bounds a) as [Alo _].
  pose proof (digits2_pos_bounds b) as [_ Bhi].
  destruct (Z_le_gt_dec (Zpos (digits2_pos a)) (Zpos (digits2_pos b))) as [|Hgt];
    [assumption|].
  pose proof (pow2_mono (Zpos (digits2_pos b)) (Zpos (digits2_pos a) - 1) ltac:(lia)).
  lia.
Qed.

Lemma digits_53 (p : positive) :
  2 ^ 52 <= Zpos p < 2 ^ 53 -> Zpos (digits2_pos p) = 53.
Proof. intros H. apply digits2_pos_unique. exact H. Qed.

Lemma new_location_exact (n : Z) : new_location n 0 = loc_Exact.
Proof.
  unfold new_location, new_location_even, new_location_odd.
  destruct (Z.even n); reflexivity.
Qed.

(** The result of rounding a mantissa that has 53 bits after truncation:
    a normal number at the format exponent, or the next power of two. *)
Lemma rounded_53 (s : bool) (mf E : Z) (r : number) :
  rounded s mf E r -> 2 ^ 52 <= mf -> -1074 < E -> E + 1 <= 971 ->
  exists M E', r = S754_finite s M E' /\ Zpos (digits2_pos M) = 53 /\
    ((E' = E /\ mf <= Zpos M <= mf + 1) \/
     (E' = E + 1 /\ Zpos M = 2 ^ 52 /\ mf + 1 = 2 ^ 53)).
Proof.
  intros [[H0 _] | (M & E' & Hc & HM & ->)] Hmf HE Hmax.
  - change (2 ^ 52) with 4503599627370496 in Hmf. lia.
  - exists M, E'.
    assert (HE' : E' <= 971) by (destruct HM as [[-> _] | (-> & _)]; lia).
    destruct (Z.leb_spec E' 971) as [_|]; [|lia].
    split; [reflexivity|]. split.
    + apply (canonical_normal M E' Hc). destruct HM as [[-> _] | (-> & _)]; lia.
    + destruct HM as [[-> HM] | (-> & HM & HC)]; [left | right]; auto.
Qed.

(** The quotient of two positive integers [m <= n] is at most 1. *)
Lemma div_ofZ_le_1 (m n : positive) :
  Zpos m <= Zpos n -> Zpos n < 2 ^ 53 ->
  div (ofZ (Zpos m)) (ofZ (Zpos n)) = n1 \/
  exists M E, div (ofZ (Zpos m)) (ofZ (Zpos n)) = S754_finite false M E /\
    Zpos (digits2_pos M) = 53 /\ -106 <= E <= -53.
Proof.
  intros Hle Hn.
  destruct (ofZ_pos m ltac:(lia)) as (Ma & HMa & ->).
  destruct (ofZ_pos n Hn) as (Mb & HMb & ->).
  pose proof (digits_mono m n Hle) as Hdd.
  pose proof (digits_le_53 n Hn) as Hdn.
  pose proof (digits2_pos_bounds m) as [Mlo Mhi].
  pose proof (digits2_pos_bounds n) as [Nlo Nhi].
  set (dm := Zpos (digits2_pos m)) in *. set (dn := Zpos (digits2_pos n)) in *.
  assert (Hdm : 0 < dm) by (unfold dm; lia).
  assert (HdA : Zpos (digits2_pos Ma) = 53).
  { rewrite (digits_shift m Ma (53 - dm)) by (lia || assumption). fold dm. lia. }
  assert (HdB : Zpos (digits2_pos Mb) = 53).
  { rewrite (digits_shift n Mb (53 - dn)) by (lia || assumption). fold dn. lia. }
  pose proof (digits2_pos_bounds Ma) as [Alo Ahi]. rewrite HdA in Alo, Ahi.
  pose proof (digits2_pos_bounds Mb) as [Blo Bhi]. rewrite HdB in Blo, Bhi.
  change (2 ^ (53 - 1)) with 4503599627370496 in *.
  change (2 ^ 53) with 9007199254740992 in *.
  unfold div, SFdiv. cbv beta iota delta [SFdiv_core_binary].
  cbn [Zdigits2 xorb]. rewrite HdA, HdB, fexp_eq.
  replace (Z.min (Z.max (53 + (dm - 53) - (53 + (dn - 53)) - 53) (-1074))
             (dm - 53 - (dn - 53))) with (dm - dn - 53) by lia.
  replace (dm - 53 - (dn - 53) - (dm - dn - 53)) with 53 by lia.
  rewrite Z.shiftl_mul_pow2 by lia.
  change (2 ^ 53) with 9007199254740992.
  pose proof (Z.div_mod (Zpos Ma * 9007199254740992) (Zpos Mb) ltac:(lia)) as Hq.
  pose proof (Z.mod_pos_bound (Zpos Ma * 9007199254740992) (Zpos Mb) ltac:(lia)) as Hr.
  unfold Z.div, Z.modulo in Hq, Hr.
  destruct (Z.div_eucl (Zpos Ma * 9007199254740992) (Zpos Mb)) as [q r].
  destruct (Z.eq_dec dm dn) as [Heq|Hne].
  - (* the same number of digits *)
    assert (HAB : Zpos Ma <= Zpos Mb).
    { rewrite HMa, HMb, Heq.
      apply Z.mul_le_mono_nonneg_r; [apply Z.pow_nonneg; lia | assumption]. }
    destruct (Z.eq_dec (Zpos Ma) (Zpos Mb)) as [HE|HN].
    + left. rewrite HE in Hq.
      assert (Hq' : q = 9007199254740992).
      { rewrite (Z.div_unique _ _ q r (or_introl Hr) Hq).
        rewrite Z.mul_comm, Z.div_mul by lia. reflexivity. }
      subst q. assert (r = 0) by lia. subst r.
      rewrite new_location_exact.
      replace (dm - dn - 53) with (-53) by lia. reflexivity.
    + assert (Hq53 : 4503599627370496 <= q < 9007199254740992) by nia.
      destruct q as [|Q|Q]; [lia| |lia].
      pose proof (binary_round_aux_shape false Q (dm - dn - 53)
                    (new_location (Zpos Mb) r)) as S.
      cbv zeta in S. rewrite (digits_53 Q) in S by (simpl; lia).
      rewrite fexp_eq in S.
      replace (Z.max (53 + (dm - dn - 53) - 53) (-1074)) with (-53) in S by lia.
      specialize (S ltac:(lia)).
      replace (-53 - (dm - dn - 53)) with 0 in S by lia.
      change (2 ^ 0) with 1 in S. rewrite Z.div_1_r in S.
      apply rounded_53 in S; [|simpl; lia|lia|lia].
      destruct S as (M & E' & -> & HdM & [[-> HM] | (-> & HM & HC)]).
      * right. exists M, (-53). repeat split; try assumption; lia.
      * left. simpl Z.add. unfold n1. f_equal. apply Pos2Z.inj. rewrite HM. reflexivity.
  - (* fewer digits *)
    assert (Hq54 : 4503599627370496 <= q < 18014398509481984) by nia.
    destruct q as [|Q|Q]; [lia| |lia].
    pose proof (digits2_pos_bounds Q) as [Qlo Qhi].
    set (dq := Zpos (digits2_pos Q)) in *.
    assert (Hdq : dq = 53 \/ dq = 54).
    { destruct (Z_lt_le_dec dq 53) as [H1|H1].
      - assert (2 ^ dq <= 2 ^ 52) by (apply Z.pow_le_mono_r; unfold dq; lia).
        change (2 ^ 52) with 4503599627370496 in *. lia.
      - destruct (Z_lt_le_dec 54 dq) as [H2|H2]; [|lia].
        assert (2 ^ 54 <= 2 ^ (dq - 1)) by (apply Z.pow_le_mono_r; lia).
        change (2 ^ 54) with 18014398509481984 in *. lia. }
    pose proof (binary_round_aux_shape false Q (dm - dn - 53)
                  (new_location (Zpos Mb) r)) as S.
    cbv zeta in S. fold dq in S. rewrite fexp_eq in S.
    replace (Z.max (dq + (dm - dn - 53) - 53) (-1074)) with (dq + dm - dn - 106)
      in S by lia.
    specialize (S ltac:(lia)).
    replace (dq + dm - dn - 106 - (dm - dn - 53)) with (dq - 53) in S by lia.
    apply rounded_53 in S; [| |lia|lia].
    + destruct S as (M & E' & -> & HdM & [[-> HM] | (-> & HM & HC)]).
      * right. exists M, (dq + dm - dn - 106). repeat split; try assumption; lia.
      * destruct (Z.eq_dec (dq + dm - dn - 106 + 1) (-52)) as [H52|H52].
        -- left. rewrite H52. unfold n1. f_equal. apply Pos2Z.inj. rewrite HM. reflexivity.
        -- right. exists M, (dq + dm - dn - 106 + 1).
           repeat split; try assumption; lia.
    + apply Z.div_le_lower_bound; [apply Z.pow_pos_nonneg; lia|].
      rewrite <- Z.pow_add_r by lia.
      replace (dq - 53 + 52) with (dq - 1) by lia. assumption.
Qed.

(** A hundred times a number that is at most 1 is at most 100. *)
Lemma mul_100_le_100 (M : positive) (E : Z) :
  Zpos (digits2_pos M) = 53 -> -106 <= E <= -53 ->
  exists M' E', mul (S754_finite false M E) n100 = S754_finite false M' E' /\
    Zpos (digits2_pos M') = 53 /\ -101 <= E' <= -46 /\
    (E' = -46 -> Zpos M' <= 7036874417766400).
Proof.
  intros Hd HE.
  pose proof (digits2_pos_bounds M) as [Dlo Dhi]. rewrite Hd in Dlo, Dhi.
  change (2 ^ (53 - 1)) with 4503599627370496 in Dlo.
  change (2 ^ 53) with 9007199254740992 in Dhi.
  unfold mul, SFmul, n100. cbn [xorb].
  set (p := (M * 7036874417766400)%positive).
  assert (Hp : Zpos p = Zpos M * 7036874417766400) by reflexivity.
  pose proof (digits2_pos_bounds p) as [Plo Phi].
  set (dp := Zpos (digits2_pos p)) in *.
  assert (Hdp : dp = 105 \/ dp = 106).
  { destruct (Z_lt_le_dec dp 105) as [H1|H1].
    - assert (2 ^ dp <= 2 ^ 104) by (apply Z.pow_le_mono_r; unfold dp; lia).
      change (2 ^ 104) with 20282409603651670423947251286016 in *. lia.
    - destruct (Z_lt_le_dec 106 dp) as [H2|H2]; [|lia].
      assert (2 ^ 106 <= 2 ^ (dp - 1)) by (apply Z.pow_le_mono_r; lia).
      change (2 ^ 106) with 81129638414606681695789005144064 in *. lia. }
  pose proof (binary_round_aux_shape false p (E + -46) loc_Exact) as S.
  cbv zeta in S. fold dp in S. rewrite fexp_eq in S.
  replace (Z.max (dp + (E + -46) - 53) (-1074)) with (E + dp - 99) in S by lia.
  specialize (S ltac:(lia)).
  replace (E + dp - 99 - (E + -46)) with (dp - 53) in S by lia.
  assert (Hmf : 2 ^ 52 <= Zpos p / 2 ^ (dp - 53)).
  { apply Z.div_le_lower_bound; [apply Z.pow_pos_nonneg; lia|].
    rewrite <- Z.pow_add_r by lia.
    replace (dp - 53 + 52) with (dp - 1) by lia. assumption. }
  assert (Hup : E + dp - 99 = -46 -> Zpos p / 2 ^ (dp - 53) + 1 <= 7036874417766400).
  { intros H46. assert (dp = 106 /\ E = -53) as [Hdp' ->] by lia. rewrite Hdp'.
    change (2 ^ (106 - 53)) with 9007199254740992.
    assert (Zpos p / 9007199254740992 < 7036874417766400); [|lia].
    apply Z.div_lt_upper_bound; lia. }
  apply rounded_53 in S; [|assumption|lia|lia].
  destruct S as (M' & E' & -> & HdM & [[-> HM] | (-> & HM & HC)]).
  - exists M', (E + dp - 99). repeat split; try assumption; try lia.
  - destruct (Z.eq_dec (E + dp - 99) (-46)) as [H46|H46].
    + exfalso. specialize (Hup H46).
      change (2 ^ 53) with 9007199254740992 in HC. lia.
    + exists M', (E + dp - 99 + 1). repeat split; try assumption; try lia.
Qed.

(** Rounding a number that is at most 100 gives one of 0, ..., 100. *)
Lemma Math_round_le_100 (M : positive) (E : Z) :
  Zpos (digits2_pos M) = 53 -> -101 <= E <= -46 ->
  (E = -46 -> Zpos M <= 7036874417766400) ->
  exists k, 0 <= k <= 100 /\ Math_round (S754_finite false M E) = ofZ k.
Proof.
  intros Hd HE H46.
  pose proof (digits2_pos_bounds M) as [Dlo Dhi]. rewrite Hd in Dlo, Dhi.
  change (2 ^ (53 - 1)) with 4503599627370496 in Dlo.
  change (2 ^ 53) with 9007199254740992 in Dhi.
  destruct E as [|e|k]; [lia|lia|].
  exists (roundHalfUp false M (Zneg k)). split.
  - unfold roundHalfUp. cbn [cond_Zopp].
    assert (P : 0 < 2 ^ Zpos k) by (apply Z.pow_pos_nonneg; lia).
    assert (HM : Zpos M <= 100 * 2 ^ Zpos k).
    { destruct (Z.eq_dec (Zpos k) 46) as [Hk|Hk].
      - rewrite Hk. change (2 ^ 46) with 70368744177664.
        assert (Zneg k = -46) by lia. specialize (H46 ltac:(assumption)). lia.
      - assert (2 ^ 47 <= 2 ^ Zpos k) by (apply Z.pow_le_mono_r; lia).
        change (2 ^ 47) with 140737488355328 in *. lia. }
    rewrite Z.pow_add_r by lia. change (2 ^ 1) with 2.
    split.
    + apply Z.div_pos; lia.
    + apply Z.lt_succ_r. apply Z.div_lt_upper_bound; lia.
  - unfold Math_round.
    destruct (roundHalfUp false M (Zneg k)); reflexivity.
Qed.

(** The percentage of [m] out of [n]: one of 0, ..., 100. *)
Lemma percentage_range (m n : nat) :
  (m <= n)%nat -> (0 < n)%nat -> Z.of_nat n < 2 ^ 53 ->
  exists k, 0 <= k <= 100 /\
    Math_round (mul (div (ofNat m) (ofNat n)) n100) = ofZ k.
Proof.
  intros Hle Hn Hb. unfold ofNat.
  destruct (Z.of_nat n) as [|pn|pn] eqn:En; [lia| |lia].
  destruct (Z.of_nat m) as [|pm|pm] eqn:Em; [|       |lia].
  - exists 0. split; [lia|].
    destruct (ofZ_pos pn Hb) as (Mb & _ & ->). reflexivity.
  - destruct (div_ofZ_le_1 pm pn ltac:(lia) Hb) as [-> | (M & E & -> & Hd & HE)].
    + exists 100. split; [lia | reflexivity].
    + destruct (mul_100_le_100 M E Hd HE) as (M' & E' & -> & Hd' & HE' & H46).
      apply Math_round_le_100; assumption.
Qed.

Lemma div_ofZ_self (n : positive) :
  Zpos n < 2 ^ 53 -> div (ofZ (Zpos n)) (ofZ (Zpos n)) = n1.
Proof.
  intros Hn.
  destruct (ofZ_pos n Hn) as (Ma & HMa & ->).
  pose proof (digits_le_53 n Hn) as Hdn.
  set (dn := Zpos (digits2_pos n)) in *.
  assert (Hd0 : 0 < dn) by (unfold dn; lia).
  assert (HdA : Zpos (digits2_pos Ma) = 53).
  { rewrite (digits_shift n Ma (53 - dn)) by (lia || assumption). fold dn. lia. }
  unfold div, SFdiv. cbv beta iota delta [SFdiv_core_binary].
  cbn [Zdigits2 xorb]. rewrite HdA, fexp_eq.
  replace (Z.min (Z.max (53 + (dn - 53) - (53 + (dn - 53)) - 53) (-1074))
             (dn - 53 - (dn - 53))) with (-53) by lia.
  replace (dn - 53 - (dn - 53) - -53) with 53 by lia.
  rewrite Z.shiftl_mul_pow2 by lia.
  change (2 ^ 53) with 9007199254740992.
  pose proof (Z.div_mod (Zpos Ma * 9007199254740992) (Zpos Ma) ltac:(lia)) as Hq.
  pose proof (Z.mod_pos_bound (Zpos Ma * 9007199254740992) (Zpos Ma) ltac:(lia)) as Hr.
  unfold Z.div, Z.modulo in Hq, Hr.
  destruct (Z.div_eucl (Zpos Ma * 9007199254740992) (Zpos Ma)) as [q r].
  assert (Hq' : q = 9007199254740992).
  { rewrite (Z.div_unique _ _ q r (or_introl Hr) Hq).
    rewrite Z.mul_comm, Z.div_mul by lia. reflexivity. }
  subst q. assert (r = 0) by lia. subst r.
  rewrite new_location_exact. reflexivity.
Qed.

Lemma percentage_all (n : nat) :
  (0 < n)%nat -> Z.of_nat n < 2 ^ 53 ->
  Math_round (mul (div (ofNat n) (ofNat n)) n100) = n100.
Proof.
  intros Hn Hb. unfold ofNat.
  destruct (Z.of_nat n) as [|pn|pn] eqn:En; [lia| |lia].
  rewrite (div_ofZ_self pn Hb). reflexivity.
Qed.

Lemma getDifficultCards_isDue (cards : list FlashCard) (clk : Clock) :
  fst (getDifficultCards cards clk)
  = List.filter (fun card => isDifficult card && isDue (ofZ (clk O)) card) cards.
Proof. reflexivity. Qed.

Lemma filter_length_impl {A} (p q : A -> bool) (l : list A) :
  (forall x, In x l -> p x = true -> q x = true) ->
  (length (List.filter p l) <= length (List.filter q l))%nat.
Proof.
  intros H. induction l as [|x l IH]; [reflexivity|].
  cbn [List.filter].
  assert (IH' : (length (List.filter p l) <= length (List.filter q l))%nat)
    by (apply IH; intros y Hy; apply H; right; assumption).
  destruct (p x) eqn:Hp.
  - rewrite (H x (or_introl eq_refl) Hp). cbn [length]. lia.
  - destruct (q x); cbn [length]; lia.
Qed.

(** ** Statistics: the counts *)

(** The counts of [getStudyStats] never exceed the number of cards; the
    due cards are counted at the first reading of the clock and the
    difficult ones at the second, so that the difficult cards are among
    the due ones when the clock shows the same time at both. *)
Theorem getStudyStats_counts (cards : list FlashCard) (clk : Clock) :
  let stats := fst (getStudyStats cards clk) in
  (reviewed stats <= total stats /\ due stats <= total stats /\
   difficultCount stats <= total stats /\ mastered stats <= total stats)%nat /\
  due stats = length (fst (getDueCards cards clk)) /\
  difficultCount stats = length (fst (getDifficultCards cards (advance clk))) /\
  (clk 1%nat = clk O -> (difficultCount stats <= due stats)%nat) /\
  snd (getStudyStats cards clk) = advance (advance clk).
Proof.
  cbv zeta. unfold getStudyStats. unfold_eff.
  cbn [fst snd total reviewed due difficultCount mastered].
  repeat split; try apply filter_length_le.
  intros Hclk. rewrite Hclk.
  apply filter_length_impl. intros card _ H.
  apply andb_prop in H as [_ H]. unfold isDue in H.
  destruct (noNextReview card); [reflexivity | exact H].
Qed.

Lemma getStudyStats_counts_witness :
  let stats := fst (getStudyStats (newCard :: hardCard :: laterCard :: nil)
                      (frozen T0)) in
  (difficultCount stats <= due stats)%nat /\ due stats = 2%nat.
Proof.
  pose proof (getStudyStats_counts (newCard :: hardCard :: laterCard :: nil)
                (frozen T0)) as (_ & Hd & _ & H & _).
  cbv zeta in *. split; [apply H; reflexivity | rewrite Hd; reflexivity].
Defined.

(** When the clock advances between the two readings, a card that becomes
    due in between is counted as difficult but not as due. *)
Example getStudyStats_difficult_exceeds_due :
  let card := sampleCard "soon" (Some (sampleData (decimal 18 10) (ofZ (T0 + 1)))) None in
  let stats := fst (getStudyStats (card :: nil) (fun n => T0 + Z.of_nat n)) in
  due stats = 0%nat /\ difficultCount stats = 1%nat.
Proof. vm_compute. split; reflexivity. Qed.

(** ** Statistics: the mastery percentage *)

(** The mastery percentage is a whole number between 0 and 100: 0 when no
    card is mastered, 100 when every card of a deck that is not empty is. *)
Theorem masteryPercentage_range (cards : list FlashCard) (clk : Clock) :
  Z.of_nat (length cards) < 2 ^ 53 ->
  let stats := fst (getStudyStats cards clk) in
  (exists k, 0 <= k <= 100 /\ masteryPercentage stats = ofZ k) /\
  (mastered stats = O -> masteryPercentage stats = n0) /\
  (cards <> nil -> mastered stats = total stats -> masteryPercentage stats = n100).
Proof.
  intros Hb. cbv zeta. unfold getStudyStats. unfold_eff.
  cbn [fst total mastered masteryPercentage].
  pose proof (filter_length_le isMastered cards) as Hle.
  destruct (Nat.ltb_spec 0 (length cards)) as [Hpos|Hzero].
  - split; [|split].
    + apply percentage_range; assumption.
    + intros ->. unfold ofNat at 1. cbn [Z.of_nat].
      unfold ofNat. destruct (Z.of_nat (length cards)) as [|p|p] eqn:Ep; [lia| |lia].
      destruct (ofZ_pos p Hb) as (M & _ & ->). reflexivity.
    + intros _ ->. apply percentage_all; assumption.
  - split; [|split].
    + exists 0. split; [lia | reflexivity].
    + reflexivity.
    + intros Hne. destruct cards; [congruence | cbn [length] in Hzero; lia].
Qed.

Lemma masteryPercentage_range_witness :
  let mature := sampleCard "mature"
                  (Some {| easeFactor := decimal 26 10; interval := ofZ 16;
                           repetitions := n3; nextReview := ofZ (T0 + msPerDay);
                           lastReviewed := ofZ T0 |}) None in
  let stats := fst (getStudyStats (mature :: newCard :: dueCard :: nil) (frozen T0)) in
  (exists k, 0 <= k <= 100 /\ masteryPercentage stats = ofZ k) /\
  masteryPercentage stats = ofZ 33.
Proof.
  cbv zeta. split.
  - apply masteryPercentage_range. vm_compute. reflexivity.
  - vm_compute. reflexivity.
Defined.

(** ** The application state *)

(** Storing a result changes nothing but the scheduling data of the cards
    with the given id: the deck keeps its length and order, every card its
    other fields (the review history among them), and cards with another
    id are left alone.  An id that no card has changes nothing. *)
Theorem handleUpdateCard_preserves
    (cardId : string) (data : SM2Data) (prev : list FlashCard) :
  let next := handleUpdateCard cardId data prev in
  let rest := fun c => (id c, studySetId c, front c, back c, sourceFragment c,
                        confidence c, cardOrder c, createdAt c, reviewHistory c) in
  length next = length prev /\
  List.map rest next = List.map rest prev /\
  List.map sm2Data next
  = List.map (fun c => if String.eqb (id c) cardId then Some data else sm2Data c) prev /\
  ((forall c, In c prev -> id c <> cardId) -> next = prev).
Proof.
  cbv zeta. unfold handleUpdateCard.
  split; [apply length_map | split; [|split]].
  - rewrite List.map_map. apply map_ext. intros c.
    destruct (String.eqb (id c) cardId); reflexivity.
  - rewrite List.map_map. apply map_ext. intros c.
    destruct (String.eqb (id c) cardId); reflexivity.
  - intros H. rewrite <- (List.map_id prev) at 2. apply map_ext_in. intros c Hc.
    destruct (String.eqb_spec (id c) cardId) as [Heq|]; [|reflexivity].
    exfalso. exact (H c Hc Heq).
Qed.

(** Two results stored for the same id: the later one wins.  Results
    stored for different ids do not interfere, whatever the order. *)
Theorem handleUpdateCard_last_wins
    (id1 id2 : string) (data1 data2 : SM2Data) (prev : list FlashCard) :
  handleUpdateCard id1 data2 (handleUpdateCard id1 data1 prev)
  = handleUpdateCard id1 data2 prev /\
  (id1 <> id2 ->
   handleUpdateCard id1 data1 (handleUpdateCard id2 data2 prev)
   = handleUpdateCard id2 data2 (handleUpdateCard id1 data1 prev)).
Proof.
  unfold handleUpdateCard. rewrite !List.map_map. split.
  - apply map_ext. intros c.
    destruct (String.eqb (id c) id1) eqn:H; cbn [updateCard id]; rewrite H; reflexivity.
  - intros Hne. apply map_ext. intros c.
    destruct (String.eqb_spec (id c) id1) as [H1|H1],
             (String.eqb_spec (id c) id2) as [H2|H2];
      cbn [updateCard id];
      try (exfalso; congruence);
      repeat match goal with
             | |- context [String.eqb ?a ?b] =>
                 destruct (String.eqb_spec a b); try congruence
             end.
Qed.

Lemma handleUpdateCard_last_wins_witness :
  handleUpdateCard "due" (sampleData n2_5 (ofZ T0))
    (handleUpdateCard "new" (sampleData n1_3 (ofZ T0)) (newCard :: dueCard :: nil))
  = handleUpdateCard "new" (sampleData n1_3 (ofZ T0))
      (handleUpdateCard "due" (sampleData n2_5 (ofZ T0)) (newCard :: dueCard :: nil)).
Proof.
  apply (handleUpdateCard_last_wins "due" "new" (sampleData n2_5 (ofZ T0))
           (sampleData n1_3 (ofZ T0)) (newCard :: dueCard :: nil)).
  discriminate.
Defined.

(** ** The cards of a repeat session *)

Lemma has_true (set : list FlashCard) (card : FlashCard) :
  has set card = true <-> In card set.
Proof.
  unfold has. destruct (in_dec FlashCard_eq_dec card set); split; auto; discriminate.
Qed.

Lemma has_false (set : list FlashCard) (card : FlashCard) :
  has set card = false <-> ~ In card set.
Proof.
  unfold has. destruct (in_dec FlashCard_eq_dec card set); split; auto;
    [discriminate | tauto].
Qed.

(** Adding cards that are pairwise different to a set appends those that
    the set does not have yet. *)
Lemma fold_add_NoDup (xs : list FlashCard) :
  List.NoDup xs ->
  forall set,
    fold_left (fun set x => if has set x then set else set ++ x :: nil) xs set
    = set ++ List.filter (fun x => negb (has set x)) xs.
Proof.
  induction 1 as [|x xs Hx Hnd IH]; intros set; cbn [fold_left List.filter].
  - rewrite app_nil_r. reflexivity.
  - rewrite IH. destruct (has set x) eqn:Hh; cbn [negb].
    + reflexivity.
    + rewrite <- app_assoc. cbn [app]. f_equal. f_equal.
      apply filter_ext_in. intros y Hy. f_equal.
      destruct (has set y) eqn:Hy'.
      * apply has_true. apply in_or_app. left. apply has_true. assumption.
      * apply has_false. intros Hin. apply in_app_or in Hin as [Hin | [Heq | []]].
        -- apply has_false in Hy'. exact (Hy' Hin).
        -- subst y. exact (Hx Hy).
Qed.

Lemma newSet_app (xs ys : list FlashCard) :
  List.NoDup xs -> List.NoDup ys ->
  newSet (xs ++ ys) = xs ++ List.filter (fun y => negb (has xs y)) ys.
Proof.
  intros Hx Hy. unfold newSet. rewrite fold_left_app.
  rewrite (fold_add_NoDup xs Hx nil). cbn [app].
  replace (List.filter (fun x => negb (has nil x)) xs) with xs.
  - apply fold_add_NoDup. assumption.
  - symmetry. rewrite <- (filter_ext (fun _ => true)); [|reflexivity].
    induction xs as [|x xs IH]; [reflexivity|]. cbn [List.filter]. f_equal.
    apply IH. inversion Hx. assumption.
Qed.

Lemma filter_complement_Permutation {A} (p : A -> bool) (l : list A) :
  Permutation (List.filter p l ++ List.filter (fun x => negb (p x)) l) l.
Proof.
  induction l as [|x l IH]; [constructor|].
  cbn [List.filter]. destruct (p x); cbn [negb app].
  - constructor. assumption.
  - apply Permutation_sym, Permutation_cons_app, Permutation_sym. assumption.
Qed.

(** The cards of a repeat session are the due cards, each once, with the
    difficult ones first (both in the order of the deck): every due card
    is reviewed, and no card that is not due is.  The two selectors read
    the clock one after the other; the clock may advance in between. *)
Theorem reviewCards_due (cards : list FlashCard) (clk : Clock) :
  List.NoDup cards ->
  Z.abs (clk O) <= maxTime -> Z.abs (clk 1%nat) <= maxTime -> clk O <= clk 1%nat ->
  let difficult := fst (getDifficultCards cards clk) in
  let due := fst (getDueCards cards (advance clk)) in
  let session := fst (reviewCards cards clk) in
  session = difficult ++ List.filter (fun c => negb (has difficult c)) due /\
  Permutation session due /\
  List.NoDup session /\
  (session = nil <-> due = nil).
Proof.
  intros Hnd H0 H1 Hle difficult due session.
  assert (Hndd : List.NoDup difficult) by (apply List.NoDup_filter; assumption).
  assert (Hndu : List.NoDup due).
  { unfold due. rewrite getDueCards_isDue. apply List.NoDup_filter. assumption. }
  assert (Hs : session = difficult ++ List.filter (fun c => negb (has difficult c)) due).
  { unfold session, difficult, due, reviewCards. unfold_eff. cbn [fst].
    apply newSet_app; apply List.NoDup_filter; assumption. }
  assert (Hd : difficult
               = List.filter (fun c => isDifficult c && isDue (ofZ (clk O)) c) due).
  { unfold difficult, due.
    rewrite getDifficultCards_isDue, getDueCards_isDue. unfold advance.
    rewrite <- (filter_filter_absorb
                  (fun c => isDifficult c && isDue (ofZ (clk O)) c)
                  (isDue (ofZ (clk 1%nat))) cards) at 1.
    - clear. induction cards as [|c cards IH]; [reflexivity|].
      cbn [List.filter].
      destruct (isDifficult c && isDue (ofZ (clk O)) c) eqn:Hp;
        destruct (isDue (ofZ (clk 1%nat)) c) eqn:Hq; cbn [List.filter];
        rewrite ?Hp, ?Hq; cbn [List.filter]; rewrite ?Hp; try (f_equal; exact IH);
        exact IH.
    - intros c _ Hc. apply andb_prop in Hc as [_ Hc].
      apply (isDue_later (clk O)); assumption. }
  assert (Hp : Permutation session due).
  { rewrite Hs.
    replace (List.filter (fun c => negb (has difficult c)) due)
      with (List.filter (fun c => negb (isDifficult c && isDue (ofZ (clk O)) c)) due).
    - rewrite Hd at 1. apply filter_complement_Permutation.
    - apply filter_ext_in. intros c Hc. f_equal.
      destruct (isDifficult c && isDue (ofZ (clk O)) c) eqn:Hpc; symmetry.
      + apply has_true. rewrite Hd. apply filter_In. split; assumption.
      + apply has_false. rewrite Hd. intros Hin. apply filter_In in Hin as [_ Hin].
        congruence. }
  split; [exact Hs | split; [exact Hp | split]].
  - apply (Permutation_NoDup (Permutation_sym Hp)). assumption.
  - split; intros Hnil.
    + rewrite Hnil in Hp. apply Permutation_nil. assumption.
    + rewrite Hnil in Hp. apply Permutation_nil, Permutation_sym. assumption.
Qed.

Lemma reviewCards_due_witness :
  fst (reviewCards (newCard :: laterCard :: dueCard :: hardCard :: nil) (frozen T0))
  = hardCard :: newCard :: dueCard :: nil.
Proof.
  pose proof (reviewCards_due (newCard :: laterCard :: dueCard :: hardCard :: nil)
                (frozen T0)) as H.
  cbv zeta in H. destruct H as (H & _).
  - repeat constructor; cbn [In]; intros K;
      repeat (destruct K as [K|K]; try discriminate); exact K.
  - vm_compute. discriminate.
  - vm_compute. discriminate.
  - vm_compute. discriminate.
  - rewrite H. vm_compute. reflexivity.
Defined.

(** ** The dashboard *)

Lemma existsb_filter_length {A} (p : A -> bool) (l : list A) :
  existsb p l = (0 <? length (List.filter p l))%nat.
Proof.
  induction l as [|x l IH]; [reflexivity|].
  cbn [existsb List.filter]. destruct (p x); [reflexivity | exact IH].
Qed.

(** The three study modes of the dashboard.  Review is offered when the
    deck is not empty, the exam when some card has been reviewed (the
    [reviewed] count of the statistics is positive), and the repeat mode
    when a card is due or difficult.  The dashboard reads the clock four
    times; when the clock stands still meanwhile, the repeat mode is
    offered exactly when some card is due, its badge is the number of due
    cards, and that number is the [due] count of the statistics. *)
Theorem studyModes_available (cards : list FlashCard) (clk : Clock) :
  let stats := fst (Dashboard.stats cards clk) in
  exists review exam repeat,
    Dashboard.studyModes cards stats = review :: exam :: repeat :: nil /\
    Dashboard.available review = negb (length cards =? 0)%nat /\
    Dashboard.count review = length cards /\
    Dashboard.available exam
    = (0 <? reviewed (Dashboard.studyStats stats))%nat /\
    Dashboard.count exam = length cards /\
    Dashboard.dueToday stats
    = length (fst (getDueCards cards (advance (advance clk)))) /\
    Dashboard.difficultCount stats
    = length (fst (getDifficultCards cards (advance (advance (advance clk))))) /\
    (clk 3%nat = clk 2%nat ->
     Dashboard.available repeat = (0 <? Dashboard.dueToday stats)%nat /\
     Dashboard.count repeat = Dashboard.dueToday stats) /\
    (clk 2%nat = clk O ->
     Dashboard.dueToday stats = due (Dashboard.studyStats stats)).
Proof.
  cbv zeta. unfold Dashboard.stats, Dashboard.studyModes.
  do 3 eexists. split; [reflexivity|].
  unfold getStudyStats. unfold_eff.
  cbn [fst snd Dashboard.available Dashboard.count Dashboard.studyStats
       Dashboard.dueToday Dashboard.difficultCount Dashboard.hasReviewedCards
       reviewed due].
  split; [|split; [reflexivity | split; [|split; [reflexivity | split;
    [reflexivity | split; [reflexivity | split]]]]]].
  - destruct cards; reflexivity.
  - apply existsb_filter_length.
  - intros Hclk. rewrite Hclk.
    set (d := length (List.filter _ cards)).
    set (u := length (List.filter _ cards)).
    assert (Hdu : (d <= u)%nat).
    { apply filter_length_impl. intros card _ H.
      apply andb_prop in H as [_ H].
      destruct (noNextReview card); [reflexivity | exact H]. }
    split; [|lia].
    destruct (Nat.ltb_spec 0 d), (Nat.ltb_spec 0 u); try reflexivity; lia.
  - intros Hclk. rewrite Hclk. reflexivity.
Qed.

Lemma studyModes_available_witness :
  let stats := fst (Dashboard.stats (newCard :: hardCard :: laterCard :: nil)
                      (frozen T0)) in
  List.map Dashboard.available
    (Dashboard.studyModes (newCard :: hardCard :: laterCard :: nil) stats)
  = true :: true :: true :: nil /\
  List.map Dashboard.count
    (Dashboard.studyModes (newCard :: hardCard :: laterCard :: nil) stats)
  = 3%nat :: 3%nat :: 2%nat :: nil.
Proof.
  pose proof (studyModes_available (newCard :: hardCard :: laterCard :: nil)
                (frozen T0)) as H.
  cbv zeta in *.
  destruct H
    as (review & exam & repeat & Hm & Hr & Hrc & He & Hec & Hd & _ & Hrep & _).
  destruct (Hrep eq_refl) as [Ha Hc].
  rewrite Hm. cbn [List.map]. rewrite Hr, Hrc, He, Hec, Ha, Hc, Hd.
  split; reflexivity.
Defined.

(** ** The timestamps of a result *)

(** On a host with a fixed offset, the next review is due exactly
    [interval] days after the time at which the result is computed, and
    [lastReviewed] is the reading of the clock that follows.  A date beyond
    the range of [Date] gives NaN. *)
Theorem calculateNextReview_schedule
    (tz : TimeZone) (card : FlashCard) (quality : number) (clk : Clock) (i : Z) :
  let r := fst (calculateNextReview tz card quality clk) in
  let t := clk (readsBefore card) in
  fixedOffset tz -> Z.abs t <= maxTime ->
  interval r = ofZ i -> 0 <= i < 2 ^ 52 ->
  (t + i * msPerDay <= maxTime -> nextReview r = ofZ (t + i * msPerDay)) /\
  (maxTime < t + i * msPerDay -> nextReview r = NaN) /\
  lastReviewed r = ofZ (clk (S (readsBefore card))) /\
  snd (calculateNextReview tz card quality clk)
  = (fun n => clk (S (S (readsBefore card)) + n)%nat).
Proof.
  intros r t Htz Ht Hi Hr.
  pose proof (nextReview_after_interval tz card quality clk i Htz Ht Hi Hr) as Hn.
  cbv zeta in Hn. fold r t in Hn.
  split; [|split; [|split]].
  - intros Hle. rewrite Hn.
    destruct (Z.leb_spec (Z.abs (t + i * msPerDay)) maxTime) as [|Hbad];
      [reflexivity | unfold maxTime, msPerDay in *; lia].
  - intros Hgt. rewrite Hn.
    destruct (Z.leb_spec (Z.abs (t + i * msPerDay)) maxTime) as [Hok|];
      [unfold maxTime, msPerDay in *; lia | reflexivity].
  - apply (calculateNextReview_times tz card quality clk).
  - unfold_eff. unfold readsBefore.
    destruct (sm2Data card) as [data|]; simpl;
      match goal with |- context [sm2Step ?d ?q] =>
        destruct (sm2Step d q) as [[e j] k] end; reflexivity.
Qed.

Lemma calculateNextReview_schedule_witness :
  let r := fst (calculateNextReview (fixedZone 180) newCard n5 (fun n => T0 + Z.of_nat n)) in
  nextReview r = ofZ (T0 + 2 + msPerDay) /\ lastReviewed r = ofZ (T0 + 3).
Proof.
  pose proof (calculateNextReview_schedule (fixedZone 180) newCard n5
                (fun n => T0 + Z.of_nat n) 1) as H.
  cbv zeta in H.
  destruct H as (Hn & _ & Hl & _).
  - exists (180 * 60000). intros t. split; reflexivity.
  - vm_compute. discriminate.
  - reflexivity.
  - split; [lia | reflexivity].
  - split; [apply Hn; vm_compute; discriminate | exact Hl].
Defined.

(** ** The selectors together *)

(** The difficult cards are the due cards that pass the difficulty test,
    in the same order. *)
Theorem getDifficultCards_of_due (cards : list FlashCard) (clk : Clock) :
  fst (getDifficultCards cards clk)
  = List.filter isDifficult (fst (getDueCards cards clk)).
Proof.
  rewrite getDifficultCards_isDue, getDueCards_isDue.
  induction cards as [|card cards IH]; [reflexivity|].
  cbn [List.filter]. destruct (isDue (ofZ (clk O)) card); cbn [List.filter];
    rewrite IH; [|rewrite andb_false_r; reflexivity].
  rewrite andb_true_r. reflexivity.
Qed.

(** ** From a review to the dashboard *)

(** Once the result of a review is stored, the card counts as reviewed
    and the exam mode is offered (the clock not being at the epoch). *)
Theorem exam_available_after_review
    (tz : TimeZone) (cards : list FlashCard) (card : FlashCard)
    (quality : number) (clk clk' : Clock) :
  let r := fst (calculateNextReview tz card quality clk) in
  let t := clk (S (readsBefore card)) in
  let cards' := handleUpdateCard (id card) r cards in
  let stats := fst (Dashboard.stats cards' clk') in
  In card cards -> t <> 0 -> Z.abs t <= maxTime ->
  (0 < reviewed (Dashboard.studyStats stats))%nat /\
  exists review exam repeat,
    Dashboard.studyModes cards' stats = review :: exam :: repeat :: nil /\
    Dashboard.available exam = true.
Proof.
  intros r t cards' stats Hin H0 Ht.
  assert (Hl : lastReviewed r = ofZ t)
    by apply (calculateNextReview_times tz card quality clk).
  assert (He : existsb (hasTruthy lastReviewed) cards' = true).
  { apply existsb_exists. exists (updateCard card r). split.
    - unfold cards', handleUpdateCard. apply in_map_iff. exists card.
      rewrite String.eqb_refl. split; [reflexivity | assumption].
    - unfold hasTruthy. cbn [updateCard sm2Data].
      rewrite Hl, truthy_ofZ by (apply maxTime_lt_pow53; assumption).
      apply negb_true_iff, Z.eqb_neq. assumption. }
  split.
  - unfold stats, Dashboard.stats, getStudyStats. unfold_eff.
    cbn [fst Dashboard.studyStats reviewed].
    apply Nat.ltb_lt. rewrite <- existsb_filter_length. exact He.
  - unfold Dashboard.studyModes. do 3 eexists. split; [reflexivity|].
    cbn [Dashboard.available]. unfold stats, Dashboard.stats, getStudyStats.
    unfold_eff. cbn [fst Dashboard.hasReviewedCards]. exact He.
Qed.

Lemma exam_available_after_review_witness :
  let r := fst (calculateNextReview utcZone newCard n5 (frozen T0)) in
  let cards' := handleUpdateCard "new" r (newCard :: nil) in
  List.map Dashboard.available
    (Dashboard.studyModes (newCard :: nil)
       (fst (Dashboard.stats (newCard :: nil) (frozen T0))))
  = true :: false :: true :: nil /\
  exists review exam repeat,
    Dashboard.studyModes cards' (fst (Dashboard.stats cards' (frozen T0)))
    = review :: exam :: repeat :: nil /\
    Dashboard.available exam = true.
Proof.
  cbv zeta. split; [vm_compute; reflexivity|].
  apply (exam_available_after_review utcZone (newCard :: nil) newCard n5
           (frozen T0) (frozen T0)).
  - left. reflexivity.
  - vm_compute. discriminate.
  - vm_compute. discriminate.
Defined.

(** * The validation of extracted cards *)

Import StrictExtract.

Lemma split_length (sep : N) (s : JSString) :
  length (split sep s) = S (count_occ N.eq_dec s sep).
Proof.
  induction s as [|c s IH]; [reflexivity|].
  cbn [split count_occ].
  destruct (N.eqb_spec c sep) as [->|Hne].
  - destruct (N.eq_dec sep sep); [|congruence]. cbn [length]. rewrite IH. reflexivity.
  - destruct (N.eq_dec c sep); [congruence|].
    destruct (split sep s) as [|piece pieces]; [discriminate | exact IH].
Qed.

Lemma isValidCard_None (card : JSValue) : isValidCard card = None <-> card = JNull.
Proof. destruct card; cbn [isValidCard]; split; congruence. Qed.

Lemma keeps_ExtractedFlashCard (card : JSValue) :
  keeps card = true <-> ExtractedFlashCard card.
Proof.
  unfold keeps, ExtractedFlashCard. split.
  - destruct card as [| |b|n|s|items|props]; cbn [isValidCard]; try discriminate.
    intros H. apply andb_prop in H as [H Hc]. apply andb_prop in H as [H Hs].
    apply andb_prop in H as [Hf Hb].
    unfold frontOk in Hf. destruct (getProp (lit "front") props) as [| | | |front| |] eqn:Ef;
      try discriminate.
    unfold backOk in Hb. destruct (getProp (lit "back") props) as [| | | |back| |] eqn:Eb;
      try discriminate.
    unfold fragmentOk in Hs.
    destruct (getProp (lit "source_fragment") props) as [| | | |fragment| |] eqn:Es;
      try discriminate.
    unfold confidenceOk in Hc.
    destruct (getProp (lit "confidence") props) as [| | |confidence| | |] eqn:Ec;
      try discriminate.
    apply andb_prop in Hf as [Hf1 Hf2]. apply andb_prop in Hb as [Hb1 Hb2].
    apply andb_prop in Hc as [Hc1 Hc2].
    apply Nat.ltb_lt in Hf1, Hb1, Hs. apply Nat.leb_le in Hf2, Hb2.
    rewrite split_length in Hf2.
    exists props, front, back, fragment, confidence.
    repeat split; try reflexivity; try assumption; try lia; exact Hc1.
  - intros (props & front & back & fragment & confidence & -> & Hf & Hf1 & Hf2 &
            Hb & Hb1 & Hs & Hs1 & Hc & Hc1 & Hc2).
    cbn [isValidCard]. rewrite Hf, Hb, Hs, Hc.
    unfold frontOk, backOk, fragmentOk, confidenceOk. rewrite split_length.
    change (ge confidence n1) with (le n1 confidence). rewrite Hc1, Hc2.
    repeat (apply andb_true_intro; split);
      first [apply Nat.ltb_lt; lia | apply Nat.leb_le; lia | reflexivity].
Qed.

Lemma filterCards_Some (cards kept : list JSValue) :
  filterCards cards = Some kept -> kept = List.filter keeps cards.
Proof.
  revert kept. induction cards as [|card cards IH]; intros kept; cbn [filterCards].
  - intros [= <-]. reflexivity.
  - cbn [List.filter].
    destruct (isValidCard card) as [keep|] eqn:Hv; [|discriminate].
    destruct (filterCards cards) as [kept'|]; [|discriminate].
    intros [= <-]. rewrite (IH kept' eq_refl).
    assert (Hk : keeps card = keep) by (unfold keeps; rewrite Hv; reflexivity).
    rewrite Hk. destruct keep; reflexivity.
Qed.

Lemma filterCards_None (cards : list JSValue) :
  filterCards cards = None <-> In JNull cards.
Proof.
  induction cards as [|card cards IH]; cbn [filterCards In].
  - split; [discriminate | tauto].
  - destruct (isValidCard card) as [keep|] eqn:Hv.
    + destruct (filterCards cards) as [kept|].
      * split; [discriminate|]. intros [-> | H]; [discriminate|].
        apply IH in H. discriminate.
      * split; [intros _; right; apply IH; reflexivity | reflexivity].
    + apply isValidCard_None in Hv. split; [left; exact Hv | reflexivity].
Qed.

Lemma filterCards_valid (cards : list JSValue) :
  Forall (fun card => keeps card = true) cards -> filterCards cards = Some cards.
Proof.
  induction 1 as [|card cards Hc _ IH]; cbn [filterCards]; [reflexivity|].
  unfold keeps in Hc. destruct (isValidCard card) as [keep|]; [|discriminate].
  rewrite IH, Hc. reflexivity.
Qed.

(** What [validateCards] returns: at most 100 cards, the first ones of
    the input that pass the test, in the order of the input; each of them
    is an object with a term of at most ten words, a definition of at most
    200 code units, a source fragment and a confidence from 1 to 10. *)
Theorem validateCards_sound (items kept : list JSValue) :
  validateCards (JArray items) = Some kept ->
  kept = firstn 100 (List.filter keeps items) /\
  (length kept <= 100)%nat /\
  Forall ExtractedFlashCard kept.
Proof.
  cbn [validateCards]. destruct (filterCards items) as [all|] eqn:Hf; [|discriminate].
  intros [= <-]. apply filterCards_Some in Hf. subst all.
  split; [reflexivity | split].
  - apply firstn_le_length.
  - apply List.Forall_forall. intros card Hin. apply keeps_ExtractedFlashCard.
    assert (Hin' : In card (List.filter keeps items)).
    { rewrite <- (firstn_skipn 100 (List.filter keeps items)).
      apply in_or_app. left. exact Hin. }
    apply filter_In in Hin' as [_ H]. exact H.
Qed.

Lemma validateCards_sound_witness :
  let card := JObject ((lit "front", JString (lit "spaced repetition"))
                       :: (lit "back", JString (lit "a learning technique"))
                       :: (lit "source_fragment", JString (lit "..."))
                       :: (lit "confidence", JNumber (ofZ 9)) :: nil) in
  let other := JObject ((lit "front", JString (lit "no back")) :: nil) in
  validateCards (JArray (other :: card :: JNumber n1 :: nil)) = Some (card :: nil) /\
  Forall ExtractedFlashCard (card :: nil).
Proof.
  cbv zeta.
  assert (H : validateCards
                (JArray (JObject ((lit "front", JString (lit "no back")) :: nil)
                         :: JObject ((lit "front", JString (lit "spaced repetition"))
                                     :: (lit "back", JString (lit "a learning technique"))
                                     :: (lit "source_fragment", JString (lit "..."))
                                     :: (lit "confidence", JNumber (ofZ 9)) :: nil)
                         :: JNumber n1 :: nil))
              = Some (JObject ((lit "front", JString (lit "spaced repetition"))
                               :: (lit "back", JString (lit "a learning technique"))
                               :: (lit "source_fragment", JString (lit "..."))
                               :: (lit "confidence", JNumber (ofZ 9)) :: nil) :: nil))
    by (vm_compute; reflexivity).
  split; [exact H|].
  exact (proj2 (proj2 (validateCards_sound _ _ H))).
Defined.

(** Validating a second time changes nothing. *)
Theorem validateCards_idempotent (cards : JSValue) (kept : list JSValue) :
  validateCards cards = Some kept -> validateCards (JArray kept) = Some kept.
Proof.
  destruct cards as [| |b|n|s|items|props]; cbn [validateCards];
    try (intros [= <-]; reflexivity).
  destruct (filterCards items) as [all|] eqn:Hf; [|discriminate].
  intros [= <-]. apply filterCards_Some in Hf. subst all.
  rewrite filterCards_valid.
  - cbn [option_map]. rewrite firstn_all2 by apply firstn_le_length. reflexivity.
  - apply List.Forall_forall. intros card Hin.
    assert (Hin' : In card (List.filter keeps items)).
    { rewrite <- (firstn_skipn 100 (List.filter keeps items)).
      apply in_or_app. left. exact Hin. }
    apply filter_In in Hin' as [_ H]. exact H.
Qed.

Lemma validateCards_idempotent_witness :
  let card := JObject ((lit "front", JString (lit "SM-2"))
                       :: (lit "back", JString (lit "an algorithm"))
                       :: (lit "source_fragment", JString (lit "SM-2 is an algorithm"))
                       :: (lit "confidence", JNumber (ofZ 10)) :: nil) in
  validateCards (JArray (card :: nil)) = Some (card :: nil).
Proof.
  cbv zeta.
  apply (validateCards_idempotent
           (JArray (JBoolean true
                    :: JObject ((lit "front", JString (lit "SM-2"))
                                :: (lit "back", JString (lit "an algorithm"))
                                :: (lit "source_fragment", JString (lit "SM-2 is an algorithm"))
                                :: (lit "confidence", JNumber (ofZ 10)) :: nil)
                    :: nil))).
  vm_compute. reflexivity.
Defined.

(** When [validateCards] fails: a value that is not an array gives the
    empty list, and an array makes the function throw (a TypeError)
    exactly when it contains [null], wherever in the array. *)
Theorem validateCards_throws_iff (cards : JSValue) :
  (validateCards cards = None <->
   exists items, cards = JArray items /\ In JNull items) /\
  ((forall items, cards <> JArray items) -> validateCards cards = Some nil).
Proof.
  split.
  - destruct cards as [| |b|n|s|items|props]; cbn [validateCards];
      try (split; [discriminate | intros (items' & H & _); discriminate]).
    split.
    + intros H. exists items. split; [reflexivity|]. apply filterCards_None.
      destruct (filterCards items); [discriminate | reflexivity].
    + intros (items' & [= <-] & Hin). apply filterCards_None in Hin.
      rewrite Hin. reflexivity.
  - intros H. destruct cards as [| |b|n|s|items|props]; try reflexivity.
    exfalso. exact (H items eq_refl).
Qed.

Lemma validateCards_throws_iff_witness :
  validateCards (JArray (JString (lit "x") :: JNull :: nil)) = None /\
  validateCards (JString (lit "[]")) = Some nil.
Proof.
  split.
  - apply (validateCards_throws_iff (JArray (JString (lit "x") :: JNull :: nil))).
    eexists. split; [reflexivity | right; left; reflexivity].
  - apply (validateCards_throws_iff (JString (lit "[]"))). discriminate.
Defined.

(** * The review mode *)

Lemma countOf_cons (answer : Response) (r : ReviewMode.ProgressEntry)
    (rs : list ReviewMode.ProgressEntry) :
  ReviewMode.countOf answer (r :: rs)
  = (isAnswer (ReviewMode.response r) answer + ReviewMode.countOf answer rs)%nat.
Proof.
  unfold ReviewMode.countOf, isAnswer. cbn [List.filter].
  destruct (ReviewMode.Response_eqb (ReviewMode.response r) answer); reflexivity.
Qed.

Lemma countOf_Permutation (answer : Response) (rs rs' : list ReviewMode.ProgressEntry) :
  Permutation rs rs' -> ReviewMode.countOf answer rs = ReviewMode.countOf answer rs'.
Proof.
  induction 1 as [|x l l' _ IH|x y l|l l' l'' _ IH1 _ IH2].
  - reflexivity.
  - rewrite !countOf_cons, IH. reflexivity.
  - rewrite !countOf_cons. lia.
  - congruence.
Qed.

Lemma countOf_total (rs : list ReviewMode.ProgressEntry) :
  (ReviewMode.countOf know rs + ReviewMode.countOf difficult rs
   + ReviewMode.countOf unknown rs = length rs)%nat.
Proof.
  induction rs as [|r rs IH]; [reflexivity|].
  rewrite !countOf_cons. cbn [length]. unfold isAnswer.
  destruct (ReviewMode.response r); cbn [ReviewMode.Response_eqb]; lia.
Qed.

Lemma statOf_countOf (answer : Response) (progress : ReviewMode.ProgressState) :
  statOf answer (ReviewMode.getProgressStats progress)
  = ReviewMode.countOf answer (List.map snd (map_to_list progress)).
Proof. destruct answer; reflexivity. Qed.

(** The statistics of the progress: [total] is the number of cards that
    have an answer, and every answer is counted as exactly one of known,
    difficult and unknown. *)
Theorem getProgressStats_total (progress : ReviewMode.ProgressState) :
  let stats := ReviewMode.getProgressStats progress in
  ReviewMode.total stats = size progress /\
  (ReviewMode.known stats + ReviewMode.difficult stats + ReviewMode.unknown stats
   = ReviewMode.total stats)%nat.
Proof.
  cbv zeta. unfold ReviewMode.getProgressStats.
  cbn [ReviewMode.total ReviewMode.known ReviewMode.difficult ReviewMode.unknown].
  split.
  - rewrite length_map. apply length_map_to_list.
  - apply countOf_total.
Qed.

(** Recording an answer.  The answer of a card that had none adds one to
    the total and to the count of that answer; a new answer for a card
    that had one replaces the old answer, so that the total stays and only
    the counts of the old and the new answer change.  The other cards keep
    their answers. *)
Theorem recordResponse_stats
    (cardId : string) (answer : Response) (prev : ReviewMode.ProgressState)
    (clk : Clock) :
  let next := fst (ReviewMode.recordResponse cardId answer prev clk) in
  let before := ReviewMode.getProgressStats prev in
  let after := ReviewMode.getProgressStats next in
  next !! cardId = Some {| ReviewMode.response := answer;
                           ReviewMode.timestamp := ofZ (clk O) |} /\
  (forall other, other <> cardId -> next !! other = prev !! other) /\
  match prev !! cardId with
  | None =>
      ReviewMode.total after = S (ReviewMode.total before) /\
      forall a, statOf a after = (isAnswer answer a + statOf a before)%nat
  | Some old =>
      ReviewMode.total after = ReviewMode.total before /\
      forall a, (statOf a after + isAnswer (ReviewMode.response old) a
                 = isAnswer answer a + statOf a before)%nat
  end.
Proof.
  cbv zeta. unfold ReviewMode.recordResponse. unfold_eff. cbn [fst].
  set (entry := {| ReviewMode.response := answer;
                   ReviewMode.timestamp := ofZ (clk O) |}).
  split; [apply lookup_insert_eq | split].
  - intros other Hne. apply lookup_insert_ne. congruence.
  - destruct (prev !! cardId) as [old|] eqn:Hold.
    + assert (Hp : Permutation (List.map snd (map_to_list prev))
                     (old :: List.map snd (map_to_list (delete cardId prev)))).
      { change (old :: List.map snd (map_to_list (delete cardId prev)))
          with (List.map snd ((cardId, old) :: map_to_list (delete cardId prev))).
        apply Permutation_map. symmetry. apply map_to_list_delete. assumption. }
      assert (Hn : Permutation (List.map snd (map_to_list (<[cardId := entry]> prev)))
                     (entry :: List.map snd (map_to_list (delete cardId prev)))).
      { rewrite <- (insert_delete_eq prev cardId entry).
        change (entry :: List.map snd (map_to_list (delete cardId prev)))
          with (List.map snd ((cardId, entry) :: map_to_list (delete cardId prev))).
        apply Permutation_map, map_to_list_insert, lookup_delete_eq. }
      split.
      * unfold ReviewMode.getProgressStats. cbn [ReviewMode.total].
        rewrite (Permutation_length Hp), (Permutation_length Hn). reflexivity.
      * intros a. rewrite !statOf_countOf.
        rewrite (countOf_Permutation a _ _ Hp), (countOf_Permutation a _ _ Hn).
        rewrite !countOf_cons. cbn [ReviewMode.response entry]. lia.
    + assert (Hn : Permutation (List.map snd (map_to_list (<[cardId := entry]> prev)))
                     (entry :: List.map snd (map_to_list prev))).
      { change (entry :: List.map snd (map_to_list prev))
          with (List.map snd ((cardId, entry) :: map_to_list prev)).
        apply Permutation_map, map_to_list_insert. assumption. }
      split.
      * unfold ReviewMode.getProgressStats. cbn [ReviewMode.total].
        rewrite (Permutation_length Hn). reflexivity.
      * intros a. rewrite !statOf_countOf.
        rewrite (countOf_Permutation a _ _ Hn), countOf_cons. reflexivity.
Qed.

(** The accuracy shown at the end of a review is a whole number between
    0 and 100. *)
Theorem accuracy_range (progress : ReviewMode.ProgressState) :
  Z.of_nat (size progress) < 2 ^ 53 ->
  exists k, 0 <= k <= 100 /\
    ReviewMode.accuracy (ReviewMode.getProgressStats progress) = ofZ k.
Proof.
  intros Hb.
  assert (Ht : ReviewMode.total (ReviewMode.getProgressStats progress)
               = size progress).
  { unfold ReviewMode.getProgressStats. cbn [ReviewMode.total].
    rewrite length_map. apply length_map_to_list. }
  assert (Hsum : (ReviewMode.known (ReviewMode.getProgressStats progress)
                  + ReviewMode.difficult (ReviewMode.getProgressStats progress)
                  + ReviewMode.unknown (ReviewMode.getProgressStats progress)
                  = ReviewMode.total (ReviewMode.getProgressStats progress))%nat).
  { unfold ReviewMode.getProgressStats.
    cbn [ReviewMode.total ReviewMode.known ReviewMode.difficult ReviewMode.unknown].
    apply countOf_total. }
  unfold ReviewMode.accuracy.
  destruct (Nat.ltb_spec 0 (ReviewMode.total (ReviewMode.getProgressStats progress)))
    as [Hpos|Hzero].
  - apply percentage_range; [lia | assumption | rewrite Ht; assumption].
  - exists 0. split; [lia | reflexivity].
Qed.

Lemma accuracy_range_witness :
  let progress : ReviewMode.ProgressState :=
    <["1" := {| ReviewMode.response := know; ReviewMode.timestamp := ofZ T0 |}]>
      (<["2" := {| ReviewMode.response := unknown; ReviewMode.timestamp := ofZ T0 |}]>
         (<["3" := {| ReviewMode.response := know; ReviewMode.timestamp := ofZ T0 |}]> ∅)) in
  (exists k, 0 <= k <= 100 /\
     ReviewMode.accuracy (ReviewMode.getProgressStats progress) = ofZ k) /\
  ReviewMode.accuracy (ReviewMode.getProgressStats progress) = ofZ 67.
Proof.
  cbv zeta. split.
  - apply accuracy_range. vm_compute. reflexivity.
  - vm_compute. reflexivity.
Defined.

(** * Integer arithmetic on Numbers *)

(** Normalising the integer [n], given as [z * 2 ^ ez], gives its Number
    value. *)
Lemma normalize_integer (z ez n : Z) :
  ez <= 0 -> z = n * 2 ^ (- ez) -> Z.abs n < 2 ^ 53 ->
  binary_normalize prec emax z ez false = ofZ n.
Proof.
  intros Hez Hz Hn.
  assert (P : 0 < 2 ^ (- ez)) by (apply Z.pow_pos_nonneg; lia).
  assert (Hgen : forall (s : bool) (p q : positive),
             Zpos p = Zpos q * 2 ^ (- ez) -> Zpos q < 2 ^ 53 ->
             forall Mc, Zpos Mc = Zpos q * 2 ^ (53 - Zpos (digits2_pos q)) ->
             binary_round prec emax s p ez
             = S754_finite s Mc (Zpos (digits2_pos q) - 53)).
  { intros s p q Hp Hq Mc HMc.
    pose proof (digits_le_53 q Hq) as Hdq.
    pose proof (digits2_pos_bounds q) as [Qlo Qhi].
    set (dq := Zpos (digits2_pos q)) in *.
    assert (0 < dq) by (unfold dq; lia).
    assert (Hcan : canonical_mantissa prec emax Mc (dq - 53) = true).
    { unfold canonical_mantissa.
      rewrite (digits_shift q Mc (53 - dq)) by (lia || assumption).
      fold dq. rewrite fexp_eq. apply Z.eqb_eq. lia. }
    unfold binary_round.
    rewrite (digits_shift q p (- ez)) by (lia || assumption).
    fold dq. rewrite fexp_eq.
    replace (Z.max (dq + - ez + ez - 53) (-1074)) with (dq - 53) by lia.
    pose proof (shl_align_spec p ez (dq - 53)) as SA.
    destruct (shl_align p ez (dq - 53)) as [mz ez'] eqn:Esh.
    destruct SA as [Hez' Hmz].
    destruct (Z_le_gt_dec ez (dq - 53)) as [Hle|Hgt].
    - (* the mantissa is shifted right, exactly *)
      assert (ez' = ez) by lia. clear Hez'. subst ez'.
      rewrite Z.sub_diag, Z.pow_0_r, Z.mul_1_r in Hmz.
      rewrite Hmz.
      replace (Zpos p) with (Zpos Mc * 2 ^ (dq - 53 - ez)).
      + rewrite binary_round_aux_shifted.
        * replace (ez + (dq - 53 - ez)) with (dq - 53) by lia.
          replace (dq - 53 <=? 971) with true by (symmetry; apply Z.leb_le; lia).
          reflexivity.
        * lia.
        * replace (ez + (dq - 53 - ez)) with (dq - 53) by lia. exact Hcan.
      + rewrite Hp, HMc, <- Z.mul_assoc, <- Z.pow_add_r by lia.
        f_equal. f_equal. lia.
    - (* the mantissa is shifted left *)
      assert (ez' = dq - 53) by lia. clear Hez'. subst ez'.
      assert (mz = Mc).
      { apply Pos2Z.inj. rewrite Hmz, Hp, HMc, <- Z.mul_assoc, <- Z.pow_add_r by lia.
        f_equal. f_equal. lia. }
      subst mz. rewrite binary_round_aux_canonical by exact Hcan.
      replace (dq - 53 <=? 971) with true by (symmetry; apply Z.leb_le; lia).
      reflexivity. }
  destruct n as [|q|q].
  - subst z. reflexivity.
  - destruct z as [|p|p]; [lia| |lia].
    destruct (ofZ_pos q Hn) as (Mc & HMc & ->).
    cbn [binary_normalize]. apply Hgen; assumption.
  - destruct z as [|p|p]; [lia|lia|].
    destruct (ofZ_neg q Hn) as (Mc & HMc & ->).
    cbn [binary_normalize]. apply Hgen; [lia | assumption | assumption].
Qed.

(** The aligned mantissas of two integers. *)
Lemma ofZ_aligned (a : Z) (s : bool) (M : positive) (e ez : Z) :
  ofZ a = S754_finite s M e -> Z.abs a < 2 ^ 53 -> ez <= e -> ez <= 0 ->
  cond_Zopp s (Zpos (fst (shl_align M e ez))) = a * 2 ^ (- ez).
Proof.
  intros Ha Hb Hez Hez0.
  pose proof (shl_align_spec M e ez) as SA.
  destruct (shl_align M e ez) as [M' e']. destruct SA as [He' HM']. cbn [fst].
  assert (e' = ez) by lia. clear He'. subst e'.
  destruct a as [|q|q].
  - discriminate.
  - destruct (ofZ_pos q Hb) as (Mc & HMc & E). rewrite E in Ha.
    injection Ha as <- <- <-. cbn [cond_Zopp].
    pose proof (digits_le_53 q Hb).
    assert (0 < Zpos (digits2_pos q)) by lia.
    rewrite HM', HMc, <- Z.mul_assoc, <- Z.pow_add_r by lia.
    f_equal. f_equal. lia.
  - destruct (ofZ_neg q Hb) as (Mc & HMc & E). rewrite E in Ha.
    injection Ha as <- <- <-. cbn [cond_Zopp].
    pose proof (digits_le_53 q Hb).
    assert (0 < Zpos (digits2_pos q)) by lia.
    rewrite HM', HMc, <- Z.mul_assoc, <- Z.pow_add_r by lia.
    replace (53 - Zpos (digits2_pos q) + (Zpos (digits2_pos q) - 53 - ez))
      with (- ez) by lia.
    change (Zneg q) with (- Zpos q). lia.
Qed.

Lemma ofZ_finite_exponent (a : Z) (s : bool) (M : positive) (e : Z) :
  ofZ a = S754_finite s M e -> Z.abs a < 2 ^ 53 -> e <= 0.
Proof.
  intros Ha Hb. destruct a as [|q|q]; [discriminate| |].
  - destruct (ofZ_pos q Hb) as (Mc & HMc & E). rewrite E in Ha.
    injection Ha as <- <- <-. pose proof (digits_le_53 q Hb). lia.
  - destruct (ofZ_neg q Hb) as (Mc & HMc & E). rewrite E in Ha.
    injection Ha as <- <- <-. pose proof (digits_le_53 q Hb). lia.
Qed.

Lemma ofZ_cases (a : Z) :
  Z.abs a < 2 ^ 53 ->
  (a = 0 /\ ofZ a = S754_zero false) \/
  (a <> 0 /\ exists s M e, ofZ a = S754_finite s M e).
Proof.
  intros Hb. destruct a as [|q|q].
  - left. split; reflexivity.
  - right. split; [discriminate|].
    destruct (ofZ_pos q Hb) as (Mc & _ & ->). eauto.
  - right. split; [discriminate|].
    destruct (ofZ_neg q Hb) as (Mc & _ & ->). eauto.
Qed.

(** Sums and differences of integers are exact while they stay below
    [2 ^ 53]. *)
Lemma add_ofZ (a b : Z) :
  Z.abs a < 2 ^ 53 -> Z.abs b < 2 ^ 53 -> Z.abs (a + b) < 2 ^ 53 ->
  add (ofZ a) (ofZ b) = ofZ (a + b).
Proof.
  intros Ha Hb Hab.
  destruct (ofZ_cases a Ha) as [[-> Ea] | [Na (sa & Ma & ea & Ea)]];
    destruct (ofZ_cases b Hb) as [[-> Eb] | [Nb (sb & Mb & eb & Eb)]].
  - reflexivity.
  - rewrite Z.add_0_l, Ea, Eb. reflexivity.
  - rewrite Z.add_0_r, Ea, Eb. reflexivity.
  - rewrite Ea, Eb. unfold add, SFadd.
    pose proof (ofZ_finite_exponent a sa Ma ea Ea Ha).
    pose proof (ofZ_finite_exponent b sb Mb eb Eb Hb).
    apply normalize_integer; [lia | | assumption].
    rewrite (ofZ_aligned a sa Ma ea _ Ea Ha) by lia.
    rewrite (ofZ_aligned b sb Mb eb _ Eb Hb) by lia.
    lia.
Qed.

Lemma sub_ofZ (a b : Z) :
  Z.abs a < 2 ^ 53 -> Z.abs b < 2 ^ 53 -> Z.abs (a - b) < 2 ^ 53 ->
  sub (ofZ a) (ofZ b) = ofZ (a - b).
Proof.
  intros Ha Hb Hab.
  destruct (ofZ_cases a Ha) as [[-> Ea] | [Na (sa & Ma & ea & Ea)]];
    destruct (ofZ_cases b Hb) as [[-> Eb] | [Nb (sb & Mb & eb & Eb)]].
  - reflexivity.
  - clear Eb. destruct b as [|q|q]; [congruence| |].
    + change (0 - Zpos q) with (Zneg q).
      destruct (ofZ_pos q Hb) as (Mc & HMc & ->).
      destruct (ofZ_neg q Hb) as (Mc' & HMc' & ->).
      rewrite Ea. cbn [sub SFsub negb].
      f_equal. apply Pos2Z.inj. congruence.
    + change (0 - Zneg q) with (Zpos q).
      destruct (ofZ_neg q Hb) as (Mc & HMc & ->).
      destruct (ofZ_pos q Hb) as (Mc' & HMc' & ->).
      rewrite Ea. cbn [sub SFsub negb].
      f_equal. apply Pos2Z.inj. congruence.
  - rewrite Z.sub_0_r, Ea, Eb. reflexivity.
  - rewrite Ea, Eb. unfold sub, SFsub.
    pose proof (ofZ_finite_exponent a sa Ma ea Ea Ha).
    pose proof (ofZ_finite_exponent b sb Mb eb Eb Hb).
    apply normalize_integer; [lia | | assumption].
    rewrite (ofZ_aligned a sa Ma ea _ Ea Ha) by lia.
    rewrite (ofZ_aligned b sb Mb eb _ Eb Hb) by lia.
    lia.
Qed.

Lemma lt_ofZ (a b : Z) :
  Z.abs a < 2 ^ 53 -> Z.abs b < 2 ^ 53 -> lt (ofZ a) (ofZ b) = (a <? b).
Proof.
  intros Ha Hb. unfold lt, SFltb, Z.ltb.
  destruct a as [|a|a], b as [|b|b];
    try (destruct (ofZ_pos a ltac:(lia)) as (Ma & HMa & ->));
    try (destruct (ofZ_neg a ltac:(lia)) as (Ma & HMa & ->));
    try (destruct (ofZ_pos b ltac:(lia)) as (Mb & HMb & ->));
    try (destruct (ofZ_neg b ltac:(lia)) as (Mb & HMb & ->));
    try reflexivity.
  - cbn [SFcompare].
    rewrite (ofZ_pos_compare a b Ma Mb HMa HMb)
      by (apply digits_le_53; lia).
    reflexivity.
  - cbn [SFcompare].
    pose proof (ofZ_pos_compare a b Ma Mb HMa HMb
                  ltac:(apply digits_le_53; lia) ltac:(apply digits_le_53; lia)) as C.
    change (Z.neg a ?= Z.neg b) with (CompOpp (Zpos a ?= Zpos b)).
    rewrite <- C.
    destruct (Zpos (digits2_pos a) - 53 ?= Zpos (digits2_pos b) - 53);
      reflexivity.
Qed.

Lemma Math_max_ofZ (a b : Z) :
  Z.abs a < 2 ^ 53 -> Z.abs b < 2 ^ 53 ->
  Math_max (ofZ a) (ofZ b) = ofZ (Z.max a b).
Proof.
  intros Ha Hb.
  pose proof (le_ofZ a b Ha Hb) as Hle. pose proof (le_ofZ b a Hb Ha) as Hge.
  unfold le, SFleb in Hle, Hge. unfold Math_max.
  destruct (ofZ_wf a) as [_ Na]. destruct (ofZ_wf b) as [_ Nb].
  destruct (SFcompare (ofZ a) (ofZ b)) as [[| |]|] eqn:Hc.
  - assert (a <= b) by (apply Z.leb_le; congruence).
    assert (Hc' : SFcompare (ofZ b) (ofZ a) = Some Eq).
    { revert Hc. destruct (ofZ a) as [[]|[]| |[] ma ea], (ofZ b) as [[]|[]| |[] mb eb];
        cbn [SFcompare]; try discriminate; try reflexivity;
        rewrite !compare_cont_spec;
        destruct (Z.compare_spec ea eb), (Z.compare_spec eb ea); try lia;
        try discriminate;
        destruct (Z.compare_spec (Zpos ma) (Zpos mb)),
          (Z.compare_spec (Zpos mb) (Zpos ma)); try lia; try discriminate;
        reflexivity. }
    rewrite Hc' in Hge. assert (b <= a) by (apply Z.leb_le; congruence).
    assert (a = b) by lia. subst b. rewrite Z.max_id.
    destruct (ofZ a) as [[]| | |]; reflexivity.
  - assert (a <= b) by (apply Z.leb_le; congruence).
    rewrite Z.max_r by assumption. reflexivity.
  - assert (Hba : (a <=? b) = false) by congruence.
    apply Z.leb_gt in Hba. rewrite Z.max_l by lia. reflexivity.
  - destruct (ofZ a), (ofZ b); try discriminate.
Qed.

(** * The exam mode *)

(** Whole seconds of a time below five seconds. *)
Lemma floor_seconds (dt : Z) :
  0 <= dt < 5000 -> Math_floor (div (ofZ dt) (ofZ 1000)) = ofZ (dt / 1000).
Proof.
  intros Hdt.
  assert (H : forallb (fun n =>
                         if number_eq_dec
                              (Math_floor (div (ofZ (Z.of_nat n)) (ofZ 1000)))
                              (ofZ (Z.of_nat n / 1000))
                         then true else false) (seq 0 5000) = true)
    by (vm_compute; reflexivity).
  rewrite forallb_forall in H.
  specialize (H (Z.to_nat dt)).
  rewrite Z2Nat.id in H by lia.
  destruct (number_eq_dec (Math_floor (div (ofZ dt) (ofZ 1000))) (ofZ (dt / 1000)))
    as [E|]; [exact E|].
  assert (false = true); [|discriminate].
  apply H. apply in_seq. lia.
Qed.

(** The score of an answer.  A wrong answer scores nothing.  A correct
    answer scores 10 points plus the current streak, plus a bonus for
    speed: 5 points minus the whole seconds taken when the answer comes
    within five seconds (so 5, 4, 3, 2 or 1 points), nothing after that. *)
Theorem cardScore_points
    (examState : ExamMode.ExamState) (isCorrect : bool) (clk : Clock) (s t0 : Z) :
  ExamMode.streak examState = ofZ s -> 0 <= s < 2 ^ 52 ->
  ExamMode.cardStartTime examState = ofZ t0 ->
  0 <= t0 -> t0 <= clk O -> clk O <= maxTime ->
  let seconds := (clk O - t0) / 1000 in
  fst (ExamMode.cardScore examState isCorrect clk)
  = (if isCorrect
     then if seconds <? 5 then ofZ (10 + s + (5 - seconds)) else ofZ (10 + s)
     else n0) /\
  (seconds < 5 -> 1 <= 5 - seconds <= 5).
Proof.
  intros Hs Hsr Ht0 H0 Hle Hmax seconds.
  assert (Hsec : 0 <= seconds) by (unfold seconds; apply Z.div_pos; lia).
  split; [|lia].
  unfold ExamMode.cardScore. unfold_eff. cbn [fst].
  destruct isCorrect; [|reflexivity].
  rewrite Hs, Ht0. cbn [andb].
  change (2 ^ 52) with 4503599627370496 in Hsr.
  assert (B : forall z, 0 <= z <= maxTime -> Z.abs z < 2 ^ 53).
  { intros z Hz. apply maxTime_lt_pow53. unfold maxTime in *. lia. }
  rewrite sub_ofZ by (apply B; unfold maxTime in *; lia).
  rewrite lt_ofZ by (first [apply B; unfold maxTime in *; lia | reflexivity]).
  rewrite (add_ofZ 10 s)
    by (change (2 ^ 53) with 9007199254740992; lia).
  destruct (Z.ltb_spec (clk O - t0) 5000) as [Hlt|Hge].
  - assert (Hs5 : seconds < 5)
      by (unfold seconds; apply Z.div_lt_upper_bound; lia).
    destruct (Z.ltb_spec seconds 5) as [_|]; [|lia].
    rewrite floor_seconds by lia. fold seconds.
    change n5 with (ofZ 5). change n0 with (ofZ 0).
    rewrite sub_ofZ by (change (2 ^ 53) with 9007199254740992; lia).
    rewrite Math_max_ofZ by (change (2 ^ 53) with 9007199254740992; lia).
    rewrite Z.max_r by lia.
    apply add_ofZ; change (2 ^ 53) with 9007199254740992; lia.
  - assert (Hs5 : 5 <= seconds)
      by (unfold seconds; apply Z.div_le_lower_bound; lia).
    destruct (Z.ltb_spec seconds 5) as [|_]; [lia|].
    change n0 with (ofZ 0).
    rewrite add_ofZ by (change (2 ^ 53) with 9007199254740992; lia).
    f_equal. lia.
Qed.

Lemma cardScore_points_witness :
  fst (ExamMode.cardScore sampleExamState true (frozen (T0 + 62500))) = ofZ 15 /\
  fst (ExamMode.cardScore sampleExamState true (frozen (T0 + 65000))) = ofZ 12.
Proof.
  split.
  - refine (proj1 (cardScore_points sampleExamState true (frozen (T0 + 62500)) 2
                     (T0 + 60000) eq_refl _ eq_refl _ _ _));
      unfold frozen, T0, maxTime; change (2 ^ 52) with 4503599627370496; lia.
  - refine (proj1 (cardScore_points sampleExamState true (frozen (T0 + 65000)) 2
                     (T0 + 60000) eq_refl _ eq_refl _ _ _));
      unfold frozen, T0, maxTime; change (2 ^ 52) with 4503599627370496; lia.
Defined.

(** ** The counters of an exam *)

Lemma currentRun_bounds (done : list bool) :
  0 <= currentRun done <= Z.of_nat (length done).
Proof.
  induction done as [|[] done IH]; cbn [currentRun length]; lia.
Qed.

Lemma longestRun_bounds (done : list bool) :
  currentRun done <= longestRun done <= countTrue done.
Proof.
  unfold countTrue.
  induction done as [|b done IH]; [cbn; lia|].
  pose proof (currentRun_bounds done).
  assert (Hc : currentRun (b :: done)
               <= Z.of_nat (length (List.filter (fun b => b) (b :: done)))).
  { clear IH H. revert b. induction done as [|b' done IH]; intros b.
    - destruct b; cbn; lia.
    - destruct b; [|cbn [currentRun]; lia].
      specialize (IH b'). cbn [currentRun List.filter length] in *.
      destruct b'; cbn [currentRun List.filter length] in *; lia. }
  cbn [longestRun]. split; [lia|].
  apply Z.max_lub; [|exact Hc].
  destruct b; cbn [List.filter length]; lia.
Qed.

Lemma count_bounds (done : list bool) :
  0 <= countTrue done /\ 0 <= countFalse done /\
  countTrue done + countFalse done = Z.of_nat (length done).
Proof.
  unfold countTrue, countFalse.
  induction done as [|[] done IH]; cbn [List.filter length negb]; lia.
Qed.

Lemma count_rev (answers : list bool) :
  countTrue (rev answers) = countTrue answers /\
  countFalse (rev answers) = countFalse answers.
Proof.
  unfold countTrue, countFalse.
  induction answers as [|b answers [IH1 IH2]]; [split; reflexivity|].
  cbn [rev]. rewrite !List.filter_app, !List.length_app.
  destruct b; cbn [List.filter length negb]; lia.
Qed.

(** The counters after the answers [done] (the last answer first). *)
Lemma answerAll_counts (answers : list bool) :
  forall (done : list bool) (st : ExamMode.ExamState) (clk : Clock),
    Z.of_nat (length done + length answers) < 2 ^ 52 ->
    ExamMode.correct st = ofZ (countTrue done) ->
    ExamMode.incorrect st = ofZ (countFalse done) ->
    ExamMode.streak st = ofZ (currentRun done) ->
    ExamMode.maxStreak st = ofZ (longestRun done) ->
    let st' := fst (ExamMode.answerAll answers st clk) in
    ExamMode.correct st' = ofZ (countTrue (rev answers ++ done)) /\
    ExamMode.incorrect st' = ofZ (countFalse (rev answers ++ done)) /\
    ExamMode.streak st' = ofZ (currentRun (rev answers ++ done)) /\
    ExamMode.maxStreak st' = ofZ (longestRun (rev answers ++ done)) /\
    ExamMode.startTime st' = ExamMode.startTime st.
Proof.
  induction answers as [|b answers IH]; intros done st clk Hlen Hc Hi Hs Hm.
  - cbn [rev app]. repeat split; assumption.
  - cbn [rev]. rewrite <- app_assoc. cbn [app].
    change (ExamMode.answerAll (b :: answers) st clk)
      with (bind (ExamMode.handleExamAnswer b st)
              (fun next => ExamMode.answerAll answers next) clk).
    unfold bind.
    pose proof (count_bounds done) as (C0 & I0 & CI).
    pose proof (currentRun_bounds done) as R0.
    pose proof (longestRun_bounds done) as L0.
    change (2 ^ 52) with 4503599627370496 in Hlen.
    cbn [length] in Hlen.
    assert (B : forall z, 0 <= z <= Z.of_nat (length done) + 1 -> Z.abs z < 2 ^ 53)
      by (intros z Hz; change (2 ^ 53) with 9007199254740992; lia).
    assert (Hstep :
      let next := fst (ExamMode.handleExamAnswer b st clk) in
      ExamMode.correct next = ofZ (countTrue (b :: done)) /\
      ExamMode.incorrect next = ofZ (countFalse (b :: done)) /\
      ExamMode.streak next = ofZ (currentRun (b :: done)) /\
      ExamMode.maxStreak next = ofZ (longestRun (b :: done)) /\
      ExamMode.startTime next = ExamMode.startTime st).
    { unfold ExamMode.handleExamAnswer, ExamMode.updateState, ExamMode.cardScore.
      unfold_eff.
      cbn [fst ExamMode.correct ExamMode.incorrect ExamMode.streak
           ExamMode.maxStreak ExamMode.startTime].
      rewrite Hc, Hi, Hs, Hm. change n1 with (ofZ 1). change n0 with (ofZ 0).
      cbn [longestRun].
      destruct b.
      - rewrite !add_ofZ by (apply B; lia).
        rewrite Math_max_ofZ by (apply B; lia).
        unfold countTrue, countFalse. cbn [List.filter negb length currentRun].
        repeat split; f_equal; lia.
      - rewrite !add_ofZ by (apply B; lia).
        rewrite Math_max_ofZ by (apply B; lia).
        unfold countTrue, countFalse. cbn [List.filter negb length currentRun].
        repeat split; f_equal; lia. }
    cbv zeta in Hstep. destruct Hstep as (Hc' & Hi' & Hs' & Hm' & Ht').
    destruct (ExamMode.handleExamAnswer b st clk) as [next clk'].
    cbn [fst] in *. rewrite <- Ht'.
    apply IH; try assumption.
    cbn [length]. change (2 ^ 52) with 4503599627370496. lia.
Qed.

(** The counters of an exam after any list of answers: [correct] and
    [incorrect] count the answers of each kind (together, all of them),
    [streak] is the number of correct answers since the last wrong one and
    [maxStreak] the length of the longest such run; hence
    [streak <= maxStreak <= correct]. *)
Theorem answerAll_counters
    (answers : list bool) (startTime cardStartTime : number) (clk : Clock) :
  Z.of_nat (length answers) < 2 ^ 52 ->
  let st := fst (ExamMode.answerAll answers
                   (ExamMode.initialState startTime cardStartTime) clk) in
  ExamMode.correct st = ofZ (countTrue answers) /\
  ExamMode.incorrect st = ofZ (countFalse answers) /\
  countTrue answers + countFalse answers = Z.of_nat (length answers) /\
  ExamMode.streak st = ofZ (currentRun (rev answers)) /\
  ExamMode.maxStreak st = ofZ (longestRun (rev answers)) /\
  currentRun (rev answers) <= longestRun (rev answers) <= countTrue answers /\
  ExamMode.startTime st = startTime.
Proof.
  intros Hlen st.
  pose proof (answerAll_counts answers nil
                (ExamMode.initialState startTime cardStartTime) clk) as H.
  cbv zeta in H. rewrite app_nil_r in H.
  destruct H as (Hc & Hi & Hs & Hm & Ht); try reflexivity; [exact Hlen|].
  destruct (count_rev answers) as [Rc Ri]. rewrite Rc in Hc. rewrite Ri in Hi.
  pose proof (longestRun_bounds (rev answers)) as L. rewrite Rc in L.
  pose proof (count_bounds answers) as (_ & _ & CI).
  repeat split; try assumption; lia.
Qed.

Lemma answerAll_counters_witness :
  let st := fst (ExamMode.answerAll (true :: true :: false :: true :: nil)
                   (ExamMode.initialState (ofZ T0) (ofZ T0))
                   (fun n => T0 + 2000 * Z.of_nat n)) in
  ExamMode.correct st = n3 /\ ExamMode.incorrect st = n1 /\
  ExamMode.streak st = n1 /\ ExamMode.maxStreak st = n2.
Proof.
  pose proof (answerAll_counters (true :: true :: false :: true :: nil)
                (ofZ T0) (ofZ T0) (fun n => T0 + 2000 * Z.of_nat n)) as H.
  cbv zeta in H. destruct H as (Hc & Hi & _ & Hs & Hm & _).
  - vm_compute. reflexivity.
  - cbv zeta. rewrite Hc, Hi, Hs, Hm. repeat split.
Defined.

(** ** The results of an exam *)

(** The results handed to [onComplete] are computed from the state of the
    rendering in which the last answer is given: the counts and the score
    include the last answer (they are those of the updated state), but the
    streak and the longest streak are those before it.  After a correct
    last answer the reported streak is one less than the final one. *)
Theorem showExamResults_streak
    (examState : ExamMode.ExamState) (cards : nat) (lastCorrect : bool)
    (lastScore : number) (clk clk' : Clock) (s : Z) :
  ExamMode.streak examState = ofZ s -> 0 <= s < 2 ^ 52 ->
  let final := fst (ExamMode.updateState lastCorrect lastScore examState clk) in
  let results := fst (ExamMode.showExamResults examState cards lastCorrect
                        lastScore clk') in
  ExamMode.Results.correctAnswers results = ExamMode.correct final /\
  ExamMode.Results.incorrectAnswers results = ExamMode.incorrect final /\
  ExamMode.Results.score results = ExamMode.score final /\
  ExamMode.Results.streak results = ofZ s /\
  ExamMode.Results.maxStreak results = ExamMode.maxStreak examState /\
  ExamMode.streak final = (if lastCorrect then ofZ (s + 1) else n0).
Proof.
  intros Hs Hr. cbv zeta.
  unfold ExamMode.updateState, ExamMode.showExamResults. unfold_eff.
  cbn [fst ExamMode.correct ExamMode.incorrect ExamMode.score ExamMode.streak
       ExamMode.Results.correctAnswers ExamMode.Results.incorrectAnswers
       ExamMode.Results.score ExamMode.Results.streak ExamMode.Results.maxStreak].
  repeat split; try assumption.
  destruct lastCorrect; [|reflexivity].
  rewrite Hs. change n1 with (ofZ 1).
  change (2 ^ 52) with 4503599627370496 in Hr.
  apply add_ofZ; change (2 ^ 53) with 9007199254740992; lia.
Qed.

Lemma showExamResults_streak_witness :
  let final := fst (ExamMode.updateState true (ofZ 15) sampleExamState (frozen T0)) in
  let results := fst (ExamMode.showExamResults sampleExamState 5 true (ofZ 15)
                        (frozen T0)) in
  ExamMode.Results.correctAnswers results = ExamMode.correct final /\
  ExamMode.Results.streak results = n2 /\ ExamMode.streak final = n3.
Proof.
  pose proof (showExamResults_streak sampleExamState 5 true (ofZ 15)
                (frozen T0) (frozen T0) 2 eq_refl) as H.
  cbv zeta in H. destruct H as (Hc & _ & _ & Hs & _ & Hf).
  - change (2 ^ 52) with 4503599627370496. lia.
  - cbv zeta. rewrite Hc, Hs, Hf. repeat split.
Defined.
